(** * FileSystemMock.c: the MAV file system

    A shallow embedding of the block pool ([file_data], [used_space]), the
    directory ([directory.files]) and the operations [put], [get], [delete],
    [disk_availability], [get_new_file_entry] and [get_free_block] of
    [src/Programs/FileSystemMock.c], followed by the properties of the
    storage engine.

    Conventions of the embedding.
    - C integers are [Z]; the casts of [put] and [get] are written out.
    - The global arrays are lists of their declared length (see [wf]); an
      index is a [Z], as in the source.  The loops over [directory.files] and
      [used_space] walk these lists, with the counter of the source.
    - An array element outside its array that the run reads, or a block of
      [file_data] outside the pool that it writes, ends the run with
      [Trapped]: the C program has no defined behaviour from there on.
    - [memcpy] writes byte by byte.  The terminator that it writes behind a
      255-character name, at [file_name[255]], is an index recorded by that
      copy and handed on in the result of [put] ([PutStored]); the
      characters inside the array are stored, and [strcmp] reads a name that
      fills the array up to its end.
    - The host side is explicit.  [stat] and [fopen] are a function from names
      to files; a file is its bytes, with the offsets at which [fread]
      reports an I/O error; [time(NULL)] is an argument; the file written by
      [get] is part of its result.  A file that [stat] finds can be opened,
      the output file of [get] can be created, and [regcomp] accepts the
      fixed pattern.
    - A message printed by [print_message] is a constructor of the result.
    - [while] loops without an evident structural argument carry a bound,
      [IterationBound] being the result when it is used up;
      [loops_end_in_bound] shows that this never happens. *)

From Stdlib Require Import ZArith Lia List String Ascii Bool.
From Stdlib.Strings Require Import Byte.
From stdpp Require Import base tactics list.

Open Scope Z_scope.

(** ** Constants (lines 40-61) *)

Definition FILE_SYSTEM_SIZE : Z := 1310720.
Definition BLOCK_SIZE : Z := 2048.
Definition DIRECTORY_SIZE : Z := 128.
Definition TOTAL_BLOCKS : Z := Eval cbv in FILE_SYSTEM_SIZE / BLOCK_SIZE.
Definition MAX_FILE_SIZE : Z := 98304.
Definition MAX_FILE_BLOCKS : Z := Eval cbv in MAX_FILE_SIZE / BLOCK_SIZE.

(** [enum State] *)
Definition NEGATIVE : Z := -1.
Definition UNSET : Z := 0.
Definition SET : Z := 1.

Definition MAX_FILE_NAME : Z := 255.
(** [sizeof (((Inode * ) 0)->file_name)], from [char file_name[255]] *)
Definition FILE_NAME_LEN : Z := 255.

Definition NUL : ascii := Ascii.zero.

(** ** Data (lines 64-78) *)

Record Inode : Type := mkInode {
  used : Z;
  file_name : list ascii;
  size : Z;
  time_created : Z;
  blocks : list Z
}.

(** The three globals: [directory.files], [file_data], [used_space]. *)
Record FS : Type := mkFS {
  directory : list Inode;
  file_data : list (list byte);
  used_space : list Z
}.

(** Static storage is zero-initialised. *)
Definition zero_inode : Inode :=
  mkInode 0 (replicate (Z.to_nat FILE_NAME_LEN) NUL) 0 0
          (replicate (Z.to_nat MAX_FILE_BLOCKS) 0).

Definition init : FS :=
  mkFS (replicate (Z.to_nat DIRECTORY_SIZE) zero_inode)
       (replicate (Z.to_nat TOTAL_BLOCKS) (replicate (Z.to_nat BLOCK_SIZE) x00))
       (replicate (Z.to_nat TOTAL_BLOCKS) 0).

(** Shape of the arrays, as declared. *)
Definition wf_inode (e : Inode) : bool :=
  (Z.of_nat (length (file_name e)) =? FILE_NAME_LEN) &&
  (Z.of_nat (length (blocks e)) =? MAX_FILE_BLOCKS).

Definition wf_block (b : list byte) : bool :=
  Z.of_nat (length b) =? BLOCK_SIZE.

Definition wfb (st : FS) : bool :=
  (Z.of_nat (length (directory st)) =? DIRECTORY_SIZE) &&
  forallb wf_inode (directory st) &&
  (Z.of_nat (length (file_data st)) =? TOTAL_BLOCKS) &&
  forallb wf_block (file_data st) &&
  (Z.of_nat (length (used_space st)) =? TOTAL_BLOCKS).

Definition wf (st : FS) : Prop := wfb st = true.

(** ** Array access with a C index *)

Definition nth_z {A : Type} (l : list A) (i : Z) : option A :=
  if i <? 0 then None else l !! Z.to_nat i.

Definition upd_z {A : Type} (l : list A) (i : Z) (x : A) : list A :=
  if i <? 0 then l else <[Z.to_nat i := x]> l.

Inductive Array : Type := Files | FileData | Blocks.

Inductive Trap : Type :=
| OutOfBounds (a : Array) (i : Z)   (* a[i] with i outside the array *)
| NullArgument                      (* strcmp on a NULL argument *)
| IterationBound.                   (* bound of a modelled loop reached *)

Inductive Outcome (A : Type) : Type :=
| Ok (a : A)
| Trapped (t : Trap).
Arguments Ok {A} a.
Arguments Trapped {A} t.

(** ** C strings *)

(** The characters in front of the first NUL. *)
Fixpoint c_str (a : list ascii) : list ascii :=
  match a with
  | [] => []
  | c :: rest => if Ascii.eqb c NUL then [] else c :: c_str rest
  end.

Definition strlen (s : string) : Z := Z.of_nat (String.length s).

(** The string that [strcmp] reads at [file_name]. *)
Definition stored_name (e : Inode) : string :=
  string_of_list_ascii (c_str (file_name e)).

(** [!strcmp(directory.files[counter].file_name, name)] *)
Definition name_matches (e : Inode) (name : string) : bool :=
  String.eqb (stored_name e) name.

(** [memcpy(dst, src, n)] on a character array of declared length: byte [i]
    of [src] goes to [dst[i]], one byte after the other.  A byte whose index
    lies outside the array is written behind it by the C program; the run of
    the copy records that index in its second component. *)
Fixpoint memcpy_from (dst : list ascii) (past : list Z) (src : list ascii)
    (i : Z) (n : nat) {struct n} : list ascii * list Z :=
  match n, src with
  | S n', c :: src' =>
      if (i <? 0) || (Z.of_nat (length dst) <=? i)
      then memcpy_from dst (past ++ [i]) src' (i + 1) n'
      else memcpy_from (upd_z dst i c) past src' (i + 1) n'
  | _, _ => (dst, past)
  end.

Definition memcpy (dst src : list ascii) (n : Z) : list ascii * list Z :=
  memcpy_from dst [] src 0 (Z.to_nat n).

(** The content of [dst] after [memcpy(dst, src, n)], in closed form. *)
Definition copied (dst src : list ascii) (n : Z) : list ascii :=
  let written := take (length dst) (take (Z.to_nat n) src) in
  written ++ drop (length written) dst.

(** The indices among the [n] written ones that lie outside an array of
    [len] elements. *)
Definition past_end (len n : Z) : list Z :=
  List.filter (fun i => len <=? i) (map Z.of_nat (seq 0 (Z.to_nat n))).

(** [FILE_NAME_REGEX = "^[a-zA-Z0-9.]{1,255}$"] with [REG_EXTENDED], in the
    C locale. *)
Definition name_char (c : ascii) : bool :=
  let n := Z.of_N (N_of_ascii c) in
  ((97 <=? n) && (n <=? 122)) || ((65 <=? n) && (n <=? 90)) ||
  ((48 <=? n) && (n <=? 57)) || (n =? 46).

Definition regexec_file_name (s : string) : bool :=
  (1 <=? strlen s) && (strlen s <=? 255) &&
  forallb name_char (list_ascii_of_string s).

(** ** Integer conversions used by [put] *)

Definition cast_int (z : Z) : Z := (z + 2147483648) mod 4294967296 - 2147483648.
Definition cast_ulong (z : Z) : Z := z mod 18446744073709551616.
Definition cast_long (z : Z) : Z :=
  (z + 9223372036854775808) mod 18446744073709551616 - 9223372036854775808.

(** ** The host side *)

(** A file of the host: its bytes, and the offsets at which a read ends in
    an I/O error instead of data or end of file. *)
Record HostFile : Type := mkHostFile {
  hf_bytes : list byte;
  hf_ioerr : Z -> bool
}.

Definition st_size (f : HostFile) : Z := Z.of_nat (length (hf_bytes f)).

(** [fseek(f, offset, SEEK_SET); fread(buf, BLOCK_SIZE, 1, f)]: the buffer
    afterwards, the item count returned and [feof].  A short read at the end
    of the file leaves the bytes read at the front of the buffer and returns
    0 items. *)
Definition fread_block (f : HostFile) (offset : Z) (buf : list byte)
  : list byte * Z * bool :=
  if hf_ioerr f offset then (buf, 0, false)
  else
    let chunk := take (Z.to_nat BLOCK_SIZE) (drop (Z.to_nat offset) (hf_bytes f)) in
    (chunk ++ drop (length chunk) buf,
     if Z.of_nat (length chunk) =? BLOCK_SIZE then 1 else 0,
     Z.of_nat (length chunk) <? BLOCK_SIZE).

(** ** [disk_availability] (lines 365-379) *)

Fixpoint free_size_from (us : list Z) (free_size : Z) : Z :=
  match us with
  | [] => free_size
  | u :: rest =>
      free_size_from rest (if u =? 0 then free_size + BLOCK_SIZE else free_size)
  end.

Definition disk_availability (st : FS) : Z :=
  cast_long (free_size_from (used_space st) 0).

(** ** [get_new_file_entry] (lines 386-396) *)

Fixpoint new_file_entry_from (files : list Inode) (counter : Z) : Z :=
  match files with
  | [] => -1
  | e :: rest =>
      if used e =? 0 then counter else new_file_entry_from rest (counter + 1)
  end.

Definition get_new_file_entry (st : FS) : Z :=
  new_file_entry_from (directory st) 0.

(** ** [get_free_block] (lines 403-413) *)

Fixpoint free_block_from (us : list Z) (counter : Z) : Z :=
  match us with
  | [] => -1
  | u :: rest =>
      if u =? UNSET then counter else free_block_from rest (counter + 1)
  end.

Definition get_free_block (st : FS) : Z :=
  free_block_from (used_space st) 0.

(** ** [put] (lines 150-236) *)

Inductive PutMsg : Type :=
| PutNameMissing      (* "put error: File name missing." *)
| PutNameTooLong      (* "put error: File name too long." *)
| PutInvalidName      (* "put error: Invalid file name." *)
| PutFileNotFound     (* "put error: File not found." *)
| PutTooLarge         (* "put error: Exceeds maximum supported file size." *)
| PutNoSpace          (* "put error: Not enough disk space." *)
| PutDirFull          (* "put error: Directory limit reached." *)
| PutReadError        (* "get error: An error occurred reading from the input file." *)
| PutStored (past : list Z).
    (* no message: the entry is written; [past] lists the indices of
       [file_name] written by the final memcpy that lie outside the array *)

Definition with_blocks (e : Inode) (bs : list Z) : Inode :=
  mkInode (used e) (file_name e) (size e) (time_created e) bs.

(** How the copy loop of [put] ends: with the value of [counter], or at the
    [return] after a failed [fread]. *)
Inductive CopyEnd : Type :=
| CopyDone (counter : Z)
| CopyReadError.

(** The loop [while (copy_size > 0)] of lines 208-225. *)
Fixpoint put_copy (fuel : nat) (st : FS) (input_file : HostFile)
    (file_entry_index copy_size offset counter : Z) : Outcome (FS * CopyEnd) :=
  if copy_size >? 0 then
    match fuel with
    | O => Trapped IterationBound
    | S fuel' =>
      let new_block := get_free_block st in
      match nth_z (file_data st) new_block with
      | None => Trapped (OutOfBounds FileData new_block)
      | Some buf =>
        let '(buf', bytes, eof) := fread_block input_file offset buf in
        let data' := upd_z (file_data st) new_block buf' in
        if (bytes =? 0) && negb eof then
          Ok (mkFS (directory st) data' (used_space st), CopyReadError)
        else if (counter <? 0) || (MAX_FILE_BLOCKS <=? counter) then
          Trapped (OutOfBounds Blocks counter)
        else
          let dir' :=
            alter (fun e => with_blocks e (upd_z (blocks e) counter new_block))
                  (Z.to_nat file_entry_index) (directory st) in
          put_copy fuel' (mkFS dir' data' (upd_z (used_space st) new_block SET))
                   input_file file_entry_index
                   (copy_size - BLOCK_SIZE) (offset + BLOCK_SIZE) (counter + 1)
      end
    end
  else Ok (st, CopyDone counter).

(** [while (counter < MAX_FILE_BLOCKS) blocks[counter++] = NEGATIVE;] *)
Fixpoint fill_negative (bs : list Z) (counter : Z) (fuel : nat) : list Z :=
  match fuel with
  | O => bs
  | S fuel' =>
      if counter <? MAX_FILE_BLOCKS
      then fill_negative (upd_z bs counter NEGATIVE) (counter + 1) fuel'
      else bs
  end.

(** Lines 226-235: end of a complete copy.  The entry that these lines
    leave in the slot, and the indices that [memcpy] wrote outside
    [file_name]. *)
Definition put_finish (e : Inode) (counter : Z) (name : string)
    (file_size now : Z) : Inode * list Z :=
  let blocks' := fill_negative (blocks e) counter (Z.to_nat MAX_FILE_BLOCKS) in
  let '(file_name', past) :=
    memcpy (file_name e) (list_ascii_of_string name ++ [NUL]) (strlen name + 1) in
  (mkInode SET file_name' file_size now blocks', past).

(** [host] is [stat]/[fopen] on the host, [now] the value of [time(NULL)]. *)
Definition put (st : FS) (arg1 : option string)
    (host : string -> option HostFile) (now : Z) : Outcome (FS * PutMsg) :=
  match arg1 with
  | None => Ok (st, PutNameMissing)
  | Some name =>
    if strlen name >? MAX_FILE_NAME then Ok (st, PutNameTooLong)
    else if negb (regexec_file_name name) then Ok (st, PutInvalidName)
    else
      match host name with
      | None => Ok (st, PutFileNotFound)
      | Some input_file =>
        let file_size := cast_ulong (cast_int (st_size input_file)) in
        if file_size >? MAX_FILE_SIZE then Ok (st, PutTooLarge)
        else
          let available_disk_space := cast_ulong (disk_availability st) in
          if file_size >? available_disk_space then Ok (st, PutNoSpace)
          else
            let file_entry_index := get_new_file_entry st in
            if file_entry_index =? -1 then Ok (st, PutDirFull)
            else
              match put_copy (Z.to_nat MAX_FILE_BLOCKS) st input_file
                             file_entry_index (cast_long file_size) 0 0 with
              | Trapped t => Trapped t
              | Ok (st1, CopyReadError) => Ok (st1, PutReadError)
              | Ok (st1, CopyDone counter) =>
                  match nth_z (directory st1) file_entry_index with
                  | None => Trapped (OutOfBounds Files file_entry_index)
                  | Some e =>
                      let '(e', past) := put_finish e counter name file_size now in
                      Ok (mkFS (upd_z (directory st1) file_entry_index e')
                               (file_data st1) (used_space st1),
                          PutStored past)
                  end
              end
      end
  end.

(** ** [get] (lines 245-291) *)

Inductive GetMsg : Type :=
| GetNameMissing      (* "get error: File name not found" *)
| GetNotFound         (* "get error: File not found" *)
| GetWritten (copy_name : string) (bytes : list byte).
    (* no message: the host file [copy_name] holds [bytes] *)

(** Lines 251-257: no [break], the last match stays in [index]. *)
Fixpoint get_lookup (files : list Inode) (name : string) (counter index : Z) : Z :=
  match files with
  | [] => index
  | e :: rest =>
      get_lookup rest name (counter + 1)
                 (if name_matches e name then counter else index)
  end.

(** The loop of lines 269-288; [out] is the output file so far, every chunk
    is written at [offset], the end of what was written before. *)
Fixpoint get_copy (fuel : nat) (st : FS) (e : Inode)
    (copy_size counter : Z) (out : list byte) : Outcome (list byte) :=
  if copy_size >? 0 then
    match fuel with
    | O => Trapped IterationBound
    | S fuel' =>
      let num_bytes := if copy_size <? BLOCK_SIZE then copy_size else BLOCK_SIZE in
      match nth_z (blocks e) counter with
      | None => Trapped (OutOfBounds Blocks counter)
      | Some block_index =>
        match nth_z (file_data st) block_index with
        | None => Trapped (OutOfBounds FileData block_index)
        | Some buf =>
            get_copy fuel' st e (copy_size - BLOCK_SIZE) (counter + 1)
                     (out ++ take (Z.to_nat num_bytes) buf)
        end
      end
    end
  else Ok out.

Definition get (st : FS) (arg1 arg2 : option string) : Outcome GetMsg :=
  match arg1 with
  | None => Ok GetNameMissing
  | Some name =>
    let index := get_lookup (directory st) name 0 (-1) in
    if index <? 0 then Ok GetNotFound
    else
      match nth_z (directory st) index with
      | None => Trapped (OutOfBounds Files index)
      | Some e =>
        let copy_name := match arg2 with None => name | Some n => n end in
        match get_copy (S (Z.to_nat MAX_FILE_BLOCKS)) st e (cast_long (size e)) 0 [] with
        | Trapped t => Trapped t
        | Ok out => Ok (GetWritten copy_name out)
        end
      end
  end.

(** ** [delete] (lines 298-327) *)

Inductive DelMsg : Type :=
| DelNotFound         (* "del error: File not found." *)
| DelDone.

(** Lines 300-307: the first match, then [break]. *)
Fixpoint delete_lookup (files : list Inode) (name : string) (counter : Z) : Z :=
  match files with
  | [] => -1
  | e :: rest =>
      if name_matches e name then counter
      else delete_lookup rest name (counter + 1)
  end.

(** [directory.files[index].blocks[counter]] *)
Definition block_at (st : FS) (index counter : Z) : option Z :=
  match nth_z (directory st) index with
  | None => None
  | Some e => nth_z (blocks e) counter
  end.

(** The loop of lines 316-322. *)
Fixpoint delete_clear (fuel : nat) (st : FS) (index counter block_num : Z)
  : Outcome FS :=
  if block_num >? -1 then
    match fuel with
    | O => Trapped IterationBound
    | S fuel' =>
      match nth_z (file_data st) block_num with
      | None => Trapped (OutOfBounds FileData block_num)
      | Some buf =>
        let st1 :=
          mkFS (alter (fun e => with_blocks e (upd_z (blocks e) counter UNSET))
                      (Z.to_nat index) (directory st))
               (upd_z (file_data st) block_num (upd_z buf 0 x00))
               (upd_z (used_space st) block_num UNSET) in
        match block_at st1 index (counter + 1) with
        | None => Trapped (OutOfBounds Blocks (counter + 1))
        | Some next => delete_clear fuel' st1 index (counter + 1) next
        end
      end
    end
  else Ok st.

(** Lines 323-326. *)
Definition delete_finish (e : Inode) : Inode :=
  mkInode UNSET (upd_z (file_name e) 0 NUL) 0 0 (blocks e).

Definition delete (st : FS) (file_name : option string) : Outcome (FS * DelMsg) :=
  match file_name with
  | None => Trapped NullArgument
  | Some name =>
    let index := delete_lookup (directory st) name 0 in
    if index <? 0 then Ok (st, DelNotFound)
    else
      match block_at st index 0 with
      | None => Trapped (OutOfBounds Blocks 0)
      | Some block_num =>
        match delete_clear (Z.to_nat MAX_FILE_BLOCKS) st index 0 block_num with
        | Trapped t => Trapped t
        | Ok st1 =>
            Ok (mkFS (alter delete_finish (Z.to_nat index) (directory st1))
                     (file_data st1) (used_space st1),
                DelDone)
        end
      end
  end.

(** * Vocabulary of the properties *)

(** Number of blocks whose [used_space] entry is 0. *)
Fixpoint free_count (us : list Z) : Z :=
  match us with
  | [] => 0
  | u :: rest => (if u =? 0 then 1 else 0) + free_count rest
  end.

(** The bytes of the host file that belong to block number [p] of its copy. *)
Definition chunk_at (bytes : list byte) (p : Z) : list byte :=
  take (Z.to_nat BLOCK_SIZE) (drop (Z.to_nat (BLOCK_SIZE * p)) bytes).

(** Number of turns of a copy loop started with [copy_size]. *)
Definition nblocks (copy_size : Z) : Z :=
  Z.max 0 ((copy_size + (BLOCK_SIZE - 1)) / BLOCK_SIZE).

(** What a complete run of [put_copy] from [counter] to [k] did to the state:
    it took the pairwise different free blocks [bs], in this order, wrote
    them into [blocks[counter .. k-1]] of the entry and marked them [SET];
    block [bs[p]] starts with chunk [counter + p] of the file; nothing else
    changed. *)
Definition copy_post (f : HostFile) (idx counter k : Z) (st st1 : FS) : Prop :=
  exists bs : list Z,
    Z.of_nat (length bs) = k - counter /\
    directory st1 =
      alter (fun e => with_blocks e (take (Z.to_nat counter) (blocks e) ++ bs ++
                                     drop (Z.to_nat k) (blocks e)))
            (Z.to_nat idx) (directory st) /\
    NoDup bs /\
    (forall b, b ∈ bs ->
       nth_z (used_space st) b = Some 0 /\ nth_z (used_space st1) b = Some SET) /\
    (forall b, b ∉ bs ->
       nth_z (used_space st1) b = nth_z (used_space st) b /\
       nth_z (file_data st1) b = nth_z (file_data st) b) /\
    (forall (p : nat) b, bs !! p = Some b ->
       exists blk,
         nth_z (file_data st1) b = Some blk /\
         take (length (chunk_at (hf_bytes f) (counter + Z.of_nat p))) blk =
           chunk_at (hf_bytes f) (counter + Z.of_nat p)).

(** [file_size] of [put]: [(int) buf.st_size] converted to [unsigned long]. *)
Definition declared_size (f : HostFile) : Z := cast_ulong (cast_int (st_size f)).

(** The entry that a complete [put] leaves in its slot, when the copy took
    the blocks [bs]. *)
Definition stored_entry (e : Inode) (name : string) (file_size now : Z)
    (bs : list Z) : Inode :=
  mkInode SET
          (copied (file_name e) (list_ascii_of_string name ++ [NUL]) (strlen name + 1))
          file_size now
          (bs ++ replicate (Z.to_nat MAX_FILE_BLOCKS - length bs) NEGATIVE).

(** Effect of a [put] that ended without message: the slot [i] found by
    [get_new_file_entry] holds the new entry, the blocks [bs] it took were
    free and are now [SET], and block [bs[p]] starts with chunk [p]. *)
Record put_post (st : FS) (name : string) (f : HostFile) (now : Z)
    (st' : FS) (bs : list Z) : Prop := mk_put_post {
  pp_name : regexec_file_name name = true;
  pp_size : declared_size f <= MAX_FILE_SIZE;
  pp_space : declared_size f <= disk_availability st;
  pp_slot : get_new_file_entry st <> -1;
  pp_count : Z.of_nat (length bs) = nblocks (declared_size f);
  pp_dir : exists e,
      nth_z (directory st) (get_new_file_entry st) = Some e /\ used e = 0 /\
      directory st' =
        <[Z.to_nat (get_new_file_entry st) :=
            stored_entry e name (declared_size f) now bs]> (directory st);
  pp_nodup : NoDup bs;
  pp_taken : forall b, b ∈ bs ->
      nth_z (used_space st) b = Some 0 /\ nth_z (used_space st') b = Some SET;
  pp_other : forall b, b ∉ bs ->
      nth_z (used_space st') b = nth_z (used_space st) b /\
      nth_z (file_data st') b = nth_z (file_data st) b;
  pp_data : forall (p : nat) b, bs !! p = Some b ->
      exists blk,
        nth_z (file_data st') b = Some blk /\
        take (length (chunk_at (hf_bytes f) (Z.of_nat p))) blk =
          chunk_at (hf_bytes f) (Z.of_nat p);
  pp_wf : wf st'
}.

(** The block list of an entry as [delete] walks it: the entries in front of
    the first negative one. *)
Fixpoint owned (bs : list Z) : list Z :=
  match bs with
  | [] => []
  | b :: rest => if b >? -1 then b :: owned rest else []
  end.

(** [file_data[block_num][0] = '\0'] *)
Definition clear_first (blk : list byte) : list byte := upd_z blk 0 x00.

(** What a complete run of [delete_clear] from [counter] did, [own] being
    the blocks it walked: their [used_space] entries are [UNSET], the first
    byte of each is 0, their places in the block list hold [UNSET]; the rest
    of the pool and of the block list is as before. *)
Definition clear_post (index counter : Z) (own : list Z) (st st1 : FS) : Prop :=
  directory st1 =
    alter (fun e => with_blocks e (take (Z.to_nat counter) (blocks e) ++
                                   replicate (length own) UNSET ++
                                   drop (Z.to_nat counter + length own) (blocks e)))
          (Z.to_nat index) (directory st) /\
  (forall b, b ∈ own ->
     nth_z (used_space st1) b = Some UNSET /\
     nth_z (file_data st1) b = clear_first <$> nth_z (file_data st) b) /\
  (forall b, b ∉ own ->
     nth_z (used_space st1) b = nth_z (used_space st) b /\
     nth_z (file_data st1) b = nth_z (file_data st) b).

(** The entry that a complete [delete] leaves in the slot of [e]. *)
Definition deleted_entry (e : Inode) : Inode :=
  mkInode UNSET (upd_z (file_name e) 0 NUL) 0 0
          (replicate (length (owned (blocks e))) UNSET ++
           drop (length (owned (blocks e))) (blocks e)).

(** Results of an operation, for stating facts about a run. *)
Definition fs_of {M : Type} (o : Outcome (FS * M)) : FS :=
  match o with Ok (st, _) => st | Trapped _ => init end.

Definition msg_of {M : Type} (o : Outcome (FS * M)) : option M :=
  match o with Ok (_, m) => Some m | Trapped _ => None end.

(** A host with one readable file [name] holding [bytes]. *)
Definition host_file (name : string) (bytes : list byte) (n : string)
  : option HostFile :=
  if String.eqb n name then Some (mkHostFile bytes (fun _ => false)) else None.

(** A host whose file [name] gives an I/O error on the read at [bad]. *)
Definition host_bad_file (name : string) (bytes : list byte) (bad : Z)
    (n : string) : option HostFile :=
  if String.eqb n name then Some (mkHostFile bytes (fun o => o =? bad)) else None.

(** ** Runs used as examples *)

(** [put a] of one byte, [put a] again, [del a], [put a] a third time. *)
Definition dup1 : FS := fs_of (put init (Some "a"%string) (host_file "a" [x01]) 0).
Definition dup2 : FS := fs_of (put dup1 (Some "a"%string) (host_file "a" [x02]) 0).
Definition dup3 : FS := fs_of (delete dup2 (Some "a"%string)).
Definition dup4 : FS := fs_of (put dup3 (Some "a"%string) (host_file "a" [x03]) 0).

(** A pool in which only the last block is free. *)
Definition one_block_left : FS :=
  mkFS (directory init) (file_data init)
       (replicate (Z.to_nat TOTAL_BLOCKS - 1) SET ++ [UNSET]).

(** A valid name of 255 characters. *)
Definition name255 : string := string_of_list_ascii (replicate 255 "a"%char).

(** One file [a] of two bytes, in slot 0 and block 0. *)
Definition one_file : FS :=
  fs_of (put init (Some "a"%string) (host_file "a" [x01; x02]) 0).

(** One file [a] of [MAX_FILE_SIZE] bytes: 48 blocks. *)
Definition full_file : FS :=
  fs_of (put init (Some "a"%string)
             (host_file "a" (replicate (Z.to_nat MAX_FILE_SIZE) x07)) 0).

(** ** Space accounting *)

(** The block numbers held by an entry, if it is used. *)
Definition held (e : Inode) : list Z :=
  if used e =? 0 then [] else owned (blocks e).

(** The block numbers held by the used entries, with repetitions. *)
Definition references (st : FS) : list Z := flat_map held (directory st).

Fixpoint occurrences (b : Z) (l : list Z) : Z :=
  match l with
  | [] => 0
  | x :: rest => (if x =? b then 1 else 0) + occurrences b rest
  end.

(** [used_space[b]] is not 0. *)
Definition in_use (st : FS) (b : Z) : bool :=
  match nth_z (used_space st) b with
  | Some u => negb (u =? 0)
  | None => false
  end.

(** Number of blocks whose [used_space] entry is not 0. *)
Fixpoint used_count (us : list Z) : Z :=
  match us with
  | [] => 0
  | u :: rest => (if u =? 0 then 0 else 1) + used_count rest
  end.

Definition in_use_count (st : FS) : Z := used_count (used_space st).

(** Every block in use is held exactly once by a used entry, every block
    held by a used entry is in use, and the free bytes and the bytes of the
    blocks in use add up to the disk. *)
Definition accounting (st : FS) : Prop :=
  (forall b, 0 <= b < TOTAL_BLOCKS ->
     occurrences b (references st) = if in_use st b then 1 else 0) /\
  (forall b, b ∈ references st -> 0 <= b < TOTAL_BLOCKS) /\
  disk_availability st + BLOCK_SIZE * in_use_count st = TOTAL_BLOCKS * BLOCK_SIZE.

Definition accountingb (st : FS) : bool :=
  forallb (fun n => occurrences (Z.of_nat n) (references st) =?
                    (if in_use st (Z.of_nat n) then 1 else 0))
          (seq 0 (Z.to_nat TOTAL_BLOCKS)) &&
  forallb (fun b => (0 <=? b) && (b <? TOTAL_BLOCKS)) (references st) &&
  (disk_availability st + BLOCK_SIZE * in_use_count st =? TOTAL_BLOCKS * BLOCK_SIZE).

(** [put b] of one byte, then [put a] of two blocks whose second read ends
    in an I/O error. *)
Definition before_error : FS :=
  fs_of (put init (Some "b"%string) (host_file "b" [x01]) 0).
Definition after_error : FS :=
  fs_of (put before_error (Some "a"%string)
             (host_bad_file "a" (replicate 4096 x07) 2048) 0).

(** The states that the operations keep to, as long as no read fails and no
    run leaves an array: declared shape, accounting, and an empty stored name
    in every unused slot. *)
Definition tidy (st : FS) : Prop :=
  wf st /\ accounting st /\
  Forall (fun e => used e = 0 -> stored_name e = ""%string) (directory st).

(** ** Sequences of [put] and [del] commands *)

Inductive Op : Type :=
| OpPut (arg1 : option string) (host : string -> option HostFile) (now : Z)
| OpDel (arg1 : option string).

Inductive Msg : Type :=
| MPut (m : PutMsg)
| MDel (m : DelMsg).

Definition step (st : FS) (op : Op) : Outcome (FS * Msg) :=
  match op with
  | OpPut arg1 host now =>
      match put st arg1 host now with
      | Ok (st', m) => Ok (st', MPut m)
      | Trapped t => Trapped t
      end
  | OpDel arg1 =>
      match delete st arg1 with
      | Ok (st', m) => Ok (st', MDel m)
      | Trapped t => Trapped t
      end
  end.

(** The state after the commands and the messages of each, or the first trap. *)
Fixpoint run (st : FS) (ops : list Op) : Outcome (FS * list Msg) :=
  match ops with
  | [] => Ok (st, [])
  | op :: rest =>
      match step st op with
      | Trapped t => Trapped t
      | Ok (st1, m) =>
          match run st1 rest with
          | Trapped t => Trapped t
          | Ok (st', ms) => Ok (st', m :: ms)
          end
      end
  end.

(** Thirteen files of 48 blocks each, stored one after the other in the
    empty file system: 16 of the 640 blocks are left. *)
Definition sixteen_left : FS :=
  fs_of (run init (replicate 13
           (OpPut (Some "a"%string)
                  (host_file "a" (replicate (Z.to_nat MAX_FILE_SIZE) x07)) 0))).

(** The two commands that lead to [after_error]. *)
Definition error_ops : list Op :=
  [OpPut (Some "b"%string) (host_file "b" [x01]) 0;
   OpPut (Some "a"%string) (host_bad_file "a" (replicate 4096 x07) 2048) 0].

(** * Further vocabulary *)

(** The numbers of the free blocks, in the order of the scan of
    [get_free_block]. *)
Fixpoint free_indices_from (us : list Z) (counter : Z) : list Z :=
  match us with
  | [] => []
  | u :: rest =>
      if u =? 0 then counter :: free_indices_from rest (counter + 1)
      else free_indices_from rest (counter + 1)
  end.

Definition free_indices (st : FS) : list Z := free_indices_from (used_space st) 0.

(** The two kinds of entries that the operations leave in the directory:
    an unused slot, with size 0 and an empty stored name; and a used slot
    ([used = SET]) with a non-empty name, a size up to [MAX_FILE_SIZE],
    valid block numbers in the places of its block list that a copy of that
    size reads, and [NEGATIVE] in the places behind them. *)
Definition entry_ok (e : Inode) : Prop :=
  (used e = UNSET /\ size e = 0 /\ stored_name e = ""%string) \/
  (used e = SET /\ stored_name e <> ""%string /\
   0 <= size e <= MAX_FILE_SIZE /\
   Forall (fun b => 0 <= b < TOTAL_BLOCKS)
          (take (Z.to_nat (nblocks (size e))) (blocks e)) /\
   drop (Z.to_nat (nblocks (size e))) (blocks e) =
     replicate (Z.to_nat MAX_FILE_BLOCKS - Z.to_nat (nblocks (size e))) NEGATIVE).

Definition readable (st : FS) : Prop :=
  wf st /\ Forall entry_ok (directory st).

(** Every [file_name] of the directory holds a terminator: [strcmp] in the
    lookup loops and [printf] in [list] end inside the array. *)
Definition terminated (st : FS) : Prop :=
  Forall (fun e => NUL ∈ file_name e) (directory st).

(** ** [list] (lines 333-356) *)

(** What a line of the listing shows: size, creation time (printed through
    [localtime] and [strftime]) and name. *)
Definition list_line (e : Inode) : Z * Z * string :=
  (size e, time_created e, stored_name e).

(** The lines printed by the loop, one for each slot with [used == SET]. *)
Fixpoint list_from (files : list Inode) : list (Z * Z * string) :=
  match files with
  | [] => []
  | e :: rest =>
      if used e =? SET then list_line e :: list_from rest else list_from rest
  end.

Inductive ListMsg : Type :=
| ListNoFiles         (* "list: No files found." *)
| ListLines (lines : list (Z * Z * string)).

(** [list()]; [list_counter] is the number of lines printed. *)
Definition list_cmd (st : FS) : ListMsg :=
  let lines := list_from (directory st) in
  if Z.of_nat (length lines) <? 1 then ListNoFiles else ListLines lines.

(** * The command line (lines 100-143 and 446-479)

    [main] reads a line into [buffer], leaves out a blank one, cuts the
    newline at the end, has [split_string] store up to three words in
    [shell_args] and hands them to [execute_command].  A buffer is the C
    string that [fgets] left in it; [shell_args] is a list of its declared
    length [ARGS_SUPPORTED], a [NULL] pointer being [None].  A write or read
    of [shell_args] outside the array, and a [strcmp] on a [NULL] pointer,
    end the run. *)

Definition ARGS_SUPPORTED : Z := 3.

Inductive ShellTrap : Type :=
| ArgsOverrun (counter : Z)   (* shell_args[counter] outside the array *)
| NullCommand                 (* strcmp on shell_args[0] == NULL *)
| SplitBound                  (* bound of the loop of split_string reached *)
| InCommand (t : Trap).       (* the command itself left an array *)

Inductive Shell (A : Type) : Type :=
| Done (a : A)
| Stopped (t : ShellTrap).
Arguments Done {A} a.
Arguments Stopped {A} t.

(** [isspace] in the "C" locale: space, \t, \n, \v, \f, \r. *)
Definition isspace (c : ascii) : bool :=
  existsb (Ascii.eqb c) [" "; "009"; "010"; "011"; "012"; "013"]%char.

(** ** [is_empty] (lines 471-479) *)

Fixpoint is_empty (s : string) : bool :=
  match s with
  | EmptyString => true
  | String c rest => if negb (isspace c) then false else is_empty rest
  end.

(** ** [strtok] with the delimiter [TOKENT_SPLR], a space *)

Fixpoint skip_delim (s : string) : string :=
  match s with
  | EmptyString => EmptyString
  | String c rest => if Ascii.eqb c " " then skip_delim rest else s
  end.

(** The token at the front of [s] and the text behind its delimiter. *)
Fixpoint scan_token (s : string) : string * string :=
  match s with
  | EmptyString => (EmptyString, EmptyString)
  | String c rest =>
      if Ascii.eqb c " " then (EmptyString, rest)
      else let (token, saved) := scan_token rest in (String c token, saved)
  end.

(** One call: the token, [None] for [NULL], and the text that the next call
    with a [NULL] first argument goes on with. *)
Definition strtok (s : string) : option string * string :=
  match skip_delim s with
  | EmptyString => (None, EmptyString)
  | t => let (token, saved) := scan_token t in (Some token, saved)
  end.

(** ** [split_string] (lines 446-463) *)

(** [while (token != NULL || counter < ARGS_SUPPORTED)] *)
Fixpoint split_tokens (fuel : nat) (token : option string) (saved : string)
    (counter : Z) (args : list (option string))
    : Shell (Z * list (option string)) :=
  match fuel with
  | O => Stopped SplitBound
  | S fuel' =>
      if bool_decide (token <> None) || (counter <? ARGS_SUPPORTED) then
        if (counter <? 0) || (Z.of_nat (length args) <=? counter)
        then Stopped (ArgsOverrun counter)
        else
          let args1 := upd_z args counter token in
          let (token1, saved1) := strtok saved in
          split_tokens fuel' token1 saved1 (counter + 1) args1
      else Done (counter, args)
  end.

(** [while (counter < ARGS_SUPPORTED) args[counter++] = NULL;] *)
Fixpoint fill_null (args : list (option string)) (counter : Z) (fuel : nat)
    : list (option string) :=
  match fuel with
  | O => args
  | S fuel' =>
      if counter <? ARGS_SUPPORTED
      then fill_null (upd_z args counter None) (counter + 1) fuel'
      else args
  end.

Definition split_string (s : string) (args : list (option string))
    : Shell (list (option string)) :=
  let (token, saved) := strtok s in
  match split_tokens (String.length s + 4) token saved 0 args with
  | Stopped t => Stopped t
  | Done (counter, args1) => Done (fill_null args1 counter (Z.to_nat ARGS_SUPPORTED))
  end.

(** ** [execute_command] (lines 127-143) *)

Inductive Output : Type :=
| OutPut (m : PutMsg)
| OutGet (m : GetMsg)
| OutDel (m : DelMsg)
| OutList (m : ListMsg)
| OutDf (free_size : Z)        (* "<free_size> bytes free." *)
| OutUnknown (cmd : string).   (* "mfs><cmd>: Command not found" *)

(** [shell_args[i]] *)
Definition arg_at (shell_args : list (option string)) (i : Z)
    : Shell (option string) :=
  match nth_z shell_args i with
  | Some a => Done a
  | None => Stopped (ArgsOverrun i)
  end.

Definition execute_command (st : FS) (shell_args : list (option string))
    (host : string -> option HostFile) (now : Z) : Shell (FS * Output) :=
  match arg_at shell_args 0 with
  | Stopped t => Stopped t
  | Done None => Stopped NullCommand
  | Done (Some cmd) =>
    if String.eqb cmd "put" then
      match arg_at shell_args 1 with
      | Stopped t => Stopped t
      | Done arg1 =>
          match put st arg1 host now with
          | Ok (st', m) => Done (st', OutPut m)
          | Trapped t => Stopped (InCommand t)
          end
      end
    else if String.eqb cmd "get" then
      match arg_at shell_args 1, arg_at shell_args 2 with
      | Stopped t, _ => Stopped t
      | _, Stopped t => Stopped t
      | Done arg1, Done arg2 =>
          match get st arg1 arg2 with
          | Ok m => Done (st, OutGet m)
          | Trapped t => Stopped (InCommand t)
          end
      end
    else if String.eqb cmd "del" then
      match arg_at shell_args 1 with
      | Stopped t => Stopped t
      | Done arg1 =>
          match delete st arg1 with
          | Ok (st', m) => Done (st', OutDel m)
          | Trapped t => Stopped (InCommand t)
          end
      end
    else if String.eqb cmd "list" then Done (st, OutList (list_cmd st))
    else if String.eqb cmd "df" then Done (st, OutDf (disk_availability st))
    else Done (st, OutUnknown cmd)
  end.

(** ** [main] (lines 100-119) *)

(** What one turn of the loop reads: the buffer as [fgets] filled it, and the
    host files and the clock at the time of the command. *)
Record Line : Type := mkLine {
  buffer : string;
  line_host : string -> option HostFile;
  line_now : Z
}.

(** [buffer[0] == '\n'] *)
Definition starts_with_newline (s : string) : bool :=
  match s with
  | String c _ => Ascii.eqb c "010"
  | EmptyString => false
  end.

(** [if (buffer[strlen(buffer) - 1] == '\n') buffer[strlen(buffer) - 1] = 0;]
    on a buffer that is not empty. *)
Fixpoint cut_newline (s : string) : string :=
  match s with
  | EmptyString => EmptyString
  | String c EmptyString => if Ascii.eqb c "010" then EmptyString else s
  | String c rest => String c (cut_newline rest)
  end.

(** One turn of the loop of [main]: the state, the content of [shell_args]
    and what the command printed or wrote, if one was run. *)
Definition main_step (st : FS) (shell_args : list (option string)) (l : Line)
    : Shell (FS * list (option string) * option Output) :=
  if starts_with_newline (buffer l) || is_empty (buffer l)
  then Done (st, shell_args, None)
  else
    match split_string (cut_newline (buffer l)) shell_args with
    | Stopped t => Stopped t
    | Done args1 =>
        match execute_command st args1 (line_host l) (line_now l) with
        | Stopped t => Stopped t
        | Done (st', out) => Done (st', args1, Some out)
        end
    end.

(** The loop of [main] over the lines of the input, up to the end of the
    input or the turn at which the run ends. *)
Fixpoint main_loop (st : FS) (shell_args : list (option string))
    (lines : list Line) : Shell (FS * list (option Output)) :=
  match lines with
  | [] => Done (st, [])
  | l :: rest =>
      match main_step st shell_args l with
      | Stopped t => Stopped t
      | Done (st1, args1, out) =>
          match main_loop st1 args1 rest with
          | Stopped t => Stopped t
          | Done (st', outs) => Done (st', out :: outs)
          end
      end
  end.

(** [shell_args] is not initialised when the loop starts. *)
Definition main (shell_args : list (option string)) (lines : list Line)
    : Shell (FS * list (option Output)) :=
  main_loop init shell_args lines.

(** The words of a line: its longest runs of characters other than the
    space, from left to right. *)
Fixpoint words (s : string) : list string :=
  match s with
  | EmptyString => []
  | String c rest =>
      if Ascii.eqb c " " then words rest
      else
        match rest with
        | EmptyString => [String c EmptyString]
        | String d _ =>
            if Ascii.eqb d " " then String c EmptyString :: words rest
            else
              match words rest with
              | w :: ws => String c w :: ws
              | [] => [String c EmptyString]
              end
        end
  end.

(** No word of the line is long enough to fill [file_name]: a name typed on
    the line is stored together with its terminator. *)
Definition short_words (l : Line) : Prop :=
  forallb (fun w => strlen w <=? 254) (words (cut_newline (buffer l))) = true.

(** A session at the prompt; each line ends in a newline. *)
Definition nl : string := String "010" EmptyString.

Definition session_lines : list Line :=
  [mkLine ("put a" ++ nl) (host_file "a" [x01; x02]) 7;
   mkLine ("   " ++ nl) (fun _ => None) 8;
   mkLine ("list" ++ nl) (fun _ => None) 9;
   mkLine ("get a b" ++ nl) (fun _ => None) 10;
   mkLine ("del a" ++ nl) (fun _ => None) 11;
   mkLine ("df" ++ nl) (fun _ => None) 12].

(** * Properties *)

(** ** Arrays *)

Section Arrays.
Context {A : Type}.
Implicit Types (l : list A) (i j : Z) (x : A).

Lemma nth_z_Some l i x :
  nth_z l i = Some x <-> 0 <= i /\ l !! Z.to_nat i = Some x.
Proof.
  unfold nth_z. destruct (Z.ltb_spec i 0); split; intros; try easy; lia.
Qed.

Lemma nth_z_bound l i x : nth_z l i = Some x -> 0 <= i < Z.of_nat (length l).
Proof.
  intros H. apply nth_z_Some in H as [H0 H1].
  apply lookup_lt_Some in H1. lia.
Qed.

Lemma nth_z_in_range l i :
  0 <= i < Z.of_nat (length l) -> exists x, nth_z l i = Some x.
Proof.
  intros H. destruct (lookup_lt_is_Some_2 l (Z.to_nat i)) as [x Hx]; [lia|].
  exists x. apply nth_z_Some. split; [lia | done].
Qed.

Lemma nth_z_None l i :
  nth_z l i = None <-> i < 0 \/ Z.of_nat (length l) <= i.
Proof.
  unfold nth_z. destruct (Z.ltb_spec i 0).
  - split; [intros; lia | done].
  - rewrite lookup_ge_None. lia.
Qed.

Lemma nth_z_of_nat l (n : nat) : nth_z l (Z.of_nat n) = l !! n.
Proof.
  unfold nth_z. destruct (Z.ltb_spec (Z.of_nat n) 0); [lia|].
  by rewrite Nat2Z.id.
Qed.

Lemma length_upd_z l i x : length (upd_z l i x) = length l.
Proof. unfold upd_z. destruct (i <? 0); [done | apply length_insert]. Qed.

Lemma nth_z_upd_eq l i x :
  0 <= i < Z.of_nat (length l) -> nth_z (upd_z l i x) i = Some x.
Proof.
  intros H. unfold nth_z, upd_z. destruct (Z.ltb_spec i 0); [lia|].
  apply list_lookup_insert_eq. lia.
Qed.

Lemma nth_z_upd_ne l i j x : i <> j -> nth_z (upd_z l i x) j = nth_z l j.
Proof.
  intros H. unfold nth_z, upd_z.
  destruct (Z.ltb_spec j 0); [done|].
  destruct (Z.ltb_spec i 0); [done|].
  apply list_lookup_insert_ne. lia.
Qed.

End Arrays.

(** ** Shape *)

Lemma wf_inode_iff e :
  wf_inode e = true <->
  length (file_name e) = 255%nat /\ length (blocks e) = 48%nat.
Proof.
  unfold wf_inode, FILE_NAME_LEN, MAX_FILE_BLOCKS.
  rewrite andb_true_iff, !Z.eqb_eq. lia.
Qed.

Lemma wf_iff st :
  wf st <->
  length (directory st) = 128%nat /\
  Forall (fun e => wf_inode e = true) (directory st) /\
  length (file_data st) = 640%nat /\
  Forall (fun b => length b = 2048%nat) (file_data st) /\
  length (used_space st) = 640%nat.
Proof.
  unfold wf, wfb, DIRECTORY_SIZE, TOTAL_BLOCKS.
  rewrite !andb_true_iff, !Z.eqb_eq, !forallb_forall, !Forall_forall.
  unfold wf_block, BLOCK_SIZE.
  setoid_rewrite Z.eqb_eq.
  setoid_rewrite <- list_elem_of_In.
  split.
  - intros ((((H1 & H2) & H3) & H4) & H5).
    repeat split; try lia; auto. intros b Hb. specialize (H4 b Hb). lia.
  - intros (H1 & H2 & H3 & H4 & H5).
    repeat split; try lia; auto. intros b Hb. specialize (H4 b Hb). lia.
Qed.

Lemma wf_init : wf init.
Proof. vm_compute. reflexivity. Qed.

Lemma wf_entry st i e :
  wf st -> nth_z (directory st) i = Some e ->
  length (file_name e) = 255%nat /\ length (blocks e) = 48%nat.
Proof.
  intros Hwf He. apply wf_iff in Hwf as (_ & Hd & _).
  apply nth_z_Some in He as [_ He].
  rewrite Forall_forall in Hd. apply wf_inode_iff, Hd.
  eapply list_elem_of_lookup_2; eauto.
Qed.

Lemma wf_block_len st b blk :
  wf st -> nth_z (file_data st) b = Some blk -> length blk = 2048%nat.
Proof.
  intros Hwf Hb. apply wf_iff in Hwf as (_ & _ & _ & Hf & _).
  apply nth_z_Some in Hb as [_ Hb].
  rewrite Forall_forall in Hf. apply Hf.
  eapply list_elem_of_lookup_2; eauto.
Qed.

(** ** Free space *)

Lemma free_size_from_count us acc :
  free_size_from us acc = acc + BLOCK_SIZE * free_count us.
Proof.
  revert acc. induction us as [|u us IH]; intros acc; simpl; [lia|].
  rewrite IH. destruct (u =? 0); lia.
Qed.

Lemma free_count_bounds us : 0 <= free_count us <= Z.of_nat (length us).
Proof.
  induction us as [|u us IH]; simpl; [lia|]. destruct (u =? 0); lia.
Qed.

Lemma disk_availability_count st :
  wf st -> disk_availability st = BLOCK_SIZE * free_count (used_space st).
Proof.
  intros Hwf. apply wf_iff in Hwf as (_ & _ & _ & _ & Hu).
  unfold disk_availability. rewrite free_size_from_count.
  pose proof (free_count_bounds (used_space st)) as Hb. rewrite Hu in Hb.
  unfold cast_long, BLOCK_SIZE in *.
  rewrite Z.mod_small; lia.
Qed.

Lemma free_count_insert us (n : nat) v :
  us !! n = Some 0 -> v <> 0 ->
  free_count (<[n := v]> us) = free_count us - 1.
Proof.
  revert n. induction us as [|u us IH]; intros [|n] Hn Hv; simpl in *; try done.
  - injection Hn as ->. simpl. destruct (Z.eqb_spec v 0); lia.
  - rewrite IH by done. lia.
Qed.

Lemma free_block_from_found us c :
  0 < free_count us ->
  exists n : nat,
    free_block_from us c = c + Z.of_nat n /\ us !! n = Some 0 /\
    forall m : nat, (m < n)%nat -> us !! m <> Some 0.
Proof.
  revert c. induction us as [|u us IH]; intros c Hpos; simpl in *; [lia|].
  unfold UNSET. destruct (Z.eqb_spec u 0) as [->|Hu].
  - exists 0%nat. repeat split; [lia | intros; lia].
  - destruct (IH (c + 1)) as (n & Hn & H0 & Hmin); [lia|].
    exists (S n). repeat split; [lia | done |].
    intros [|m] Hm; simpl; [congruence | apply Hmin; lia].
Qed.

Lemma get_free_block_found st :
  0 < free_count (used_space st) ->
  0 <= get_free_block st /\ nth_z (used_space st) (get_free_block st) = Some 0.
Proof.
  intros H. destruct (free_block_from_found _ 0 H) as (n & Hn & H0 & _).
  unfold get_free_block. rewrite Hn, Z.add_0_l.
  split; [lia | by rewrite nth_z_of_nat].
Qed.

(** ** Directory slots *)

Lemma new_file_entry_from_spec files c :
  (new_file_entry_from files c = -1 /\ c >= 0 -> Forall (fun e => used e <> 0) files) /\
  (0 <= c -> new_file_entry_from files c <> -1 ->
   exists n : nat,
     new_file_entry_from files c = c + Z.of_nat n /\
     (exists e, files !! n = Some e /\ used e = 0) /\
     forall (m : nat) e, (m < n)%nat -> files !! m = Some e -> used e <> 0).
Proof.
  revert c. induction files as [|e files IH]; intros c; simpl.
  - split; [constructor | done].
  - destruct (Z.eqb_spec (used e) 0) as [He|He].
    + split; [lia|]. intros Hc _. exists 0%nat.
      repeat split; [lia | eauto | intros; lia].
    + destruct (IH (c + 1)) as [IH1 IH2]. split.
      * intros [H1 H2]. constructor; [done | apply IH1; lia].
      * intros Hc Hne. destruct IH2 as (n & Hn & He' & Hmin); [lia | done |].
        exists (S n). repeat split; [lia | done |].
        intros [|m] e' Hm Hl; simpl in Hl; [congruence | eapply Hmin; eauto; lia].
Qed.

Lemma get_new_file_entry_found st :
  get_new_file_entry st <> -1 ->
  exists e,
    nth_z (directory st) (get_new_file_entry st) = Some e /\ used e = 0 /\
    forall j e', 0 <= j < get_new_file_entry st ->
                 nth_z (directory st) j = Some e' -> used e' <> 0.
Proof.
  intros H. unfold get_new_file_entry in *.
  destruct (new_file_entry_from_spec (directory st) 0) as [_ Hs].
  destruct Hs as (n & Hn & (e & He & Hu) & Hmin); [lia | done |].
  rewrite Hn, Z.add_0_l. exists e. rewrite nth_z_of_nat. repeat split; try done.
  intros j e' Hj He'. apply nth_z_Some in He' as [_ He'].
  eapply (Hmin (Z.to_nat j)); eauto. lia.
Qed.

(** ** The copy loop of [put] *)

Lemma wf_mk dir data us :
  length dir = 128%nat -> Forall (fun e => wf_inode e = true) dir ->
  length data = 640%nat -> Forall (fun b => length b = 2048%nat) data ->
  length us = 640%nat -> wf (mkFS dir data us).
Proof. intros. apply wf_iff. simpl. auto. Qed.

Lemma Forall_upd_z {A} (P : A -> Prop) l i x :
  Forall P l -> P x -> Forall P (upd_z l i x).
Proof.
  intros. unfold upd_z. destruct (i <? 0); [done | by apply Forall_insert].
Qed.

Lemma with_blocks_wf e bs :
  wf_inode e = true -> length bs = length (blocks e) ->
  wf_inode (with_blocks e bs) = true.
Proof.
  rewrite !wf_inode_iff. simpl. intros [H1 H2] H3. split; congruence.
Qed.

Lemma with_blocks_id e : with_blocks e (blocks e) = e.
Proof. by destruct e. Qed.

Lemma nblocks_nonpos c : c <= 0 -> nblocks c = 0.
Proof.
  intros H. unfold nblocks, BLOCK_SIZE.
  assert ((c + (2048 - 1)) / 2048 <= 0); [|lia].
  Z.div_mod_to_equations. lia.
Qed.

Lemma nblocks_pos c : 0 < c -> nblocks c = 1 + nblocks (c - BLOCK_SIZE).
Proof.
  intros H. unfold nblocks, BLOCK_SIZE.
  replace (c + (2048 - 1)) with ((c - 2048 + (2048 - 1)) + 1 * 2048) by lia.
  rewrite Z.div_add by lia.
  assert (0 <= (c - 2048 + (2048 - 1)) / 2048); [|lia].
  Z.div_mod_to_equations. lia.
Qed.

Lemma nblocks_bounds c : 0 <= c -> BLOCK_SIZE * (nblocks c - 1) < c <= BLOCK_SIZE * nblocks c.
Proof.
  intros H. unfold nblocks, BLOCK_SIZE.
  assert (0 <= (c + (2048 - 1)) / 2048) by (Z.div_mod_to_equations; lia).
  rewrite Z.max_r by lia. Z.div_mod_to_equations. lia.
Qed.

Lemma put_copy_eq fuel st f idx copy_size offset counter :
  put_copy fuel st f idx copy_size offset counter =
  if copy_size >? 0 then
    match fuel with
    | O => Trapped IterationBound
    | S fuel' =>
      let new_block := get_free_block st in
      match nth_z (file_data st) new_block with
      | None => Trapped (OutOfBounds FileData new_block)
      | Some buf =>
        let '(buf', bytes, eof) := fread_block f offset buf in
        let data' := upd_z (file_data st) new_block buf' in
        if (bytes =? 0) && negb eof then
          Ok (mkFS (directory st) data' (used_space st), CopyReadError)
        else if (counter <? 0) || (MAX_FILE_BLOCKS <=? counter) then
          Trapped (OutOfBounds Blocks counter)
        else
          let dir' :=
            alter (fun e => with_blocks e (upd_z (blocks e) counter new_block))
                  (Z.to_nat idx) (directory st) in
          put_copy fuel' (mkFS dir' data' (upd_z (used_space st) new_block SET))
                   f idx (copy_size - BLOCK_SIZE) (offset + BLOCK_SIZE) (counter + 1)
      end
    end
  else Ok (st, CopyDone counter).
Proof. destruct fuel; reflexivity. Qed.

Lemma copy_post_refl f idx counter st :
  0 <= counter -> copy_post f idx counter counter st st.
Proof.
  intros Hc. exists [].
  split; [simpl; lia|].
  split.
  { symmetry. apply list_alter_id. intros e. simpl.
    rewrite take_drop. apply with_blocks_id. }
  split; [constructor|].
  split; [intros b Hb; by apply elem_of_nil in Hb|].
  split; [done|].
  intros p b Hp. done.
Qed.

Lemma chunk_length bytes p :
  (length (chunk_at bytes p) <= 2048)%nat.
Proof. unfold chunk_at, BLOCK_SIZE. rewrite length_take. lia. Qed.

Lemma put_copy_spec fuel : forall st f idx copy_size offset counter,
  wf st -> 0 <= idx < DIRECTORY_SIZE -> 0 <= counter ->
  offset = BLOCK_SIZE * counter ->
  copy_size <= BLOCK_SIZE * free_count (used_space st) ->
  copy_size <= BLOCK_SIZE * (MAX_FILE_BLOCKS - counter) ->
  copy_size <= BLOCK_SIZE * Z.of_nat fuel ->
  exists st1 r,
    put_copy fuel st f idx copy_size offset counter = Ok (st1, r) /\ wf st1 /\
    match r with
    | CopyDone k =>
        k = counter + nblocks copy_size /\ copy_post f idx counter k st st1
    | CopyReadError => exists o, hf_ioerr f o = true
    end.
Proof.
  induction fuel as [|fuel IH];
    intros st f idx copy_size offset counter Hwf Hidx Hc Hoff Hfree Hmax Hfuel;
    rewrite put_copy_eq; destruct (Z.gtb_spec copy_size 0) as [Hpos|Hneg];
    try (exists st, (CopyDone counter); repeat split;
         [done | rewrite nblocks_nonpos by lia; lia | by apply copy_post_refl]).
  { unfold BLOCK_SIZE in *. lia. }
  pose proof Hwf as Hwf'. apply wf_iff in Hwf' as (Hd & Hdw & Hfd & Hfw & Hu).
  destruct (get_free_block_found st) as [Hb0 Hus]; [unfold BLOCK_SIZE in *; lia|].
  set (b0 := get_free_block st) in *.
  pose proof (nth_z_bound _ _ _ Hus) as Hb0r.
  destruct (nth_z_in_range (file_data st) b0) as [buf Hbuf]; [lia|].
  pose proof (wf_block_len _ _ _ Hwf Hbuf) as Hbl.
  cbv zeta. rewrite Hbuf. unfold fread_block.
  destruct (hf_ioerr f offset) eqn:Herr.
  - cbv beta iota. change ((0 =? 0) && negb false) with true. cbv iota.
    eexists _, CopyReadError. split; [reflexivity|]. split; [|eauto].
    apply wf_mk; try done.
    + by rewrite length_upd_z.
    + by apply Forall_upd_z.
  - fold (chunk_at (hf_bytes f) counter).
    replace (take (Z.to_nat BLOCK_SIZE) (drop (Z.to_nat offset) (hf_bytes f)))
      with (chunk_at (hf_bytes f) counter) by (unfold chunk_at; by subst offset).
    set (chunk := chunk_at (hf_bytes f) counter).
    pose proof (chunk_length (hf_bytes f) counter) as Hcl. fold chunk in Hcl.
    set (buf' := chunk ++ drop (length chunk) buf).
    assert (length buf' = 2048%nat) as Hbl'.
    { unfold buf'. rewrite length_app, length_drop. lia. }
    cbv beta iota.
    assert (((if Z.of_nat (length chunk) =? BLOCK_SIZE then 1 else 0) =? 0) &&
            negb (Z.of_nat (length chunk) <? BLOCK_SIZE) = false) as ->.
    { unfold BLOCK_SIZE.
      destruct (Z.eqb_spec (Z.of_nat (length chunk)) 2048),
               (Z.ltb_spec (Z.of_nat (length chunk)) 2048); simpl; try done; lia. }
    assert ((counter <? 0) || (MAX_FILE_BLOCKS <=? counter) = false) as ->.
    { unfold MAX_FILE_BLOCKS, BLOCK_SIZE in *.
      destruct (Z.ltb_spec counter 0), (Z.leb_spec 48 counter); simpl; try done; lia. }
    set (g := fun e => with_blocks e (upd_z (blocks e) counter b0)).
    set (st2 := mkFS (alter g (Z.to_nat idx) (directory st))
                     (upd_z (file_data st) b0 buf')
                     (upd_z (used_space st) b0 SET)).
    assert (wf st2) as Hwf2.
    { apply wf_mk.
      - by rewrite length_alter.
      - apply Forall_alter; [done|]. intros e _ He. apply with_blocks_wf; [done|].
        by rewrite length_upd_z.
      - by rewrite length_upd_z.
      - by apply Forall_upd_z.
      - by rewrite length_upd_z. }
    assert (free_count (used_space st2) = free_count (used_space st) - 1) as Hfc.
    { simpl. unfold upd_z. destruct (Z.ltb_spec b0 0); [lia|].
      apply free_count_insert; [by apply nth_z_Some in Hus as [_ ?] | done]. }
    unfold MAX_FILE_BLOCKS in Hmax.
    destruct (IH st2 f idx (copy_size - BLOCK_SIZE) (offset + BLOCK_SIZE) (counter + 1))
      as (st1 & r & Heq & Hwf1 & Hr);
      [ done | done | lia | lia | rewrite Hfc; lia
      | unfold MAX_FILE_BLOCKS; lia | lia | ].
    exists st1, r. split; [done|]. split; [done|].
    destruct r as [k|]; [|done].
    destruct Hr as [Hk (bs & Hlen & Hdir & Hnd & Hin & Hout & Hdata)].
    split; [rewrite (nblocks_pos copy_size) by lia; lia|].
    assert (b0 ∉ bs) as Hb0bs.
    { intros Hin0. destruct (Hin _ Hin0) as [H0 _]. simpl in H0.
      rewrite nth_z_upd_eq in H0 by lia. done. }
    exists (b0 :: bs). repeat split.
    + simpl length. lia.
    + rewrite Hdir. simpl directory. rewrite list_alter_alter_eq.
      apply list_alter_ext; [|done]. intros e He. simpl.
      assert (length (blocks e) = 48%nat) as Hbe.
      { rewrite Forall_forall in Hdw. apply wf_inode_iff, Hdw.
        eapply list_elem_of_lookup_2; eauto. }
      f_equal. unfold upd_z. destruct (Z.ltb_spec counter 0); [lia|].
      replace (Z.to_nat (counter + 1)) with (S (Z.to_nat counter)) by lia.
      unfold MAX_FILE_BLOCKS, BLOCK_SIZE in *.
      erewrite take_S_r by (apply list_lookup_insert_eq; lia).
      rewrite take_insert_ge by lia.
      rewrite drop_insert_lt by (pose proof (nblocks_pos copy_size); lia).
      by rewrite <- app_assoc.
    + apply NoDup_cons. done.
    + apply elem_of_cons in H as [->|Hb]; [done|].
      destruct (Hin _ Hb) as [H0 _]. simpl in H0.
      rewrite nth_z_upd_ne in H0; [done|]. intros ->. done.
    + apply elem_of_cons in H as [->|Hb].
      * destruct (Hout _ Hb0bs) as [-> _]. simpl. apply nth_z_upd_eq. lia.
      * by destruct (Hin _ Hb) as [_ ?].
    + apply not_elem_of_cons in H as [Hne Hb].
      destruct (Hout _ Hb) as [-> _]. simpl. by apply nth_z_upd_ne.
    + apply not_elem_of_cons in H as [Hne Hb].
      destruct (Hout _ Hb) as [_ ->]. simpl. by apply nth_z_upd_ne.
    + intros [|p] b Hp; simpl in Hp.
      * injection Hp as <-. exists buf'. split.
        -- destruct (Hout _ Hb0bs) as [_ ->]. simpl. apply nth_z_upd_eq. lia.
        -- rewrite Z.add_0_r. fold chunk. unfold buf'. apply take_app_length.
      * destruct (Hdata p b Hp) as (blk & Hblk & Htake). exists blk.
        replace (counter + Z.of_nat (S p)) with (counter + 1 + Z.of_nat p) by lia.
        done.
Qed.

(** ** [put] as a whole *)

Lemma fill_negative_spec fuel : forall bs k,
  0 <= k -> (48 - Z.to_nat k <= fuel)%nat -> length bs = 48%nat ->
  fill_negative bs k fuel =
    take (Z.to_nat k) bs ++ replicate (48 - Z.to_nat k) NEGATIVE.
Proof.
  induction fuel as [|fuel IH]; intros bs k Hk Hfuel Hlen; simpl.
  - replace (48 - Z.to_nat k)%nat with 0%nat by lia. simpl.
    rewrite take_ge by lia. by rewrite app_nil_r.
  - unfold MAX_FILE_BLOCKS. destruct (Z.ltb_spec k 48) as [Hlt|Hge].
    + rewrite IH; [|lia|lia|by rewrite length_upd_z].
      unfold upd_z. destruct (Z.ltb_spec k 0); [lia|].
      replace (Z.to_nat (k + 1)) with (S (Z.to_nat k)) by lia.
      erewrite take_S_r by (apply list_lookup_insert_eq; lia).
      rewrite take_insert_ge by lia.
      replace (48 - Z.to_nat k)%nat with (S (48 - S (Z.to_nat k))) by lia.
      simpl. by rewrite <- app_assoc.
    + replace (48 - Z.to_nat k)%nat with 0%nat by lia. simpl.
      rewrite take_ge by lia. by rewrite app_nil_r.
Qed.

Lemma declared_size_small f :
  st_size f <= MAX_FILE_SIZE -> declared_size f = st_size f.
Proof.
  unfold declared_size, cast_ulong, cast_int, MAX_FILE_SIZE, st_size.
  intros H. rewrite (Z.mod_small (_ + _)) by lia. rewrite Z.mod_small; lia.
Qed.

Lemma declared_size_nonneg f : 0 <= declared_size f.
Proof.
  unfold declared_size, cast_ulong. apply Z.mod_pos_bound. lia.
Qed.

Lemma cast_small z : 0 <= z <= 1310720 -> cast_long z = z /\ cast_ulong z = z.
Proof.
  intros H. unfold cast_long, cast_ulong. rewrite !Z.mod_small; lia.
Qed.

Lemma disk_availability_bounds st :
  wf st -> 0 <= disk_availability st <= 1310720.
Proof.
  intros Hwf. rewrite disk_availability_count by done.
  apply wf_iff in Hwf as (_ & _ & _ & _ & Hu).
  pose proof (free_count_bounds (used_space st)). unfold BLOCK_SIZE. lia.
Qed.

Lemma get_new_file_entry_range st :
  wf st -> get_new_file_entry st <> -1 ->
  0 <= get_new_file_entry st < DIRECTORY_SIZE.
Proof.
  intros Hwf Hi. destruct (get_new_file_entry_found st Hi) as (e & He & _).
  apply nth_z_bound in He. apply wf_iff in Hwf as (Hd & _).
  unfold DIRECTORY_SIZE. lia.
Qed.

(** ** [memcpy], byte by byte *)

Lemma memcpy_from_spec n : forall dst past src (k : nat),
  (n <= length src)%nat ->
  memcpy_from dst past src (Z.of_nat k) n =
    (take k dst ++ take (length dst - k) (take n src) ++
     drop (k + length (take (length dst - k) (take n src))) dst,
     past ++ List.filter (fun i => Z.of_nat (length dst) <=? i)
                         (map Z.of_nat (seq k n))).
Proof.
  induction n as [|n IH]; intros dst past src k Hn.
  - cbn [memcpy_from seq map List.filter]. rewrite take_0, take_nil.
    cbn [app length]. by rewrite Nat.add_0_r, take_drop, app_nil_r.
  - destruct src as [|c src]; [simpl in Hn; lia|]. simpl in Hn.
    cbn [memcpy_from].
    destruct (Z.ltb_spec (Z.of_nat k) 0) as [|_]; [lia|]. cbn [orb].
    replace (Z.of_nat k + 1) with (Z.of_nat (S k)) by lia.
    destruct (Z.leb_spec (Z.of_nat (length dst)) (Z.of_nat k)) as [Hout|Hin].
    + rewrite IH by lia.
      replace (length dst - S k)%nat with 0%nat by lia.
      replace (length dst - k)%nat with 0%nat by lia.
      rewrite !take_0. cbn [app length]. rewrite !Nat.add_0_r, !take_drop.
      f_equal. cbn [seq map List.filter].
      destruct (Z.leb_spec (Z.of_nat (length dst)) (Z.of_nat k)); [|lia].
      by rewrite <- app_assoc.
    + assert (upd_z dst (Z.of_nat k) c = <[k := c]> dst) as ->.
      { unfold upd_z. destruct (Z.ltb_spec (Z.of_nat k) 0); [lia|].
        by rewrite Nat2Z.id. }
      rewrite IH by lia. rewrite length_insert.
      replace (length dst - k)%nat with (S (length dst - S k)) by lia.
      cbn [take]. cbn [app length seq map List.filter].
      destruct (Z.leb_spec (Z.of_nat (length dst)) (Z.of_nat k)); [lia|].
      f_equal.
      rewrite (take_S_r _ _ c) by (apply list_lookup_insert_eq; lia).
      rewrite take_insert_ge by lia.
      rewrite drop_insert_lt by lia.
      rewrite <- app_assoc. cbn [app]. by rewrite Nat.add_succ_r.
Qed.

(** The byte loop leaves the closed form in the array and records the
    indices from the end of the array on. *)
Lemma memcpy_spec dst src n :
  (Z.to_nat n <= length src)%nat ->
  memcpy dst src n = (copied dst src n, past_end (Z.of_nat (length dst)) n).
Proof.
  intros Hn. unfold memcpy, copied, past_end.
  pose proof (memcpy_from_spec _ dst [] src 0%nat Hn) as H.
  change (Z.of_nat 0) with 0 in H. rewrite H.
  rewrite take_0, Nat.sub_0_r. cbn [app Nat.add]. done.
Qed.

Lemma put_finish_eq e k name file_size now :
  length (file_name e) = 255%nat ->
  put_finish e k name file_size now =
    (mkInode SET
       (copied (file_name e) (list_ascii_of_string name ++ [NUL]) (strlen name + 1))
       file_size now (fill_negative (blocks e) k (Z.to_nat MAX_FILE_BLOCKS)),
     past_end FILE_NAME_LEN (strlen name + 1)).
Proof.
  intros Hfn. unfold put_finish. rewrite memcpy_spec.
  - by rewrite Hfn.
  - rewrite length_app. simpl. unfold strlen.
    assert (length (list_ascii_of_string name) = String.length name) as ->
      by (induction name as [|c s IH]; simpl; congruence).
    lia.
Qed.

(** What [put] returns, message by message. *)
Lemma put_run st name host now :
  wf st ->
  match put st (Some name) host now with
  | Ok (st', PutStored past) =>
      past = past_end FILE_NAME_LEN (strlen name + 1) /\
      exists f bs, host name = Some f /\ put_post st name f now st' bs
  | Ok (st', PutReadError) =>
      wf st' /\ regexec_file_name name = true /\
      exists f o, host name = Some f /\ hf_ioerr f o = true
  | Ok (st', PutNameMissing) => False
  | Ok (st', PutNameTooLong) => st' = st /\ MAX_FILE_NAME < strlen name
  | Ok (st', PutInvalidName) => st' = st /\ regexec_file_name name = false
  | Ok (st', PutFileNotFound) => st' = st /\ host name = None
  | Ok (st', PutTooLarge) =>
      st' = st /\ exists f, host name = Some f /\ MAX_FILE_SIZE < declared_size f
  | Ok (st', PutNoSpace) =>
      st' = st /\
      exists f, host name = Some f /\ disk_availability st < declared_size f
  | Ok (st', PutDirFull) => st' = st /\ get_new_file_entry st = -1
  | Trapped _ => False
  end.
Proof.
  intros Hwf. unfold put.
  destruct (Z.gtb_spec (strlen name) MAX_FILE_NAME) as [Hlong|Hlen]; [done|].
  destruct (regexec_file_name name) eqn:Hre; simpl negb; cbv iota; [|done].
  destruct (host name) as [f|] eqn:Hf; [|done].
  fold (declared_size f).
  destruct (Z.gtb_spec (declared_size f) MAX_FILE_SIZE) as [Hbig|Hsz]; [eauto|].
  pose proof (disk_availability_bounds st Hwf) as Hda.
  destruct (cast_small _ Hda) as [_ ->].
  destruct (Z.gtb_spec (declared_size f) (disk_availability st)) as [Hfull|Hsp];
    [eauto|].
  destruct (Z.eqb_spec (get_new_file_entry st) (-1)) as [Hnone|Hslot]; [done|].
  pose proof (declared_size_nonneg f) as Hnn.
  assert (cast_long (declared_size f) = declared_size f) as ->.
  { apply cast_small. unfold MAX_FILE_SIZE in *. lia. }
  pose proof (get_new_file_entry_range st Hwf Hslot) as Hrange.
  set (i := get_new_file_entry st) in *.
  destruct (put_copy_spec (Z.to_nat MAX_FILE_BLOCKS) st f i (declared_size f) 0 0)
    as (st1 & r & Heq & Hwf1 & Hr); try done.
  { rewrite <- disk_availability_count by done. lia. }
  rewrite Heq. destruct r as [k|].
  2: { destruct Hr as [o Ho]. eauto 10. }
  destruct Hr as [Hk (bs & Hlen' & Hdir & Hnd & Hin & Hout & Hdata)].
  rewrite Z.add_0_l in Hk. rewrite Z.sub_0_r in Hlen'.
  destruct (get_new_file_entry_found st Hslot) as (e & He & Hue & _). fold i in He.
  pose proof (wf_entry _ _ _ Hwf He) as [Hfn Hbl].
  set (e1 := with_blocks e (take (Z.to_nat 0) (blocks e) ++ bs ++
                            drop (Z.to_nat k) (blocks e))).
  assert (nth_z (directory st1) i = Some e1) as He1.
  { apply nth_z_Some. split; [lia|]. rewrite Hdir, list_lookup_alter_eq.
    apply nth_z_Some in He as [_ ->]. done. }
  rewrite He1, (put_finish_eq e1) by done.
  split; [done|]. exists f, bs. split; [done|].
  assert (k <= 48) as Hk48.
  { subst k. pose proof (nblocks_bounds (declared_size f) Hnn).
    unfold MAX_FILE_SIZE, BLOCK_SIZE in *. lia. }
  set (E := mkInode SET
              (copied (file_name e1) (list_ascii_of_string name ++ [NUL])
                      (strlen name + 1))
              (declared_size f) now
              (fill_negative (blocks e1) k (Z.to_nat MAX_FILE_BLOCKS))).
  assert (E = stored_entry e name (declared_size f) now bs) as HE.
  { unfold E, e1, stored_entry, with_blocks.
    cbn [blocks file_name]. f_equal.
    rewrite fill_negative_spec.
    - change (Z.to_nat 0) with 0%nat. rewrite take_0. simpl app.
      rewrite take_app_length' by lia.
      change (Z.to_nat MAX_FILE_BLOCKS) with 48%nat.
      do 2 f_equal. lia.
    - lia.
    - unfold MAX_FILE_BLOCKS. lia.
    - change (Z.to_nat 0) with 0%nat. rewrite take_0. simpl app.
      rewrite length_app, length_drop. lia. }
  assert (directory
            (mkFS (upd_z (directory st1) i E) (file_data st1) (used_space st1)) =
          <[Z.to_nat i := stored_entry e name (declared_size f) now bs]> (directory st))
    as Hdir'.
  { simpl directory. unfold upd_z. destruct (Z.ltb_spec i 0); [lia|].
    rewrite Hdir, HE, !list_insert_alter, list_alter_alter_eq.
    by apply list_alter_ext. }
  constructor; try done.
  - congruence.
  - exists e. done.
  - pose proof (wf_entry _ _ _ Hwf1 He1) as [Hfn1 Hbl1].
    apply wf_iff in Hwf1 as (Hd1 & Hdw1 & Hfd1 & Hfw1 & Hu1).
    apply wf_mk; try done.
    + by rewrite length_upd_z.
    + apply Forall_upd_z; [done|].
      apply wf_inode_iff. unfold E. cbn [blocks file_name]. split.
      * unfold copied. rewrite length_app, length_drop, !length_take. lia.
      * rewrite fill_negative_spec by (unfold MAX_FILE_BLOCKS; lia).
        rewrite length_app, length_take, length_replicate. lia.
Qed.

Lemma regexec_length name :
  regexec_file_name name = true -> 1 <= strlen name <= 255.
Proof.
  unfold regexec_file_name. rewrite !andb_true_iff, !Z.leb_le. lia.
Qed.

Lemma put_never_trapped st arg1 host now :
  wf st -> exists st' m, put st arg1 host now = Ok (st', m).
Proof.
  intros Hwf. destruct arg1 as [name|]; [|by eexists _, _].
  pose proof (put_run st name host now Hwf) as H.
  destruct (put st (Some name) host now) as [[st' m]|t]; [eauto | done].
Qed.

(** Nothing but the listed checks can keep [put] from storing the file. *)
Lemma put_succeeds st name f host now :
  wf st -> regexec_file_name name = true -> host name = Some f ->
  declared_size f <= MAX_FILE_SIZE ->
  declared_size f <= disk_availability st ->
  get_new_file_entry st <> -1 ->
  (forall o, hf_ioerr f o = false) ->
  exists st' bs,
    put st (Some name) host now =
      Ok (st', PutStored (past_end FILE_NAME_LEN (strlen name + 1))) /\
    put_post st name f now st' bs.
Proof.
  intros Hwf Hre Hf Hsz Hsp Hslot Herr.
  pose proof (put_run st name host now Hwf) as H.
  pose proof (regexec_length name Hre) as Hlen.
  destruct (put st (Some name) host now) as [[st' m]|t]; [|done].
  destruct m; try done.
  - destruct H as [_ H]. unfold MAX_FILE_NAME in H. lia.
  - destruct H as [_ H]. congruence.
  - destruct H as [_ H]. congruence.
  - destruct H as [_ (f' & Hf' & H)]. rewrite Hf in Hf'. injection Hf' as <-. lia.
  - destruct H as [_ (f' & Hf' & H)]. rewrite Hf in Hf'. injection Hf' as <-. lia.
  - destruct H as [_ H]. done.
  - destruct H as (_ & _ & f' & o & Hf' & H).
    rewrite Hf in Hf'. injection Hf' as <-. rewrite Herr in H. done.
  - destruct H as [-> (f' & bs & Hf' & H)].
    rewrite Hf in Hf'. injection Hf' as <-. eauto.
Qed.

(** ** Stored names *)

Lemma c_str_no_nul l : NUL ∉ l -> c_str l = l.
Proof.
  induction l as [|c l IH]; intros Hn; simpl; [done|].
  apply not_elem_of_cons in Hn as [Hc Hl].
  destruct (Ascii.eqb_spec c NUL); [congruence|]. by rewrite IH.
Qed.

Lemma c_str_app_nul l r : NUL ∉ l -> c_str (l ++ NUL :: r) = l.
Proof.
  induction l as [|c l IH]; intros Hn; simpl; [done|].
  apply not_elem_of_cons in Hn as [Hc Hl].
  destruct (Ascii.eqb_spec c NUL); [congruence|]. by rewrite IH.
Qed.

Lemma regexec_no_nul name :
  regexec_file_name name = true -> NUL ∉ list_ascii_of_string name.
Proof.
  unfold regexec_file_name. rewrite !andb_true_iff. intros [_ H] Hin.
  rewrite forallb_forall in H. apply list_elem_of_In, H in Hin. done.
Qed.

Lemma length_chars name :
  Z.of_nat (length (list_ascii_of_string name)) = strlen name.
Proof.
  unfold strlen. f_equal. induction name as [|c s IH]; simpl; congruence.
Qed.

Lemma stored_name_put e name file_size now bs :
  length (file_name e) = 255%nat -> regexec_file_name name = true ->
  stored_name (stored_entry e name file_size now bs) = name.
Proof.
  intros Hfn Hre. pose proof (regexec_length _ Hre) as Hlen.
  pose proof (regexec_no_nul _ Hre) as Hnul.
  pose proof (length_chars name) as Hch.
  unfold stored_name, stored_entry. cbn [file_name]. unfold copied.
  set (cs := list_ascii_of_string name) in *.
  rewrite (take_ge (cs ++ [NUL])) by (rewrite length_app; simpl; lia).
  rewrite Hfn.
  assert (c_str (take 255 (cs ++ [NUL]) ++
                 drop (length (take 255 (cs ++ [NUL]))) (file_name e)) = cs)
    as ->; [|apply string_of_list_ascii_of_string].
  destruct (decide (strlen name = 255)) as [H255|Hlt].
  - rewrite take_app_length' by lia.
    rewrite drop_ge by lia. rewrite app_nil_r. by apply c_str_no_nul.
  - rewrite take_ge by (rewrite length_app; simpl; lia).
    rewrite <- app_assoc. simpl. by apply c_str_app_nul.
Qed.

(** ** Name lookup *)

Lemma get_lookup_none files name c idx :
  Forall (fun e => name_matches e name = false) files ->
  get_lookup files name c idx = idx.
Proof.
  intros H. revert c idx. induction H as [|e files He _ IH]; intros c idx; simpl.
  - done.
  - rewrite He. apply IH.
Qed.

Lemma get_lookup_last files name : forall c idx (n : nat) e,
  files !! n = Some e -> name_matches e name = true ->
  (forall (m : nat) e', (n < m)%nat -> files !! m = Some e' ->
                        name_matches e' name = false) ->
  get_lookup files name c idx = c + Z.of_nat n.
Proof.
  induction files as [|e0 files IH]; intros c idx n e Hn He Hlast; [done|].
  destruct n as [|n]; simpl in *.
  - injection Hn as ->. rewrite He, get_lookup_none; [lia|].
    apply Forall_lookup. intros m e' Hm. apply (Hlast (S m)); [lia | done].
  - erewrite IH; eauto; [lia|].
    intros m e' Hm Hl. apply (Hlast (S m)); [lia | done].
Qed.

Lemma delete_lookup_none files name c :
  Forall (fun e => name_matches e name = false) files ->
  delete_lookup files name c = -1.
Proof.
  intros H. revert c. induction H as [|e files He _ IH]; intros c; simpl.
  - done.
  - rewrite He. apply IH.
Qed.

Lemma delete_lookup_first files name : forall c (n : nat) e,
  files !! n = Some e -> name_matches e name = true ->
  (forall (m : nat) e', (m < n)%nat -> files !! m = Some e' ->
                        name_matches e' name = false) ->
  delete_lookup files name c = c + Z.of_nat n.
Proof.
  induction files as [|e0 files IH]; intros c n e Hn He Hfirst; [done|].
  destruct n as [|n]; simpl in *.
  - injection Hn as ->. rewrite He. lia.
  - rewrite (Hfirst 0%nat e0) by (done || lia).
    erewrite IH; eauto; [lia|].
    intros m e' Hm Hl. apply (Hfirst (S m)); [lia | done].
Qed.

Lemma name_matches_iff e name :
  name_matches e name = true <-> stored_name e = name.
Proof. apply String.eqb_eq. Qed.

Lemma name_matches_false e name :
  name_matches e name = false <-> stored_name e <> name.
Proof. apply String.eqb_neq. Qed.

(** ** The copy loop of [get] *)

Lemma get_copy_eq fuel st e copy_size counter out :
  get_copy fuel st e copy_size counter out =
  if copy_size >? 0 then
    match fuel with
    | O => Trapped IterationBound
    | S fuel' =>
      let num_bytes := if copy_size <? BLOCK_SIZE then copy_size else BLOCK_SIZE in
      match nth_z (blocks e) counter with
      | None => Trapped (OutOfBounds Blocks counter)
      | Some block_index =>
        match nth_z (file_data st) block_index with
        | None => Trapped (OutOfBounds FileData block_index)
        | Some buf =>
            get_copy fuel' st e (copy_size - BLOCK_SIZE) (counter + 1)
                     (out ++ take (Z.to_nat num_bytes) buf)
        end
      end
    end
  else Ok out.
Proof. destruct fuel; reflexivity. Qed.

Lemma chunk_at_length bytes p :
  0 <= p ->
  Z.of_nat (length (chunk_at bytes p)) =
    Z.max 0 (Z.min BLOCK_SIZE (Z.of_nat (length bytes) - BLOCK_SIZE * p)).
Proof.
  intros Hp. unfold chunk_at, BLOCK_SIZE. rewrite length_take, length_drop. lia.
Qed.

Lemma get_copy_spec bytes bs st e fuel : forall copy_size counter out,
  (forall (p : nat) b, bs !! p = Some b ->
     blocks e !! p = Some b /\
     exists blk,
       nth_z (file_data st) b = Some blk /\
       take (length (chunk_at bytes (Z.of_nat p))) blk = chunk_at bytes (Z.of_nat p)) ->
  Z.of_nat (length bs) = nblocks (Z.of_nat (length bytes)) ->
  0 <= counter ->
  copy_size = Z.of_nat (length bytes) - BLOCK_SIZE * counter ->
  out = take (Z.to_nat (BLOCK_SIZE * counter)) bytes ->
  copy_size <= BLOCK_SIZE * Z.of_nat fuel ->
  get_copy fuel st e copy_size counter out = Ok bytes.
Proof.
  induction fuel as [|fuel IH]; intros copy_size counter out Hbs Hn Hc Hcs Hout Hfuel;
    rewrite get_copy_eq; destruct (Z.gtb_spec copy_size 0) as [Hpos|Hneg];
    try (subst out; rewrite take_ge by (unfold BLOCK_SIZE in *; lia); done).
  { unfold BLOCK_SIZE in *. lia. }
  cbv zeta.
  pose proof (nblocks_bounds (Z.of_nat (length bytes)) ltac:(lia)) as Hnb.
  assert (Z.to_nat counter < length bs)%nat as Hlt.
  { unfold BLOCK_SIZE in *. lia. }
  destruct (lookup_lt_is_Some_2 bs (Z.to_nat counter) Hlt) as [b Hb].
  destruct (Hbs _ _ Hb) as [Hblk (blk & Hdata & Htake)].
  rewrite Z2Nat.id in Htake by lia.
  assert (nth_z (blocks e) counter = Some b) as ->.
  { apply nth_z_Some. split; [lia | done]. }
  rewrite Hdata.
  assert (take (Z.to_nat (if copy_size <? BLOCK_SIZE then copy_size else BLOCK_SIZE)) blk
          = chunk_at bytes counter) as ->.
  { rewrite <- Htake. f_equal.
    pose proof (chunk_at_length bytes counter Hc) as Hl.
    destruct (Z.ltb_spec copy_size BLOCK_SIZE); unfold BLOCK_SIZE in *; lia. }
  apply IH; try done; try (unfold BLOCK_SIZE in *; lia).
  subst out. unfold chunk_at. rewrite take_take_drop. f_equal.
  unfold BLOCK_SIZE. lia.
Qed.

(** ** The clearing loop of [delete] *)

Lemma delete_clear_eq fuel st index counter block_num :
  delete_clear fuel st index counter block_num =
  if block_num >? -1 then
    match fuel with
    | O => Trapped IterationBound
    | S fuel' =>
      match nth_z (file_data st) block_num with
      | None => Trapped (OutOfBounds FileData block_num)
      | Some buf =>
        let st1 :=
          mkFS (alter (fun e => with_blocks e (upd_z (blocks e) counter UNSET))
                      (Z.to_nat index) (directory st))
               (upd_z (file_data st) block_num (upd_z buf 0 x00))
               (upd_z (used_space st) block_num UNSET) in
        match block_at st1 index (counter + 1) with
        | None => Trapped (OutOfBounds Blocks (counter + 1))
        | Some next => delete_clear fuel' st1 index (counter + 1) next
        end
      end
    end
  else Ok st.
Proof. destruct fuel; reflexivity. Qed.

Lemma nth_z_alter_eq {A} (g : A -> A) l i e :
  nth_z l i = Some e -> nth_z (alter g (Z.to_nat i) l) i = Some (g e).
Proof.
  intros H. apply nth_z_Some in H as [H0 H]. apply nth_z_Some. split; [done|].
  by rewrite list_lookup_alter_eq, H.
Qed.

Lemma owned_drop bs (c : nat) b :
  bs !! c = Some b ->
  owned (drop c bs) = if b >? -1 then b :: owned (drop (S c) bs) else [].
Proof. intros H. by rewrite (drop_S _ _ _ H). Qed.

Lemma owned_length bs : (length (owned bs) <= length bs)%nat.
Proof.
  induction bs as [|b bs IH]; simpl; [lia|]. destruct (b >? -1); simpl; lia.
Qed.

Lemma clear_first_idem blk : clear_first (clear_first blk) = clear_first blk.
Proof.
  unfold clear_first, upd_z. simpl. apply list_insert_insert_eq.
Qed.

Lemma delete_clear_spec fuel : forall st index counter block_num e,
  wf st -> nth_z (directory st) index = Some e -> 0 <= counter ->
  nth_z (blocks e) counter = Some block_num ->
  (forall b, b ∈ owned (drop (Z.to_nat counter) (blocks e)) -> b < TOTAL_BLOCKS) ->
  (48 - Z.to_nat counter <= fuel)%nat ->
  let own := owned (drop (Z.to_nat counter) (blocks e)) in
  (counter + Z.of_nat (length own) < 48 ->
   exists st1,
     delete_clear fuel st index counter block_num = Ok st1 /\ wf st1 /\
     clear_post index counter own st st1) /\
  (counter + Z.of_nat (length own) = 48 ->
   delete_clear fuel st index counter block_num = Trapped (OutOfBounds Blocks 48)).
Proof.
  induction fuel as [|fuel IH];
    intros st index counter block_num e Hwf He Hc Hbn Hown Hfuel own.
  { pose proof (wf_entry _ _ _ Hwf He) as [_ Hbl].
    apply nth_z_bound in Hbn. lia. }
  pose proof (wf_entry _ _ _ Hwf He) as [_ Hbl].
  pose proof (nth_z_bound _ _ _ Hbn) as Hcr.
  pose proof Hbn as Hbn'. apply nth_z_Some in Hbn' as [_ Hbn'].
  pose proof (owned_drop _ _ _ Hbn') as Hod.
  rewrite delete_clear_eq.
  subst own. rewrite Hod in *. clear Hod.
  destruct (Z.gtb_spec block_num (-1)) as [Hpos|Hneg].
  2: { simpl length. split; [|lia]. intros _. exists st.
       split; [done|]. split; [done|]. split; [|split].
       - simpl. rewrite Nat.add_0_r. symmetry. apply list_alter_id. intros e0.
         rewrite take_drop. apply with_blocks_id.
       - intros b Hb. by apply elem_of_nil in Hb.
       - done. }
  set (own' := owned (drop (S (Z.to_nat counter)) (blocks e))) in *.
  pose proof (Hown block_num ltac:(left)) as Hbr.
  pose proof Hwf as Hwf'. apply wf_iff in Hwf' as (Hd & Hdw & Hfd & Hfw & Hu).
  destruct (nth_z_in_range (file_data st) block_num) as [buf Hbuf];
    [unfold TOTAL_BLOCKS in *; lia|].
  rewrite Hbuf. cbv zeta.
  set (g := fun e0 => with_blocks e0 (upd_z (blocks e0) counter UNSET)).
  set (st2 := mkFS (alter g (Z.to_nat index) (directory st))
                   (upd_z (file_data st) block_num (upd_z buf 0 x00))
                   (upd_z (used_space st) block_num UNSET)).
  assert (wf st2) as Hwf2.
  { apply wf_mk.
    - by rewrite length_alter.
    - apply Forall_alter; [done|]. intros e0 _ He0. apply with_blocks_wf; [done|].
      by rewrite length_upd_z.
    - by rewrite length_upd_z.
    - apply Forall_upd_z; [done|]. rewrite length_upd_z.
      eapply wf_block_len; eauto.
    - by rewrite length_upd_z. }
  assert (nth_z (directory st2) index = Some (g e)) as He2.
  { simpl. by apply nth_z_alter_eq. }
  assert (block_at st2 index (counter + 1) = nth_z (blocks e) (counter + 1)) as ->.
  { unfold block_at. rewrite He2. unfold g. cbn [blocks with_blocks].
    apply nth_z_upd_ne. lia. }
  simpl length.
  destruct (decide (counter + 1 = 48)) as [H48|H48].
  - (* blocks[48] *)
    assert (nth_z (blocks e) (counter + 1) = None) as ->.
    { apply nth_z_None. lia. }
    rewrite H48.
    assert (length own' = 0%nat) as Hl0.
    { pose proof (owned_length (drop (S (Z.to_nat counter)) (blocks e))) as Hl.
      rewrite length_drop in Hl. fold own' in Hl. lia. }
    split; [lia | done].
  - destruct (nth_z_in_range (blocks e) (counter + 1)) as [next Hnext]; [lia|].
    rewrite Hnext.
    assert (drop (Z.to_nat (counter + 1)) (blocks (g e)) =
            drop (S (Z.to_nat counter)) (blocks e)) as Hdrop.
    { unfold g. cbn [blocks with_blocks]. unfold upd_z.
      destruct (Z.ltb_spec counter 0); [lia|].
      replace (Z.to_nat (counter + 1)) with (S (Z.to_nat counter)) by lia.
      apply drop_insert_lt. lia. }
    destruct (IH st2 index (counter + 1) next (g e)) as [IHok IHtrap];
      [ done | done | lia
      | unfold g; cbn [blocks with_blocks]; by rewrite nth_z_upd_ne by lia
      | rewrite Hdrop; intros b Hb; apply Hown; by right
      | lia | ].
    rewrite Hdrop in IHok, IHtrap. fold own' in IHok, IHtrap.
    split; [|intros Heq; apply IHtrap; lia].
    intros Hlt. destruct IHok as (st1 & Heq & Hwf1 & Hdir & Hin & Hout); [lia|].
    exists st1. split; [done|]. split; [done|].
    split; [|split].
    + rewrite Hdir. simpl directory. rewrite list_alter_alter_eq.
      apply list_alter_ext; [|done]. intros e0 He0.
      apply nth_z_Some in He as [_ He]. rewrite He in He0. injection He0 as <-.
      unfold compose, g, with_blocks. cbn [blocks used file_name size time_created].
      f_equal. unfold upd_z. destruct (Z.ltb_spec counter 0); [lia|].
      replace (Z.to_nat (counter + 1)) with (S (Z.to_nat counter)) by lia.
      erewrite take_S_r by (apply list_lookup_insert_eq; lia).
      rewrite take_insert_ge by lia.
      rewrite drop_insert_lt by lia.
      rewrite <- app_assoc. simpl.
      by replace (Z.to_nat counter + S (length own'))%nat
        with (S (Z.to_nat counter + length own')) by lia.
    + intros b Hb. destruct (decide (b ∈ own')) as [Hb'|Hb'].
      * destruct (Hin _ Hb') as [Hus Hfd']. split; [done|].
        rewrite Hfd'. simpl. destruct (decide (b = block_num)) as [->|Hne].
        -- rewrite nth_z_upd_eq by (unfold TOTAL_BLOCKS in *; lia).
           rewrite Hbuf. simpl. f_equal. apply clear_first_idem.
        -- by rewrite nth_z_upd_ne.
      * apply elem_of_cons in Hb as [->|Hb]; [|done].
        destruct (Hout _ Hb') as [-> ->]. simpl.
        rewrite !nth_z_upd_eq by (unfold TOTAL_BLOCKS in *; lia).
        by rewrite Hbuf.
    + intros b Hb. apply not_elem_of_cons in Hb as [Hne Hb'].
      destruct (Hout _ Hb') as [-> ->]. simpl.
      by rewrite !nth_z_upd_ne.
Qed.

(** ** [delete] as a whole *)

Lemma delete_run st name index e :
  wf st ->
  nth_z (directory st) index = Some e -> stored_name e = name ->
  (forall j e', 0 <= j < index -> nth_z (directory st) j = Some e' ->
                stored_name e' <> name) ->
  (forall b, b ∈ owned (blocks e) -> b < TOTAL_BLOCKS) ->
  ((length (owned (blocks e)) < 48)%nat ->
   exists st',
     delete st (Some name) = Ok (st', DelDone) /\ wf st' /\
     directory st' = <[Z.to_nat index := deleted_entry e]> (directory st) /\
     (forall b, b ∈ owned (blocks e) ->
        nth_z (used_space st') b = Some UNSET /\
        nth_z (file_data st') b = clear_first <$> nth_z (file_data st) b) /\
     (forall b, b ∉ owned (blocks e) ->
        nth_z (used_space st') b = nth_z (used_space st) b /\
        nth_z (file_data st') b = nth_z (file_data st) b)) /\
  ((length (owned (blocks e)) = 48)%nat ->
   delete st (Some name) = Trapped (OutOfBounds Blocks 48)).
Proof.
  intros Hwf He Hname Hfirst Hown.
  pose proof (nth_z_bound _ _ _ He) as Hir.
  pose proof (wf_entry _ _ _ Hwf He) as [Hfn Hbl].
  pose proof He as He'. apply nth_z_Some in He' as [_ He'].
  assert (delete_lookup (directory st) name 0 = index) as Hlook.
  { erewrite delete_lookup_first; eauto.
    - lia.
    - by apply name_matches_iff.
    - intros m e' Hm Hl. apply name_matches_false.
      apply (Hfirst (Z.of_nat m)); [lia | by rewrite nth_z_of_nat]. }
  unfold delete. rewrite Hlook.
  destruct (Z.ltb_spec index 0); [lia|].
  destruct (nth_z_in_range (blocks e) 0) as [b0 Hb0]; [lia|].
  unfold block_at. rewrite He, Hb0.
  destruct (delete_clear_spec (Z.to_nat MAX_FILE_BLOCKS) st index 0 b0 e)
    as [Hok Htrap]; try done.
  change (Z.to_nat 0) with 0%nat in Hok, Htrap. rewrite drop_0 in Hok, Htrap.
  split.
  - intros Hlt. destruct Hok as (st1 & -> & Hwf1 & Hdir & Hin & Hout); [lia|].
    eexists. split; [reflexivity|].
    assert (directory
              (mkFS (alter delete_finish (Z.to_nat index) (directory st1))
                    (file_data st1) (used_space st1)) =
            <[Z.to_nat index := deleted_entry e]> (directory st)) as Hdir'.
    { simpl directory. rewrite Hdir, list_alter_alter_eq, list_insert_alter.
      apply list_alter_ext; [|done]. intros e0 He0.
      rewrite He' in He0. injection He0 as <-.
      unfold compose, delete_finish, deleted_entry, with_blocks.
      cbn [blocks file_name]. by rewrite take_0. }
    split; [|done].
    apply wf_iff in Hwf1 as (Hd1 & Hdw1 & Hfd1 & Hfw1 & Hu1).
    apply wf_mk; try done.
    + by rewrite length_alter.
    + apply Forall_alter; [done|]. intros e0 _ He0wf.
      apply wf_inode_iff in He0wf as [Ha Hb]. apply wf_inode_iff.
      unfold delete_finish. cbn [blocks file_name].
      by rewrite length_upd_z.
  - intros Heq. rewrite Htrap; [done | lia].
Qed.

(** ** [get] as a whole *)

Lemma get_run st name arg2 index e :
  nth_z (directory st) index = Some e -> stored_name e = name ->
  (forall j e', index < j -> nth_z (directory st) j = Some e' ->
                stored_name e' <> name) ->
  get st (Some name) arg2 =
    match get_copy (S (Z.to_nat MAX_FILE_BLOCKS)) st e (cast_long (size e)) 0 [] with
    | Trapped t => Trapped t
    | Ok out => Ok (GetWritten (match arg2 with None => name | Some n => n end) out)
    end.
Proof.
  intros He Hname Hlast.
  pose proof (nth_z_bound _ _ _ He) as Hir.
  pose proof He as He'. apply nth_z_Some in He' as [_ He'].
  assert (get_lookup (directory st) name 0 (-1) = index) as Hlook.
  { erewrite get_lookup_last; eauto.
    - lia.
    - by apply name_matches_iff.
    - intros m e' Hm Hl. apply name_matches_false.
      apply (Hlast (Z.of_nat m)); [lia | by rewrite nth_z_of_nat]. }
  unfold get. rewrite Hlook.
  destruct (Z.ltb_spec index 0); [lia|]. by rewrite He.
Qed.

Lemma outcome_fs_msg {M : Type} (o : Outcome (FS * M)) (m : M) :
  msg_of o = Some m -> o = Ok (fs_of o, m).
Proof. destruct o as [[s m']|t]; simpl; congruence. Qed.

(** The entry written by a complete [put], and where it is. *)
Lemma put_post_entry st name f now st' bs :
  wf st -> put_post st name f now st' bs ->
  exists e,
    nth_z (directory st) (get_new_file_entry st) = Some e /\ used e = 0 /\
    nth_z (directory st') (get_new_file_entry st) =
      Some (stored_entry e name (declared_size f) now bs) /\
    stored_name (stored_entry e name (declared_size f) now bs) = name /\
    (forall j, j <> get_new_file_entry st ->
               nth_z (directory st') j = nth_z (directory st) j).
Proof.
  intros Hwf [Hre _ _ Hslot _ (e & He & Hu & Hdir) _ _ _ _ _].
  exists e. pose proof (nth_z_bound _ _ _ He) as Hir.
  pose proof (wf_entry _ _ _ Hwf He) as [Hfn _].
  repeat split; try done.
  - rewrite Hdir. apply nth_z_Some. split; [lia|].
    apply list_lookup_insert_eq. lia.
  - by apply stored_name_put.
  - intros j Hj. rewrite Hdir. unfold nth_z.
    destruct (Z.ltb_spec j 0); [done|].
    apply list_lookup_insert_ne. lia.
Qed.

(** ** The loop bounds of the model are never reached *)

Lemma get_copy_in_bound fuel : forall st e copy_size counter out,
  0 <= counter <= Z.of_nat (length (blocks e)) ->
  (length (blocks e) + 1 <= fuel + Z.to_nat counter)%nat ->
  get_copy fuel st e copy_size counter out <> Trapped IterationBound.
Proof.
  induction fuel as [|fuel IH]; intros st e copy_size counter out Hc Hfuel;
    rewrite get_copy_eq; destruct (copy_size >? 0); try done; [lia|].
  cbv zeta. destruct (nth_z (blocks e) counter) as [b|] eqn:Hb; [|done].
  destruct (nth_z (file_data st) b); [|done].
  apply nth_z_bound in Hb. apply IH; lia.
Qed.

Lemma delete_clear_in_bound fuel : forall st index counter block_num e,
  nth_z (directory st) index = Some e ->
  0 <= counter < Z.of_nat (length (blocks e)) ->
  (length (blocks e) <= fuel + Z.to_nat counter)%nat ->
  delete_clear fuel st index counter block_num <> Trapped IterationBound.
Proof.
  induction fuel as [|fuel IH]; intros st index counter block_num e He Hc Hfuel;
    rewrite delete_clear_eq; destruct (block_num >? -1); try done; [lia|].
  destruct (nth_z (file_data st) block_num) as [buf|]; [|done].
  cbv zeta.
  set (g := fun e0 => with_blocks e0 (upd_z (blocks e0) counter UNSET)).
  set (st1 := mkFS _ _ _).
  assert (nth_z (directory st1) index = Some (g e)) as He1
    by (by apply nth_z_alter_eq).
  unfold block_at. rewrite He1.
  destruct (nth_z (blocks (g e)) (counter + 1)) as [next|] eqn:Hn; [|done].
  apply nth_z_bound in Hn.
  apply (IH st1 index (counter + 1) next (g e) He1); [done|].
  unfold g in *. cbn [blocks with_blocks] in *. rewrite length_upd_z in *. lia.
Qed.

Lemma loops_end_in_bound st arg1 arg2 host now :
  wf st ->
  put st arg1 host now <> Trapped IterationBound /\
  get st arg1 arg2 <> Trapped IterationBound /\
  delete st arg1 <> Trapped IterationBound.
Proof.
  intros Hwf. split; [|split].
  - destruct (put_never_trapped st arg1 host now Hwf) as (st' & m & ->). done.
  - unfold get. destruct arg1 as [name|]; [|done].
    destruct (_ <? 0); [done|].
    destruct (nth_z (directory st) _) as [e|] eqn:He; [|done].
    pose proof (wf_entry _ _ _ Hwf He) as [_ Hbl].
    pose proof (get_copy_in_bound (S (Z.to_nat MAX_FILE_BLOCKS)) st e
                  (cast_long (size e)) 0 []) as Hb.
    destruct (get_copy _ _ _ _ _ _) as [out|t]; [done|].
    intros [= ->]. apply Hb; [lia | | done].
    change (Z.to_nat MAX_FILE_BLOCKS) with 48%nat. lia.
  - unfold delete. destruct arg1 as [name|]; [|done].
    destruct (_ <? 0); [done|].
    unfold block_at.
    destruct (nth_z (directory st) _) as [e|] eqn:He; [|done].
    destruct (nth_z (blocks e) 0) as [b0|] eqn:Hb0; [|done].
    pose proof (wf_entry _ _ _ Hwf He) as [_ Hbl].
    pose proof (delete_clear_in_bound (Z.to_nat MAX_FILE_BLOCKS) st _ 0 b0 e He) as Hb.
    destruct (delete_clear _ _ _ _ _) as [st1|t]; [done|].
    intros [= ->]. apply Hb; [lia | | done].
    change (Z.to_nat MAX_FILE_BLOCKS) with 48%nat. lia.
Qed.

(** ** Names and block lists *)

Lemma past_end_inside len n : n <= len -> past_end len n = [].
Proof.
  intros H. unfold past_end.
  assert (forall l : list Z, Forall (fun i => i < len) l ->
                             List.filter (fun i => len <=? i) l = []) as Hnone.
  { induction 1 as [|i l Hi _ IH]; simpl; [done|].
    destruct (Z.leb_spec len i); [lia | done]. }
  apply Hnone. apply Forall_forall. intros i Hi.
  apply list_elem_of_In, in_map_iff in Hi as (k & <- & Hk).
  apply in_seq in Hk. lia.
Qed.

Lemma owned_app_negative bs n :
  Forall (fun b => 0 <= b) bs -> owned (bs ++ replicate n NEGATIVE) = bs.
Proof.
  induction 1 as [|b bs Hb _ IH]; simpl.
  - by destruct n.
  - destruct (Z.gtb_spec b (-1)); [by rewrite IH | lia].
Qed.

Lemma stored_name_deleted e :
  length (file_name e) = 255%nat -> stored_name (deleted_entry e) = ""%string.
Proof.
  intros H. unfold stored_name, deleted_entry. cbn [file_name].
  destruct (file_name e) as [|c l]; [done|]. reflexivity.
Qed.

(** Without a match both report "File not found". *)
Lemma lookup_not_found st name arg2 :
  Forall (fun e => stored_name e <> name) (directory st) ->
  get st (Some name) arg2 = Ok GetNotFound /\
  delete st (Some name) = Ok (st, DelNotFound).
Proof.
  intros H.
  assert (Forall (fun e => name_matches e name = false) (directory st)) as H'.
  { eapply Forall_impl; [exact H|]. intros e. apply name_matches_false. }
  unfold get, delete.
  by rewrite get_lookup_none, delete_lookup_none.
Qed.

(** A directory holds a name in a first slot or in none. *)
Lemma first_match_or_none dir name :
  Forall (fun e => stored_name e <> name) dir \/
  exists (n : nat) e,
    dir !! n = Some e /\ stored_name e = name /\
    forall (k : nat) e0, (k < n)%nat -> dir !! k = Some e0 -> stored_name e0 <> name.
Proof.
  induction dir as [|x dir IH].
  - left. constructor.
  - destruct (String.string_dec (stored_name x) name) as [Hx|Hx].
    + right. exists 0%nat, x. split; [done|]. split; [done|]. intros k e0 Hk. lia.
    + destruct IH as [IH|(n & e & Hn & He & Hfirst)].
      * left. by constructor.
      * right. exists (S n), e. split; [done|]. split; [done|].
        intros [|k] e0 Hk Hl; simpl in Hl; [congruence|].
        apply (Hfirst k); [lia | done].
Qed.

(** ** Refusals *)

(** A refusal in front of the copy loop returns the state it was given. *)
Lemma put_refusal_keeps_state st name host now st' m :
  wf st -> put st (Some name) host now = Ok (st', m) ->
  m = PutNameTooLong \/ m = PutInvalidName \/ m = PutFileNotFound \/
  m = PutTooLarge \/ m = PutNoSpace \/ m = PutDirFull ->
  st' = st.
Proof.
  intros Hwf Hput Hm. pose proof (put_run st name host now Hwf) as H.
  rewrite Hput in H.
  destruct Hm as [->|[->|[->|[->|[->| ->]]]]]; by destruct H.
Qed.

(** ** The accounting along runs without read error *)

Lemma accountingb_sound st : accountingb st = true -> accounting st.
Proof.
  unfold accountingb, accounting.
  rewrite !andb_true_iff, !forallb_forall, Z.eqb_eq.
  intros [[H1 H2] H3]. split; [|split; [|done]].
  - intros b Hb. specialize (H1 (Z.to_nat b)).
    rewrite Z2Nat.id in H1 by lia. apply Z.eqb_eq, H1.
    apply in_seq. unfold TOTAL_BLOCKS in *. lia.
  - intros b Hb. apply list_elem_of_In, H2 in Hb.
    apply andb_true_iff in Hb as [Ha Hc]. lia.
Qed.

(** The sum of the free bytes and of the bytes of the blocks in use is the
    size of the disk, in every state of the declared shape. *)
Lemma free_plus_used st :
  wf st ->
  disk_availability st + BLOCK_SIZE * in_use_count st = TOTAL_BLOCKS * BLOCK_SIZE.
Proof.
  intros Hwf. rewrite disk_availability_count by done.
  apply wf_iff in Hwf as (_ & _ & _ & _ & Hu).
  assert (forall us, free_count us + used_count us = Z.of_nat (length us)) as Hsum.
  { induction us as [|u us IH]; simpl; [done|]. destruct (u =? 0); lia. }
  unfold in_use_count. specialize (Hsum (used_space st)). rewrite Hu in Hsum.
  unfold TOTAL_BLOCKS, BLOCK_SIZE. lia.
Qed.

Lemma occurrences_app b l1 l2 :
  occurrences b (l1 ++ l2) = occurrences b l1 + occurrences b l2.
Proof. induction l1 as [|x l1 IH]; simpl; lia. Qed.

Lemma occurrences_nonneg b l : 0 <= occurrences b l.
Proof. induction l as [|x l IH]; simpl; [lia|]. destruct (x =? b); lia. Qed.

Lemma occurrences_notin b l : b ∉ l -> occurrences b l = 0.
Proof.
  induction l as [|x l IH]; simpl; [done|].
  intros [Hne Hl]%not_elem_of_cons. destruct (Z.eqb_spec x b); [congruence|].
  rewrite IH by done. lia.
Qed.

Lemma occurrences_in b l : b ∈ l -> 1 <= occurrences b l.
Proof.
  induction l as [|x l IH]; simpl; [by intros ?%elem_of_nil|].
  pose proof (occurrences_nonneg b l).
  intros [->|Hl]%elem_of_cons.
  - rewrite Z.eqb_refl. lia.
  - specialize (IH Hl). destruct (x =? b); lia.
Qed.

Lemma occurrences_nodup b l : NoDup l -> b ∈ l -> occurrences b l = 1.
Proof.
  induction 1 as [|x l Hx Hnd IH]; simpl; [by intros ?%elem_of_nil|].
  intros [->|Hl]%elem_of_cons.
  - rewrite Z.eqb_refl, occurrences_notin by done. lia.
  - destruct (Z.eqb_spec x b) as [->|_]; [done|]. rewrite IH by done. lia.
Qed.

(** Replacing the entry of one slot replaces what it holds. *)
Lemma occurrences_insert b dir (i : nat) e e' :
  dir !! i = Some e ->
  occurrences b (flat_map held (<[i := e']> dir)) =
    occurrences b (flat_map held dir) - occurrences b (held e) + occurrences b (held e').
Proof.
  revert i. induction dir as [|x dir IH]; intros [|i] Hi; simpl in *; try done.
  - injection Hi as ->. rewrite !occurrences_app. lia.
  - rewrite !occurrences_app, (IH i) by done. lia.
Qed.

Lemma elem_of_references_insert b dir (i : nat) e e' :
  dir !! i = Some e ->
  b ∈ flat_map held (<[i := e']> dir) -> b ∈ flat_map held dir \/ b ∈ held e'.
Proof.
  revert i. induction dir as [|x dir IH]; intros [|i] Hi; simpl in *; try done.
  - rewrite !elem_of_app. tauto.
  - rewrite !elem_of_app. intros [H|H]; [tauto|].
    destruct (IH i Hi H); tauto.
Qed.

Lemma held_in_references dir (i : nat) e b :
  dir !! i = Some e -> b ∈ held e -> b ∈ flat_map held dir.
Proof.
  revert i. induction dir as [|x dir IH]; intros [|i] Hi Hb; simpl in *; try done.
  - injection Hi as ->. apply elem_of_app. by left.
  - apply elem_of_app. right. eauto.
Qed.

Lemma occurrences_held_le dir (i : nat) e b :
  dir !! i = Some e -> occurrences b (held e) <= occurrences b (flat_map held dir).
Proof.
  revert i. induction dir as [|x dir IH]; intros [|i] Hi; simpl in *; try done.
  - injection Hi as ->. rewrite occurrences_app.
    pose proof (occurrences_nonneg b (flat_map held dir)). lia.
  - rewrite occurrences_app. specialize (IH i Hi).
    pose proof (occurrences_nonneg b (held x)). lia.
Qed.

Lemma in_use_same st st' b :
  nth_z (used_space st') b = nth_z (used_space st) b -> in_use st' b = in_use st b.
Proof. unfold in_use. by intros ->. Qed.

Lemma tidy_init : tidy init.
Proof.
  split; [vm_compute; reflexivity|].
  split; [apply accountingb_sound; vm_compute; reflexivity|].
  apply Forall_forall. intros e He. apply elem_of_replicate in He as [-> _].
  reflexivity.
Qed.

(** [put] keeps the accounting unless it returns at a failed read. *)
Lemma put_keeps_tidy st arg1 host now st' m :
  tidy st -> put st arg1 host now = Ok (st', m) -> m <> PutReadError -> tidy st'.
Proof.
  intros (Hwf & Hacc & Hnames) Hput Hm.
  destruct arg1 as [name|]; [|by injection Hput as <- <-].
  pose proof (put_run st name host now Hwf) as Hrun. rewrite Hput in Hrun.
  destruct m; try done; try (by destruct Hrun as [-> _]).
  destruct Hrun as [_ (f & bs & Hf & Hpost)].
  destruct Hpost as [Hre Hsz Hsp Hslot Hcount (e & He & Hu & Hdir)
                     Hnd Htaken Hother Hdata Hwf'].
  pose proof (nth_z_bound _ _ _ He) as Hir.
  pose proof He as He0. apply nth_z_Some in He0 as [_ He0].
  set (E := stored_entry e name (declared_size f) now bs) in *.
  assert (Forall (fun b => 0 <= b < TOTAL_BLOCKS) bs) as Hrange.
  { apply Forall_forall. intros b Hb. destruct (Htaken b Hb) as [H0 _].
    apply nth_z_bound in H0. apply wf_iff in Hwf as (_ & _ & _ & _ & Hu').
    unfold TOTAL_BLOCKS. lia. }
  assert (held E = bs) as HheldE.
  { unfold held, E, stored_entry. cbn [used blocks]. change (SET =? 0) with false.
    apply owned_app_negative. eapply Forall_impl; [exact Hrange|]. simpl. lia. }
  assert (held e = []) as Hhelde by (unfold held; by rewrite Hu).
  destruct Hacc as (Hocc & Hrefs & _).
  split; [done|]. split; [split; [|split]|].
  - intros b Hb. unfold references. rewrite Hdir.
    rewrite (occurrences_insert b _ _ e E He0), Hhelde, HheldE. simpl.
    fold (references st). rewrite (Hocc b Hb).
    destruct (decide (b ∈ bs)) as [Hin|Hnin].
    + destruct (Htaken b Hin) as [H0 H1].
      rewrite (occurrences_nodup b bs Hnd Hin).
      assert (in_use st b = false) as -> by (unfold in_use; by rewrite H0).
      assert (in_use st' b = true) as -> by (unfold in_use; by rewrite H1).
      lia.
    + destruct (Hother b Hnin) as [H0 _].
      rewrite (occurrences_notin b bs Hnin), (in_use_same st st' b H0). lia.
  - intros b Hb. unfold references in Hb. rewrite Hdir in Hb.
    apply (elem_of_references_insert b _ _ e E He0) in Hb as [Hb|Hb].
    + by apply Hrefs.
    + rewrite HheldE in Hb. rewrite Forall_forall in Hrange. by apply Hrange.
  - by apply free_plus_used.
  - rewrite Hdir. apply Forall_insert; [done|].
    unfold E, stored_entry. cbn [used]. done.
Qed.

(** [delete] of a non-empty name keeps the accounting when it returns. *)
Lemma delete_keeps_tidy st name st' m :
  tidy st -> name <> ""%string -> delete st (Some name) = Ok (st', m) -> tidy st'.
Proof.
  intros (Hwf & Hacc & Hnames) Hne Hdel.
  destruct (first_match_or_none (directory st) name)
    as [Hnone|(n & e & Hn & Hname & Hfirst)].
  { destruct (lookup_not_found st name None Hnone) as [_ Heq].
    rewrite Heq in Hdel. by injection Hdel as <- <-. }
  assert (nth_z (directory st) (Z.of_nat n) = Some e) as He
    by (by rewrite nth_z_of_nat).
  assert (used e <> 0) as Hused.
  { intros Hu. rewrite Forall_forall in Hnames.
    rewrite (Hnames e) in Hname; [congruence | | done].
    eapply list_elem_of_lookup_2; eauto. }
  assert (held e = owned (blocks e)) as Hheld.
  { unfold held. destruct (Z.eqb_spec (used e) 0); done. }
  destruct Hacc as (Hocc & Hrefs & _).
  assert (forall b, b ∈ owned (blocks e) -> 0 <= b < TOTAL_BLOCKS) as Hown.
  { intros b Hb. apply Hrefs. unfold references.
    eapply held_in_references; [exact Hn|]. by rewrite Hheld. }
  destruct (delete_run st name (Z.of_nat n) e Hwf He Hname) as [Hok Htrap].
  { intros j e0 Hj Hl. apply nth_z_Some in Hl as [_ Hl].
    apply (Hfirst (Z.to_nat j)); [lia | done]. }
  { intros b Hb. by apply Hown. }
  pose proof (wf_entry _ _ _ Hwf He) as [_ Hbl].
  pose proof (owned_length (blocks e)) as Hol.
  destruct (decide (length (owned (blocks e)) = 48%nat)) as [H48|H48].
  { rewrite (Htrap H48) in Hdel. done. }
  destruct Hok as (st1 & Hdel1 & Hwf1 & Hdir & Hin & Hout); [lia|].
  rewrite Hdel1 in Hdel. injection Hdel as <- <-.
  rewrite Nat2Z.id in Hdir.
  assert (held (deleted_entry e) = []) as HheldD by done.
  split; [done|]. split; [split; [|split]|].
  - intros b Hb. unfold references. rewrite Hdir.
    rewrite (occurrences_insert b _ _ e _ Hn), Hheld, HheldD. simpl.
    fold (references st). pose proof (Hocc b Hb) as Hb1.
    destruct (decide (b ∈ owned (blocks e))) as [Hbin|Hbnin].
    + destruct (Hin b Hbin) as [H0 _].
      assert (in_use st1 b = false) as -> by (unfold in_use; by rewrite H0).
      pose proof (occurrences_in b _ Hbin) as H1.
      pose proof (occurrences_held_le _ _ _ b Hn) as H2.
      rewrite Hheld in H2. fold (references st) in H2.
      destruct (in_use st b); lia.
    + destruct (Hout b Hbnin) as [H0 _].
      rewrite (occurrences_notin b _ Hbnin), (in_use_same st st1 b H0). lia.
  - intros b Hb. unfold references in Hb. rewrite Hdir in Hb.
    apply (elem_of_references_insert b _ _ e _ Hn) in Hb as [Hb|Hb].
    + by apply Hrefs.
    + rewrite HheldD in Hb. by apply elem_of_nil in Hb.
  - by apply free_plus_used.
  - rewrite Hdir. apply Forall_insert; [done|]. intros _.
    apply stored_name_deleted. by destruct (wf_entry _ _ _ Hwf He).
Qed.

(** Along a run from a tidy state in which no [put] returned at a failed
    read, no command left an array and no [del] was given the empty string
    (the command line never passes one), the accounting holds at the end. *)
Lemma accounting_along_runs ops : forall st st' msgs,
  tidy st -> run st ops = Ok (st', msgs) ->
  MPut PutReadError ∉ msgs -> OpDel (Some ""%string) ∉ ops ->
  tidy st'.
Proof.
  induction ops as [|op ops IH]; intros st st' msgs Htidy Hrun Hmsgs Hops; simpl in Hrun.
  - by injection Hrun as <- <-.
  - destruct (step st op) as [[st1 m]|t] eqn:Hstep; [|done].
    destruct (run st1 ops) as [[st2 ms]|t] eqn:Hrest; [|done].
    injection Hrun as <- <-.
    apply not_elem_of_cons in Hmsgs as [Hm Hms].
    apply not_elem_of_cons in Hops as [Hop Hops].
    apply (IH st1 st2 ms); [|done..].
    destruct op as [arg1 host now|arg1]; simpl in Hstep.
    + destruct (put st arg1 host now) as [[s pm]|t] eqn:Hput; [|done].
      injection Hstep as <- <-.
      apply (put_keeps_tidy st arg1 host now s pm); [done | done | congruence].
    + destruct (delete st arg1) as [[s dm]|t] eqn:Hdel; [|done].
      injection Hstep as <- <-.
      destruct arg1 as [name|]; [|done].
      apply (delete_keeps_tidy st name s dm); [done | congruence | done].
Qed.

(** ** Free space after a stored file *)

Lemma free_count_taken bs : forall us us',
  length us' = length us -> NoDup bs ->
  (forall b, b ∈ bs -> nth_z us b = Some 0 /\ nth_z us' b = Some SET) ->
  (forall b, b ∉ bs -> nth_z us' b = nth_z us b) ->
  free_count us' = free_count us - Z.of_nat (length bs).
Proof.
  induction bs as [|b bs IH]; intros us us' Hlen Hnd Hin Hout.
  - assert (us' = us) as ->; [|simpl; lia].
    apply list_eq. intros i. specialize (Hout (Z.of_nat i)).
    rewrite !nth_z_of_nat in Hout. apply Hout. apply not_elem_of_nil.
  - apply NoDup_cons in Hnd as [Hb Hnd].
    destruct (Hin b) as [Hb0 Hb1]; [by left|].
    apply nth_z_Some in Hb0 as [Hb0 Hl0].
    rewrite (IH (<[Z.to_nat b := SET]> us) us').
    + rewrite free_count_insert by done. simpl length. lia.
    + by rewrite length_insert.
    + done.
    + intros b' Hb'. destruct (Hin b') as [H0 H1]; [by right|].
      split; [|done]. rewrite <- H0. unfold nth_z.
      destruct (Z.ltb_spec b' 0); [done|].
      apply list_lookup_insert_ne. intros Heq.
      apply nth_z_Some in H0 as [? _].
      assert (b = b') by lia. by subst b'.
    + intros b' Hb'. destruct (decide (b' = b)) as [->|Hne].
      * rewrite Hb1. symmetry. apply nth_z_Some. split; [done|].
        apply list_lookup_insert_eq. by apply lookup_lt_Some in Hl0.
      * rewrite Hout by (intros [->|?]%elem_of_cons; done).
        unfold nth_z. destruct (Z.ltb_spec b' 0); [done|].
        symmetry. apply list_lookup_insert_ne. lia.
Qed.

(** A stored file takes one block of free space per block of its list. *)
Lemma put_post_free_space st name f now st' bs :
  wf st -> put_post st name f now st' bs ->
  disk_availability st' =
    disk_availability st - BLOCK_SIZE * Z.of_nat (length bs).
Proof.
  intros Hwf [_ _ _ _ _ _ Hnd Htaken Hother _ Hwf'].
  rewrite (disk_availability_count st Hwf), (disk_availability_count st' Hwf').
  rewrite (free_count_taken bs (used_space st) (used_space st')).
  - lia.
  - apply wf_iff in Hwf as (_ & _ & _ & _ & ->).
    by apply wf_iff in Hwf' as (_ & _ & _ & _ & ->).
  - done.
  - done.
  - intros b Hb. by destruct (Hother b Hb).
Qed.

(** * The claims *)

(** ** C1: round trip *)

(** C1, as stated, fails: after [put a], [put a], [del a] the directory
    holds one entry named [a], in slot 1.  A further [put a] of the byte 03
    is stored (in slot 0), and [get a] then writes the byte 02 of slot 1. *)
Lemma roundtrip_stale_entry_counterexample :
  wf dup3 /\
  put dup3 (Some "a"%string) (host_file "a" [x03]) 0 = Ok (dup4, PutStored []) /\
  get dup4 (Some "a"%string) None = Ok (GetWritten "a" [x02]) /\
  ~ (forall st name f host now st' past,
       wf st -> host name = Some f -> st_size f <= MAX_FILE_SIZE ->
       put st (Some name) host now = Ok (st', PutStored past) ->
       get st' (Some name) None = Ok (GetWritten name (hf_bytes f))).
Proof.
  assert (wf dup3) as Hwf by (vm_compute; reflexivity).
  assert (put dup3 (Some "a"%string) (host_file "a" [x03]) 0 =
          Ok (dup4, PutStored [])) as Hput.
  { unfold dup4. apply outcome_fs_msg. vm_compute. reflexivity. }
  assert (get dup4 (Some "a"%string) None = Ok (GetWritten "a" [x02])) as Hget.
  { vm_compute. reflexivity. }
  split; [exact Hwf|]. split; [exact Hput|]. split; [exact Hget|].
  intros H.
  assert (st_size (mkHostFile [x03] (fun _ => false)) <= MAX_FILE_SIZE) as Hsz
    by (vm_compute; discriminate).
  pose proof (H dup3 "a"%string (mkHostFile [x03] (fun _ => false))
                (host_file "a" [x03]) 0 dup4 [] Hwf eq_refl Hsz Hput) as Hc.
  rewrite Hget in Hc. discriminate Hc.
Qed.

(** C1 (amended).  When no directory slot holds [name], a [put] of a file
    of at most [MAX_FILE_SIZE] bytes that ends without message, followed by
    [get] of [name], writes exactly the bytes of the file — whether or not
    the length is a multiple of [BLOCK_SIZE]. *)
Theorem put_get_roundtrip st name f host now st' past arg2 :
  wf st -> host name = Some f -> st_size f <= MAX_FILE_SIZE ->
  Forall (fun e => stored_name e <> name) (directory st) ->
  put st (Some name) host now = Ok (st', PutStored past) ->
  get st' (Some name) arg2 =
    Ok (GetWritten (match arg2 with None => name | Some n => n end) (hf_bytes f)).
Proof.
  intros Hwf Hf Hsz Hfresh Hput.
  pose proof (put_run st name host now Hwf) as Hrun. rewrite Hput in Hrun.
  destruct Hrun as [_ (f' & bs & Hf' & Hpost)].
  rewrite Hf in Hf'. injection Hf' as <-.
  destruct (put_post_entry _ _ _ _ _ _ Hwf Hpost) as (e & He & Hu & He' & Hname & Hoth).
  rewrite (get_run st' name arg2 (get_new_file_entry st) _ He' Hname).
  2: { intros j e' Hj Hl. rewrite Hoth in Hl by lia.
       rewrite Forall_forall in Hfresh. apply Hfresh.
       apply nth_z_Some in Hl as [_ Hl]. eapply list_elem_of_lookup_2; eauto. }
  rewrite (declared_size_small f Hsz) in *.
  cbn [size stored_entry].
  assert (cast_long (st_size f) = st_size f) as ->.
  { apply cast_small. unfold st_size, MAX_FILE_SIZE in *. lia. }
  destruct Hpost as [_ _ _ _ Hcount _ _ _ _ Hdata _].
  rewrite (get_copy_spec (hf_bytes f) bs); [done | | | lia | | | ].
  - intros p b Hp. split; [|by apply Hdata].
    cbn [blocks]. by apply lookup_app_l_Some.
  - rewrite (declared_size_small f Hsz) in Hcount. exact Hcount.
  - unfold st_size, BLOCK_SIZE. lia.
  - by rewrite Z.mul_0_r.
  - change (Z.to_nat MAX_FILE_BLOCKS) with 48%nat.
    unfold st_size, MAX_FILE_SIZE, BLOCK_SIZE in *. lia.
Qed.

Lemma put_get_roundtrip_witness :
  get (fs_of (put init (Some "a"%string) (host_file "a" [x01; x02; x03]) 0))
      (Some "a"%string) None =
    Ok (GetWritten "a" [x01; x02; x03]).
Proof.
  apply (put_get_roundtrip init "a" (mkHostFile [x01; x02; x03] (fun _ => false))
           (host_file "a" [x01; x02; x03]) 0 _ [] None).
  - vm_compute. reflexivity.
  - reflexivity.
  - vm_compute. discriminate.
  - apply Forall_forall. intros e He. apply elem_of_replicate in He as [-> _].
    vm_compute. discriminate.
  - apply outcome_fs_msg. vm_compute. reflexivity.
Defined.

(** ** C2: space accounting *)

(** C2 does not hold after the [put] of C3.  The empty file system satisfies
    the accounting; after [put b] (stored) and a [put a] whose second read
    fails, block 1 is in use and no used entry holds it: the accounting does
    not hold after every sequence of commands. *)
Theorem accounting_lost_after_read_error :
  accounting init /\
  msg_of (run init error_ops) = Some [MPut (PutStored []); MPut PutReadError] /\
  in_use (fs_of (run init error_ops)) 1 = true /\
  occurrences 1 (references (fs_of (run init error_ops))) = 0 /\
  ~ accounting (fs_of (run init error_ops)) /\
  ~ (forall ops st' msgs, run init ops = Ok (st', msgs) -> accounting st').
Proof.
  assert (in_use (fs_of (run init error_ops)) 1 = true) as Hin
    by (vm_compute; reflexivity).
  assert (occurrences 1 (references (fs_of (run init error_ops))) = 0) as Hocc
    by (vm_compute; reflexivity).
  split; [apply accountingb_sound; vm_compute; reflexivity|].
  split; [vm_compute; reflexivity|].
  assert (~ accounting (fs_of (run init error_ops))) as Hnot.
  { intros [H _]. specialize (H 1 ltac:(unfold TOTAL_BLOCKS; lia)).
    rewrite Hin, Hocc in H. discriminate H. }
  split; [exact Hin|]. split; [exact Hocc|]. split; [exact Hnot|].
  intros H. apply Hnot.
  apply (H error_ops _ [MPut (PutStored []); MPut PutReadError]).
  apply outcome_fs_msg. vm_compute. reflexivity.
Qed.

(** ** C3: failure atomicity *)

(** C3 does not hold for a read error after the first block.  In
    [before_error] block 1 is free and slot 1 unused.  A [put] of two blocks
    whose second [fread] fails prints the read-error message and returns:
    block 1, taken for the first block of the file, stays [SET] and
    [blocks[0]] of slot 1 holds its number, while the slot is still unused.
    So not every [put] that ends with a message leaves [used_space] and the
    directory as they were. *)
Theorem put_read_error_keeps_block :
  wf before_error /\
  put before_error (Some "a"%string)
      (host_bad_file "a" (replicate 4096 x07) 2048) 0 =
    Ok (after_error, PutReadError) /\
  nth_z (used_space before_error) 1 = Some UNSET /\
  nth_z (used_space after_error) 1 = Some SET /\
  block_at before_error 1 0 = Some 0 /\
  block_at after_error 1 0 = Some 1 /\
  (used <$> nth_z (directory after_error) 1) = Some UNSET /\
  ~ (forall st arg1 host now st' m,
       wf st -> put st arg1 host now = Ok (st', m) ->
       (forall past, m <> PutStored past) ->
       used_space st' = used_space st /\ directory st' = directory st).
Proof.
  assert (wf before_error) as Hwf by (vm_compute; reflexivity).
  assert (put before_error (Some "a"%string)
              (host_bad_file "a" (replicate 4096 x07) 2048) 0 =
          Ok (after_error, PutReadError)) as Hput.
  { unfold after_error. apply outcome_fs_msg. vm_compute. reflexivity. }
  assert (nth_z (used_space before_error) 1 = Some UNSET) as H0
    by (vm_compute; reflexivity).
  assert (nth_z (used_space after_error) 1 = Some SET) as H1
    by (vm_compute; reflexivity).
  split; [exact Hwf|]. split; [exact Hput|]. split; [exact H0|].
  split; [exact H1|]. split; [vm_compute; reflexivity|].
  split; [vm_compute; reflexivity|]. split; [vm_compute; reflexivity|].
  intros H. destruct (H _ _ _ _ _ _ Hwf Hput) as [Hus _]; [discriminate|].
  rewrite Hus, H0 in H1. discriminate H1.
Qed.

(** ** C4: what [delete] leaves behind *)

(** C4, as stated, fails: after [put a] of the two bytes 01 02 into the
    empty file system, [del a] leaves 0 ([UNSET]), not -1, in [blocks[0]] of
    the slot, and clears only the first byte of block 0. *)
Lemma delete_postcondition_counterexample :
  msg_of (delete one_file (Some "a"%string)) = Some DelDone /\
  (blocks <$> directory (fs_of (delete one_file (Some "a"%string))) !! 0%nat) =
    Some (0 :: replicate 47 (-1)) /\
  (take 3 <$> file_data (fs_of (delete one_file (Some "a"%string))) !! 0%nat) =
    Some [x00; x02; x00] /\
  (blocks <$> directory (fs_of (delete one_file (Some "a"%string))) !! 0%nat) <>
    Some (replicate 48 NEGATIVE) /\
  (file_data (fs_of (delete one_file (Some "a"%string))) !! 0%nat) <>
    Some (replicate 2048 x00).
Proof.
  assert ((blocks <$> directory (fs_of (delete one_file (Some "a"%string))) !! 0%nat) =
          Some (0 :: replicate 47 (-1))) as Hb by (vm_compute; reflexivity).
  assert ((take 3 <$> file_data (fs_of (delete one_file (Some "a"%string))) !! 0%nat) =
          Some [x00; x02; x00]) as Hd by (vm_compute; reflexivity).
  split; [vm_compute; reflexivity|]. split; [exact Hb|]. split; [exact Hd|].
  split.
  - rewrite Hb. vm_compute. discriminate.
  - intros H. rewrite H in Hd. vm_compute in Hd. discriminate Hd.
Qed.

(** C4 (amended).  Let [e] be the first slot whose stored name is [name],
    with a negative entry in its block list and all entries in front of it
    valid block numbers.  Then [delete name] ends without message; every
    block in the list up to that entry is [UNSET] in [used_space] and has its
    first byte (only) set to 0; the slot has [used = 0], an empty stored
    name, size 0, time 0, and a block list in which the freed places hold 0
    ([UNSET]) and the others what they held; all other blocks and slots are
    untouched. *)
Theorem delete_postcondition st name index e :
  wf st ->
  nth_z (directory st) index = Some e -> stored_name e = name ->
  (forall j e', 0 <= j < index -> nth_z (directory st) j = Some e' ->
                stored_name e' <> name) ->
  (forall b, b ∈ owned (blocks e) -> b < TOTAL_BLOCKS) ->
  (length (owned (blocks e)) < 48)%nat ->
  exists st' e',
    delete st (Some name) = Ok (st', DelDone) /\
    (forall b, b ∈ owned (blocks e) ->
       nth_z (used_space st') b = Some UNSET /\
       nth_z (file_data st') b = clear_first <$> nth_z (file_data st) b) /\
    (forall b, b ∉ owned (blocks e) ->
       nth_z (used_space st') b = nth_z (used_space st) b /\
       nth_z (file_data st') b = nth_z (file_data st) b) /\
    nth_z (directory st') index = Some e' /\
    used e' = UNSET /\ stored_name e' = ""%string /\
    size e' = 0 /\ time_created e' = 0 /\
    blocks e' = replicate (length (owned (blocks e))) UNSET ++
                drop (length (owned (blocks e))) (blocks e) /\
    (forall j, j <> index -> nth_z (directory st') j = nth_z (directory st) j).
Proof.
  intros Hwf He Hname Hfirst Hown Hlt.
  destruct (delete_run st name index e Hwf He Hname Hfirst Hown) as [Hok _].
  destruct (Hok Hlt) as (st' & Hdel & Hwf' & Hdir & Hin & Hout).
  pose proof (nth_z_bound _ _ _ He) as Hir.
  pose proof (wf_entry _ _ _ Hwf He) as [Hfn _].
  exists st', (deleted_entry e).
  split; [done|]. split; [done|]. split; [done|].
  split.
  { rewrite Hdir. apply nth_z_Some. split; [lia|].
    apply list_lookup_insert_eq. lia. }
  split; [done|]. split; [by apply stored_name_deleted|].
  split; [done|]. split; [done|]. split; [done|].
  intros j Hj. rewrite Hdir. unfold nth_z.
  destruct (Z.ltb_spec j 0); [done|].
  apply list_lookup_insert_ne. lia.
Qed.

Lemma delete_postcondition_witness :
  exists st' e',
    delete one_file (Some "a"%string) = Ok (st', DelDone) /\
    nth_z (used_space st') 0 = Some UNSET /\
    nth_z (directory st') 0 = Some e' /\
    blocks e' = 0 :: replicate 47 (-1).
Proof.
  destruct (delete_postcondition one_file "a" 0
              (stored_entry zero_inode "a" 2 0 [0]))
    as (st' & e' & Hdel & Hin & _ & He' & _ & _ & _ & _ & Hbl & _).
  - vm_compute. reflexivity.
  - vm_compute. reflexivity.
  - vm_compute. reflexivity.
  - intros j e0 Hj. lia.
  - intros b Hb. vm_compute in Hb.
    apply list_elem_of_singleton in Hb as ->. vm_compute. reflexivity.
  - vm_compute. lia.
  - exists st', e'. split; [exact Hdel|]. split.
    + apply Hin. vm_compute. left.
    + split; [exact He'|]. rewrite Hbl. vm_compute. reflexivity.
Defined.

(** ** C5: name resolution *)

(** C5 does not hold for [get]: with the two entries named [a] of [dup2]
    (slot 0 holding the byte 01 in block 0, slot 1 the byte 02 in block 1)
    the loop of [delete] stops at slot 0, the loop of [get] runs on to slot 1,
    and [get a] writes the byte 02: the two loops do not resolve every name
    to the same slot. *)
Theorem get_resolves_last_match :
  (stored_name <$> nth_z (directory dup2) 0) = Some "a"%string /\
  (used <$> nth_z (directory dup2) 0) = Some SET /\
  block_at dup2 0 0 = Some 0 /\
  (take 1 <$> nth_z (file_data dup2) 0) = Some [x01] /\
  delete_lookup (directory dup2) "a" 0 = 0 /\
  get_lookup (directory dup2) "a" 0 (-1) = 1 /\
  get dup2 (Some "a"%string) None = Ok (GetWritten "a" [x02]) /\
  ~ (forall st name,
       wf st -> get_lookup (directory st) name 0 (-1) =
                delete_lookup (directory st) name 0).
Proof.
  assert (delete_lookup (directory dup2) "a" 0 = 0) as Hd
    by (vm_compute; reflexivity).
  assert (get_lookup (directory dup2) "a" 0 (-1) = 1) as Hg
    by (vm_compute; reflexivity).
  split; [vm_compute; reflexivity|]. split; [vm_compute; reflexivity|].
  split; [vm_compute; reflexivity|]. split; [vm_compute; reflexivity|].
  split; [exact Hd|]. split; [exact Hg|]. split; [vm_compute; reflexivity|].
  intros H. specialize (H dup2 "a"%string ltac:(vm_compute; reflexivity)).
  rewrite Hd, Hg in H. discriminate H.
Qed.

(** ** C6: the space boundary *)

(** C6.  For a valid name and a host file that reads without error, of at
    most [MAX_FILE_SIZE] bytes: with a free slot, a file of exactly
    [disk_availability] bytes is stored, that is, the slot found by
    [get_new_file_entry] holds the new entry, the blocks of its list were
    free and are now in use, each starts with its chunk of the file
    ([put_post]), and no byte is free afterwards; a file of one byte more is
    refused with "Not enough disk space." and the state is the one before
    the call (the check stands in front of the allocation), whether or not a
    slot is free. *)
Theorem put_space_boundary st name f host now :
  wf st -> regexec_file_name name = true -> host name = Some f ->
  (forall o, hf_ioerr f o = false) -> st_size f <= MAX_FILE_SIZE ->
  (get_new_file_entry st <> -1 -> st_size f = disk_availability st ->
   exists st' past bs,
     put st (Some name) host now = Ok (st', PutStored past) /\
     put_post st name f now st' bs /\
     declared_size f = st_size f /\
     BLOCK_SIZE * Z.of_nat (length bs) = st_size f /\
     disk_availability st' = 0) /\
  (st_size f = disk_availability st + 1 ->
   put st (Some name) host now = Ok (st, PutNoSpace)).
Proof.
  intros Hwf Hre Hf Herr Hsz.
  pose proof (declared_size_small f Hsz) as Hds.
  split.
  - intros Hslot Heq.
    destruct (put_succeeds st name f host now) as (st' & bs & Hput & Hpost);
      [done | done | done | lia | lia | done | done |].
    exists st', (past_end FILE_NAME_LEN (strlen name + 1)), bs.
    split; [done|]. split; [done|]. split; [done|].
    pose proof (put_post_free_space _ _ _ _ _ _ Hwf Hpost) as Hfree.
    destruct Hpost as [_ _ _ _ Hcount _ _ _ _ _ _].
    rewrite (disk_availability_count st Hwf) in Heq.
    pose proof (free_count_bounds (used_space st)) as Hfc.
    assert (nblocks (declared_size f) = free_count (used_space st)) as Hnb.
    { rewrite Hds, Heq. unfold nblocks, BLOCK_SIZE.
      replace (2048 * free_count (used_space st) + (2048 - 1))
        with (2047 + free_count (used_space st) * 2048) by lia.
      rewrite Z.div_add by lia. change (2047 / 2048) with 0. lia. }
    rewrite Hfree, Hcount, Hnb, (disk_availability_count st Hwf).
    split; lia.
  - intros Heq. unfold put.
    pose proof (regexec_length _ Hre) as Hlen.
    destruct (Z.gtb_spec (strlen name) MAX_FILE_NAME) as [Hlong|_];
      [unfold MAX_FILE_NAME in *; lia|].
    rewrite Hre, Hf. cbn [negb]. fold (declared_size f).
    destruct (Z.gtb_spec (declared_size f) MAX_FILE_SIZE) as [Hbig|_]; [lia|].
    pose proof (disk_availability_bounds st Hwf) as Hda.
    destruct (cast_small _ Hda) as [_ ->].
    destruct (Z.gtb_spec (declared_size f) (disk_availability st)) as [_|Hfit];
      [done | lia].
Qed.

Lemma put_space_boundary_witness :
  (exists st' past (bs : list Z),
     put sixteen_left (Some "b"%string)
         (host_file "b" (replicate (Z.to_nat 32768) x07)) 0 = Ok (st', PutStored past) /\
     length bs = 16%nat /\ disk_availability st' = 0) /\
  put sixteen_left (Some "b"%string) (host_file "b" (replicate (Z.to_nat 32769) x07)) 0 =
    Ok (sixteen_left, PutNoSpace).
Proof.
  assert (wf sixteen_left) as Hwf by (vm_compute; reflexivity).
  assert (disk_availability sixteen_left = 32768) as Hfree
    by (vm_compute; reflexivity).
  assert (get_new_file_entry sixteen_left = 13) as Hslot
    by (vm_compute; reflexivity).
  split.
  - destruct (put_space_boundary sixteen_left "b"
                (mkHostFile (replicate (Z.to_nat 32768) x07) (fun _ => false))
                (host_file "b" (replicate (Z.to_nat 32768) x07)) 0)
      as [H _].
    + exact Hwf.
    + vm_compute. reflexivity.
    + reflexivity.
    + reflexivity.
    + vm_compute. discriminate.
    + destruct H as (st' & past & bs & Hput & _ & _ & Hlen & Hzero).
      * rewrite Hslot. discriminate.
      * rewrite Hfree. vm_compute. reflexivity.
      * exists st', past, bs. split; [exact Hput|]. split; [|exact Hzero].
        assert (st_size (mkHostFile (replicate (Z.to_nat 32768) x07) (fun _ => false)) = 32768)
          as Hsz by (vm_compute; reflexivity).
        rewrite Hsz in Hlen. unfold BLOCK_SIZE in Hlen. lia.
  - apply (put_space_boundary sixteen_left "b"
             (mkHostFile (replicate (Z.to_nat 32769) x07) (fun _ => false))
             (host_file "b" (replicate (Z.to_nat 32769) x07)) 0).
    + exact Hwf.
    + vm_compute. reflexivity.
    + reflexivity.
    + reflexivity.
    + vm_compute. discriminate.
    + rewrite Hfree. vm_compute. reflexivity.
Defined.

(** ** C7: duplicate names *)

(** C7.  Whether [put] stores a file depends on the name check, the host
    file, the two size checks and a free slot, never on the names in the
    directory; the entry goes to the lowest slot with [used = 0] and no other
    slot is touched.  So [put a] twice from the empty file system leaves two
    used entries named [a], in slots 0 and 1. *)
Theorem put_takes_first_unused_slot st name f host now :
  wf st -> regexec_file_name name = true -> host name = Some f ->
  declared_size f <= MAX_FILE_SIZE ->
  declared_size f <= disk_availability st ->
  get_new_file_entry st <> -1 ->
  (forall o, hf_ioerr f o = false) ->
  (exists st' past e e',
     put st (Some name) host now = Ok (st', PutStored past) /\
     nth_z (directory st) (get_new_file_entry st) = Some e /\ used e = 0 /\
     (forall j e0, 0 <= j < get_new_file_entry st ->
                   nth_z (directory st) j = Some e0 -> used e0 <> 0) /\
     nth_z (directory st') (get_new_file_entry st) = Some e' /\
     used e' = SET /\ stored_name e' = name /\
     (forall j, j <> get_new_file_entry st ->
                nth_z (directory st') j = nth_z (directory st) j)) /\
  (msg_of (put init (Some "a"%string) (host_file "a" [x01]) 0) = Some (PutStored []) /\
   msg_of (put dup1 (Some "a"%string) (host_file "a" [x02]) 0) = Some (PutStored []) /\
   (used <$> nth_z (directory dup2) 0) = Some SET /\
   (used <$> nth_z (directory dup2) 1) = Some SET /\
   (stored_name <$> nth_z (directory dup2) 0) = Some "a"%string /\
   (stored_name <$> nth_z (directory dup2) 1) = Some "a"%string).
Proof.
  intros Hwf Hre Hf Hsz Hsp Hslot Herr. split.
  - destruct (put_succeeds st name f host now Hwf Hre Hf Hsz Hsp Hslot Herr)
      as (st' & bs & Hput & Hpost).
    destruct (put_post_entry _ _ _ _ _ _ Hwf Hpost)
      as (e & He & Hu & He' & Hname & Hoth).
    destruct (get_new_file_entry_found st Hslot) as (e2 & He2 & _ & Hlow).
    exists st', (past_end FILE_NAME_LEN (strlen name + 1)), e,
           (stored_entry e name (declared_size f) now bs).
    split; [done|]. split; [done|]. split; [done|]. split; [done|].
    split; [done|]. split; [done|]. split; [done|]. done.
  - split; [vm_compute; reflexivity|]. split; [vm_compute; reflexivity|].
    split; [vm_compute; reflexivity|]. split; [vm_compute; reflexivity|].
    split; vm_compute; reflexivity.
Qed.

Lemma put_takes_first_unused_slot_witness :
  exists st' past e',
    put dup1 (Some "a"%string) (host_file "a" [x02]) 0 = Ok (st', PutStored past) /\
    nth_z (directory st') (get_new_file_entry dup1) = Some e' /\
    stored_name e' = "a"%string.
Proof.
  destruct (put_takes_first_unused_slot dup1 "a"
              (mkHostFile [x02] (fun _ => false)) (host_file "a" [x02]) 0)
    as [(st' & past & e & e' & Hput & _ & _ & _ & He' & _ & Hn & _) _].
  - vm_compute. reflexivity.
  - vm_compute. reflexivity.
  - reflexivity.
  - vm_compute. discriminate.
  - vm_compute. discriminate.
  - vm_compute. discriminate.
  - reflexivity.
  - exists st', past, e'. split; [exact Hput|]. split; [exact He' | exact Hn].
Defined.

(** ** C8: the copy loop always finds a free block *)

(** C8.  In a state of the declared shape, once the size passed the two
    checks of [put] (at most [MAX_FILE_SIZE], at most [disk_availability]),
    the copy loop runs to its end or to a read error: no call of
    [get_free_block] in it returns -1, so [file_data[-1]] and
    [used_space[-1]] are never touched; and [put] as a whole never leaves an
    array. *)
Theorem put_copy_finds_free_block st :
  wf st ->
  (forall f idx,
     0 <= idx < DIRECTORY_SIZE ->
     declared_size f <= MAX_FILE_SIZE ->
     declared_size f <= cast_ulong (disk_availability st) ->
     exists st1 r,
       put_copy (Z.to_nat MAX_FILE_BLOCKS) st f idx
                (cast_long (declared_size f)) 0 0 = Ok (st1, r)) /\
  (forall arg1 host now,
     put st arg1 host now <> Trapped (OutOfBounds FileData (-1)) /\
     exists st' m, put st arg1 host now = Ok (st', m)).
Proof.
  intros Hwf. split.
  - intros f idx Hidx Hsz Hsp.
    pose proof (declared_size_nonneg f) as Hnn.
    pose proof (disk_availability_bounds st Hwf) as Hda.
    destruct (cast_small _ Hda) as [_ Hcu]. rewrite Hcu in Hsp.
    assert (cast_long (declared_size f) = declared_size f) as ->.
    { apply cast_small. unfold MAX_FILE_SIZE in *. lia. }
    destruct (put_copy_spec (Z.to_nat MAX_FILE_BLOCKS) st f idx (declared_size f) 0 0)
      as (st1 & r & Heq & _);
      [ done | done | lia | lia
      | rewrite <- disk_availability_count by done; lia
      | unfold MAX_FILE_SIZE, BLOCK_SIZE, MAX_FILE_BLOCKS in *; lia
      | change (Z.to_nat MAX_FILE_BLOCKS) with 48%nat;
        unfold MAX_FILE_SIZE, BLOCK_SIZE in *; lia | ].
    eauto.
  - intros arg1 host now.
    destruct (put_never_trapped st arg1 host now Hwf) as (st' & m & Heq).
    split; [congruence | eauto].
Qed.

Lemma put_copy_finds_free_block_witness :
  exists st' m,
    put one_block_left (Some "a"%string) (host_file "a" (replicate 2048 x07)) 0 =
      Ok (st', m).
Proof.
  apply (put_copy_finds_free_block one_block_left).
  vm_compute. reflexivity.
Defined.

(** ** C9: the terminator of a 255-character name *)

(** C9.  A [put] that stores the file copies the [strlen(name) + 1]
    characters of the name and its terminator to [file_name] of its slot,
    one after the other ([memcpy]): the characters of the name are in the
    array afterwards.  For a name of at most 254 characters the terminator
    follows them inside the array, the characters behind it keep their
    value, and no index outside the array is written ([past] is empty).  A
    name of 255 characters passes both name checks; it fills the array, which
    then holds no terminator, and the terminator is written at index 255,
    outside the array ([past] is [[255]]). *)
Theorem put_name_terminator st name host now st' past :
  wf st ->
  put st (Some name) host now = Ok (st', PutStored past) ->
  strlen name <= MAX_FILE_NAME /\ regexec_file_name name = true /\
  (exists e e',
     nth_z (directory st) (get_new_file_entry st) = Some e /\
     nth_z (directory st') (get_new_file_entry st) = Some e' /\
     memcpy (file_name e) (list_ascii_of_string name ++ [NUL]) (strlen name + 1) =
       (file_name e', past) /\
     length (file_name e') = 255%nat /\
     take (Z.to_nat (strlen name)) (file_name e') = list_ascii_of_string name /\
     (strlen name <= 254 ->
      nth_z (file_name e') (strlen name) = Some NUL /\
      drop (Z.to_nat (strlen name + 1)) (file_name e') =
        drop (Z.to_nat (strlen name + 1)) (file_name e)) /\
     (strlen name = 255 ->
      file_name e' = list_ascii_of_string name /\ NUL ∉ file_name e')) /\
  past = past_end FILE_NAME_LEN (strlen name + 1) /\
  (past = [] <-> strlen name <= 254) /\
  (strlen name = 255 -> past = [255]).
Proof.
  intros Hwf Hput.
  pose proof (put_run st name host now Hwf) as Hrun. rewrite Hput in Hrun.
  destruct Hrun as [Hpast (f & bs & Hf & Hpost)].
  destruct (put_post_entry _ _ _ _ _ _ Hwf Hpost) as (e & He & _ & He' & _).
  destruct Hpost as [Hre _ _ _ _ _ _ _ _ _ _].
  pose proof (regexec_length _ Hre) as Hlen.
  pose proof (regexec_no_nul _ Hre) as Hnul.
  pose proof (length_chars name) as Hch.
  pose proof (wf_entry _ _ _ Hwf He) as [Hfn _].
  set (cs := list_ascii_of_string name) in *.
  assert (strlen name = 255 -> past_end FILE_NAME_LEN (strlen name + 1) = [255])
    as H255 by (intros ->; vm_compute; reflexivity).
  split; [unfold MAX_FILE_NAME; lia|]. split; [done|]. split.
  - exists e, (stored_entry e name (declared_size f) now bs).
    split; [done|]. split; [done|].
    unfold stored_entry. cbn [file_name]. split.
    { rewrite memcpy_spec by (rewrite length_app; simpl; lia).
      rewrite Hfn, Hpast. done. }
    unfold copied.
    rewrite (take_ge (cs ++ [NUL])) by (rewrite length_app; simpl; lia).
    rewrite Hfn.
    destruct (decide (strlen name = 255)) as [Heq|Hne].
    + rewrite take_app_length' by lia.
      rewrite drop_ge by lia. rewrite app_nil_r.
      split; [lia|]. split; [apply take_ge; lia|].
      split; [lia | done].
    + rewrite (take_ge (cs ++ [NUL])) by (rewrite length_app; simpl; lia).
      rewrite <- app_assoc. cbn [app].
      split; [|split; [|split; [|lia]]].
      * rewrite length_app. simpl. rewrite length_drop, length_app. simpl. lia.
      * apply take_app_length'. lia.
      * intros _. split.
        -- apply nth_z_Some. split; [lia|].
           rewrite lookup_app_r by lia.
           replace (Z.to_nat (strlen name) - length cs)%nat with 0%nat by lia. done.
        -- rewrite drop_app_ge by lia.
           replace (Z.to_nat (strlen name + 1) - length cs)%nat with 1%nat by lia.
           cbn [drop]. rewrite drop_0, length_app. simpl.
           f_equal. lia.
  - split; [done|]. rewrite Hpast. split; [|done]. split.
    + intros Hnil. destruct (decide (strlen name = 255)) as [Heq|Hne]; [|lia].
      rewrite (H255 Heq) in Hnil. discriminate Hnil.
    + intros H. apply past_end_inside. unfold FILE_NAME_LEN. lia.
Qed.

Lemma put_name_terminator_witness :
  exists st' e',
    put init (Some name255) (host_file name255 [x01]) 0 = Ok (st', PutStored [255]) /\
    nth_z (directory st') 0 = Some e' /\
    file_name e' = list_ascii_of_string name255 /\ NUL ∉ file_name e'.
Proof.
  assert (put init (Some name255) (host_file name255 [x01]) 0 =
          Ok (fs_of (put init (Some name255) (host_file name255 [x01]) 0),
              PutStored [255])) as Hput.
  { apply outcome_fs_msg. vm_compute. reflexivity. }
  destruct (put_name_terminator init name255 (host_file name255 [x01]) 0 _ _
              ltac:(vm_compute; reflexivity) Hput)
    as (_ & _ & (e & e' & _ & He' & _ & _ & _ & _ & Hfull) & _).
  assert (get_new_file_entry init = 0) as Hz by (vm_compute; reflexivity).
  rewrite Hz in He'.
  exists (fs_of (put init (Some name255) (host_file name255 [x01]) 0)), e'.
  split; [exact Hput|]. split; [exact He'|].
  apply Hfull. vm_compute. reflexivity.
Defined.

(** ** C10: the block list without sentinel *)

(** C10.  After a [put] that stored a file, in the first slot with that
    name: the block list holds one block per [BLOCK_SIZE] bytes (rounded up)
    in front of the first negative entry.  For a size of at most 47 blocks
    the list contains the sentinel -1 and [delete] ends inside the array;
    for a larger size (48 blocks) no entry is negative and the loop of
    [delete] ends only at the read of [blocks[48]], outside the array. *)
Theorem delete_walks_block_list st name f host now st' past :
  wf st -> host name = Some f ->
  (forall j e0, 0 <= j < get_new_file_entry st ->
                nth_z (directory st) j = Some e0 -> stored_name e0 <> name) ->
  put st (Some name) host now = Ok (st', PutStored past) ->
  exists e',
    nth_z (directory st') (get_new_file_entry st) = Some e' /\
    Z.of_nat (length (blocks e')) = MAX_FILE_BLOCKS /\
    Z.of_nat (length (owned (blocks e'))) = nblocks (declared_size f) /\
    (declared_size f <= 47 * BLOCK_SIZE ->
     NEGATIVE ∈ blocks e' /\
     exists st'', delete st' (Some name) = Ok (st'', DelDone)) /\
    (47 * BLOCK_SIZE < declared_size f ->
     (forall b, b ∈ blocks e' -> 0 <= b) /\
     delete st' (Some name) = Trapped (OutOfBounds Blocks 48)).
Proof.
  intros Hwf Hf Hfirst Hput.
  pose proof (put_run st name host now Hwf) as Hrun. rewrite Hput in Hrun.
  destruct Hrun as [_ (f' & bs & Hf' & Hpost)].
  rewrite Hf in Hf'. injection Hf' as <-.
  destruct (put_post_entry _ _ _ _ _ _ Hwf Hpost) as (e & He & Hu & He' & Hname & Hoth).
  destruct Hpost as [_ Hsz _ _ Hcount _ _ Htaken _ _ Hwf'].
  pose proof (declared_size_nonneg f) as Hnn.
  pose proof (nblocks_bounds _ Hnn) as Hnb.
  assert (Forall (fun b => 0 <= b < TOTAL_BLOCKS) bs) as Hrange.
  { apply Forall_forall. intros b Hb. destruct (Htaken b Hb) as [H0 _].
    apply nth_z_bound in H0. apply wf_iff in Hwf as (_ & _ & _ & _ & Hu').
    unfold TOTAL_BLOCKS. lia. }
  set (E := stored_entry e name (declared_size f) now bs) in *.
  assert (owned (blocks E) = bs) as Hown.
  { unfold E, stored_entry. cbn [blocks]. apply owned_app_negative.
    eapply Forall_impl; [exact Hrange|]. simpl. lia. }
  assert (length bs <= 48)%nat as Hle.
  { unfold MAX_FILE_SIZE, BLOCK_SIZE in *. lia. }
  destruct (delete_run st' name (get_new_file_entry st) E Hwf' He' Hname)
    as [Hok Htrap].
  { intros j e0 Hj Hl. rewrite Hoth in Hl by lia. eauto. }
  { rewrite Hown. intros b Hb. rewrite Forall_forall in Hrange.
    by apply Hrange. }
  rewrite Hown in Hok, Htrap.
  exists E. split; [done|]. split.
  { unfold E, stored_entry. cbn [blocks].
    rewrite length_app, length_replicate.
    change (Z.to_nat MAX_FILE_BLOCKS) with 48%nat. unfold MAX_FILE_BLOCKS. lia. }
  split; [by rewrite Hown|]. split.
  - intros Hsmall.
    assert (length bs < 48)%nat as Hlt by (unfold BLOCK_SIZE in *; lia).
    split.
    + unfold E, stored_entry. cbn [blocks]. apply elem_of_app. right.
      apply elem_of_replicate. split; [done|].
      change (Z.to_nat MAX_FILE_BLOCKS) with 48%nat. lia.
    + destruct (Hok Hlt) as (st'' & Hdel & _). eauto.
  - intros Hbig.
    assert (length bs = 48)%nat as Heq by (unfold BLOCK_SIZE in *; lia).
    split; [|by apply Htrap].
    unfold E, stored_entry. cbn [blocks].
    change (Z.to_nat MAX_FILE_BLOCKS) with 48%nat. rewrite Heq, Nat.sub_diag.
    simpl replicate. rewrite app_nil_r. intros b Hb.
    rewrite Forall_forall in Hrange. apply Hrange in Hb. lia.
Qed.

Lemma delete_walks_block_list_witness :
  delete full_file (Some "a"%string) = Trapped (OutOfBounds Blocks 48).
Proof.
  destruct (delete_walks_block_list init "a"
              (mkHostFile (replicate (Z.to_nat MAX_FILE_SIZE) x07) (fun _ => false))
              (host_file "a" (replicate (Z.to_nat MAX_FILE_SIZE) x07)) 0
              full_file [])
    as (e' & _ & _ & _ & _ & Hbig).
  - vm_compute. reflexivity.
  - reflexivity.
  - intros j e0 Hj.
    assert (get_new_file_entry init = 0) as Hz by (vm_compute; reflexivity).
    rewrite Hz in Hj. lia.
  - unfold full_file. apply outcome_fs_msg. vm_compute. reflexivity.
  - apply Hbig. vm_compute. reflexivity.
Defined.

(** * Further properties *)

(** ** The two scans *)

Lemma free_indices_from_elem us : forall c b,
  b ∈ free_indices_from us c <->
  c <= b /\ us !! Z.to_nat (b - c) = Some 0.
Proof.
  induction us as [|u us IH]; intros c b; simpl.
  - split; [by intros ?%elem_of_nil | by intros [_ ?]].
  - assert (b ∈ free_indices_from us (c + 1) <->
            c < b /\ (u :: us) !! Z.to_nat (b - c) = Some 0) as Hrest.
    { rewrite IH. split; intros [H1 H2]; (split; [lia|]).
      - replace (Z.to_nat (b - c)) with (S (Z.to_nat (b - (c + 1)))) by lia. done.
      - replace (Z.to_nat (b - c)) with (S (Z.to_nat (b - (c + 1)))) in H2 by lia.
        done. }
    destruct (Z.eqb_spec u 0) as [->|Hu].
    + rewrite elem_of_cons, Hrest. split.
      * intros [->|[H1 H2]]; [|split; [lia | done]].
        split; [lia|]. by rewrite Z.sub_diag.
      * intros [H1 H2]. destruct (decide (b = c)) as [->|Hne]; [by left|].
        right. split; [lia | done].
    + rewrite Hrest. split; intros [H1 H2]; (split; [lia | done]) || idtac.
      split; [|done]. destruct (decide (b = c)) as [->|Hne]; [|lia].
      rewrite Z.sub_diag in H2. simpl in H2. congruence.
Qed.

Lemma free_indices_from_ge us : forall c,
  Forall (fun b => c <= b) (free_indices_from us c).
Proof.
  induction us as [|u us IH]; intros c; simpl; [constructor|].
  assert (Forall (fun b => c <= b) (free_indices_from us (c + 1))) as Hle.
  { eapply Forall_impl; [apply IH|]. simpl. lia. }
  destruct (u =? 0); [constructor; [lia | done] | done].
Qed.

(** The list is strictly increasing. *)
Lemma free_indices_from_increasing us : forall c (i j : nat) x y,
  (i < j)%nat -> free_indices_from us c !! i = Some x ->
  free_indices_from us c !! j = Some y -> x < y.
Proof.
  induction us as [|u us IH]; intros c i j x y Hij Hi Hj; simpl in *; [done|].
  destruct (u =? 0); [|eauto].
  destruct j as [|j]; [lia|]. simpl in Hj.
  destruct i as [|i]; simpl in Hi; [|eapply (IH (c + 1) i j); eauto; lia].
  injection Hi as <-.
  pose proof (free_indices_from_ge us (c + 1)) as Hge.
  rewrite Forall_forall in Hge.
  specialize (Hge y (list_elem_of_lookup_2 _ _ _ Hj)). lia.
Qed.

Lemma free_block_from_head us c :
  free_block_from us c = hd (-1) (free_indices_from us c).
Proof.
  revert c. induction us as [|u us IH]; intros c; simpl; [done|].
  unfold UNSET. destruct (u =? 0); [done | apply IH].
Qed.

Lemma free_indices_from_length us c :
  Z.of_nat (length (free_indices_from us c)) = free_count us.
Proof.
  revert c. induction us as [|u us IH]; intros c; simpl; [done|].
  destruct (u =? 0); simpl; rewrite <- (IH (c + 1)); lia.
Qed.

(** Marking the first free block removes the head of the list. *)
Lemma free_indices_from_take_head us : forall c b v,
  hd (-1) (free_indices_from us c) = b -> 0 <= c -> b <> -1 -> v <> 0 ->
  free_indices_from (<[Z.to_nat (b - c) := v]> us) c = tl (free_indices_from us c).
Proof.
  induction us as [|u us IH]; intros c b v Hb Hc Hne Hv; simpl in *; [done|].
  destruct (Z.eqb_spec u 0) as [->|Hu]; simpl in Hb.
  - subst b. rewrite Z.sub_diag. simpl.
    destruct (Z.eqb_spec v 0); [done|]. done.
  - pose proof (free_indices_from_ge us (c + 1)) as Hge.
    assert (c + 1 <= b) as Hcb.
    { destruct (free_indices_from us (c + 1)) as [|x l]; simpl in Hb; [lia|].
      subst x. by inv Hge. }
    replace (Z.to_nat (b - c)) with (S (Z.to_nat (b - (c + 1)))) by lia.
    simpl. destruct (Z.eqb_spec u 0); [done|].
    apply IH; [done | lia | done | done].
Qed.

(** X1.  [get_free_block] is first-fit: it returns -1 exactly when no entry of
    [used_space] is 0, and otherwise the lowest index whose entry is 0. *)
Theorem get_free_block_first_fit st :
  (get_free_block st = -1 <-> Forall (fun u => u <> 0) (used_space st)) /\
  (get_free_block st <> -1 ->
   nth_z (used_space st) (get_free_block st) = Some 0 /\
   forall j, 0 <= j < get_free_block st -> nth_z (used_space st) j <> Some 0).
Proof.
  unfold get_free_block.
  pose proof (free_count_bounds (used_space st)) as Hb.
  assert (free_count (used_space st) = 0 <-> Forall (fun u => u <> 0) (used_space st))
    as Hzero.
  { induction (used_space st) as [|u us IH]; simpl.
    - split; [constructor | done].
    - pose proof (free_count_bounds us) as Hb'.
      destruct (Z.eqb_spec u 0) as [->|Hu].
      + split; [lia | by inversion 1].
      + rewrite Z.add_0_l. split.
        * intros H0. constructor; [done | apply IH; [lia | done]].
        * inversion 1; subst. apply IH; [lia | done]. }
  destruct (decide (free_count (used_space st) = 0)) as [H0|Hpos].
  - assert (free_block_from (used_space st) 0 = -1) as Hnone.
    { rewrite free_block_from_head.
      pose proof (free_indices_from_length (used_space st) 0) as Hl.
      destruct (free_indices_from (used_space st) 0); [done | simpl in Hl; lia]. }
    rewrite Hnone. split; [by rewrite <- Hzero | done].
  - destruct (free_block_from_found (used_space st) 0) as (n & Hn & Hfree & Hmin);
      [lia|].
    rewrite Hn, Z.add_0_l. split.
    + split; [lia|]. intros Hall. apply Hzero in Hall. lia.
    + intros _. split; [by rewrite nth_z_of_nat|].
      intros j Hj Hl. apply nth_z_Some in Hl as [_ Hl].
      apply (Hmin (Z.to_nat j)); [lia | done].
Qed.

(** X2.  [get_new_file_entry] returns -1 exactly when every slot has a
    non-zero [used], and otherwise the lowest slot with [used = 0]. *)
Theorem get_new_file_entry_lowest st :
  (get_new_file_entry st = -1 <-> Forall (fun e => used e <> 0) (directory st)) /\
  (get_new_file_entry st <> -1 ->
   exists e,
     nth_z (directory st) (get_new_file_entry st) = Some e /\ used e = 0 /\
     forall j e', 0 <= j < get_new_file_entry st ->
                  nth_z (directory st) j = Some e' -> used e' <> 0).
Proof.
  split; [|apply get_new_file_entry_found].
  unfold get_new_file_entry.
  destruct (new_file_entry_from_spec (directory st) 0) as [Hnone Hsome].
  split; [intros H; apply Hnone; split; [done | lia]|].
  intros Hall.
  destruct (decide (new_file_entry_from (directory st) 0 = -1)) as [|Hne]; [done|].
  destruct Hsome as (n & _ & (e & He & Hu) & _); [lia | done |].
  rewrite Forall_forall in Hall. exfalso. apply (Hall e); [|done].
  eapply list_elem_of_lookup_2; eauto.
Qed.

(** ** Which blocks [put] takes *)

(** One turn of the copy loop whose read does not fail. *)
Lemma put_copy_step fuel st f idx copy_size offset counter :
  wf st -> 0 <= counter -> 0 < copy_size ->
  copy_size <= BLOCK_SIZE * free_count (used_space st) ->
  copy_size <= BLOCK_SIZE * (MAX_FILE_BLOCKS - counter) ->
  (hf_ioerr f offset = true ->
   exists st1, put_copy (S fuel) st f idx copy_size offset counter =
               Ok (st1, CopyReadError)) /\
  (hf_ioerr f offset = false ->
   exists buf',
     length buf' = 2048%nat /\
     put_copy (S fuel) st f idx copy_size offset counter =
     put_copy fuel
       (mkFS (alter (fun e => with_blocks e (upd_z (blocks e) counter (get_free_block st)))
                    (Z.to_nat idx) (directory st))
             (upd_z (file_data st) (get_free_block st) buf')
             (upd_z (used_space st) (get_free_block st) SET))
       f idx (copy_size - BLOCK_SIZE) (offset + BLOCK_SIZE) (counter + 1)).
Proof.
  intros Hwf Hc Hpos Hfree Hmax.
  rewrite put_copy_eq. destruct (Z.gtb_spec copy_size 0) as [_|Hneg]; [|lia].
  pose proof Hwf as Hwf'. apply wf_iff in Hwf' as (Hd & Hdw & Hfd & Hfw & Hu).
  destruct (get_free_block_found st) as [Hb0 Hus]; [unfold BLOCK_SIZE in *; lia|].
  pose proof (nth_z_bound _ _ _ Hus) as Hb0r.
  destruct (nth_z_in_range (file_data st) (get_free_block st)) as [buf Hbuf]; [lia|].
  pose proof (wf_block_len _ _ _ Hwf Hbuf) as Hbl.
  cbv zeta. rewrite Hbuf. unfold fread_block.
  split; intros Herr; rewrite Herr.
  - cbv beta iota. change ((0 =? 0) && negb false) with true. cbv iota. eauto.
  - set (chunk := take (Z.to_nat BLOCK_SIZE) (drop (Z.to_nat offset) (hf_bytes f))).
    assert (length chunk <= 2048)%nat as Hcl
      by (unfold chunk, BLOCK_SIZE; rewrite length_take; lia).
    exists (chunk ++ drop (length chunk) buf).
    split; [rewrite length_app, length_drop; lia|].
    cbv beta iota.
    assert (((if Z.of_nat (length chunk) =? BLOCK_SIZE then 1 else 0) =? 0) &&
            negb (Z.of_nat (length chunk) <? BLOCK_SIZE) = false) as ->.
    { unfold BLOCK_SIZE.
      destruct (Z.eqb_spec (Z.of_nat (length chunk)) 2048),
               (Z.ltb_spec (Z.of_nat (length chunk)) 2048); simpl; try done; lia. }
    assert ((counter <? 0) || (MAX_FILE_BLOCKS <=? counter) = false) as ->.
    { unfold MAX_FILE_BLOCKS, BLOCK_SIZE in *.
      destruct (Z.ltb_spec counter 0), (Z.leb_spec 48 counter); simpl; try done; lia. }
    reflexivity.
Qed.

(** The blocks written into the list by a complete copy are the first free
    ones, in the order of their numbers, and they are the ones that are no
    longer free. *)
Lemma put_copy_first_fit fuel : forall st f idx copy_size offset counter st1 k,
  wf st -> 0 <= idx < DIRECTORY_SIZE -> 0 <= counter ->
  offset = BLOCK_SIZE * counter ->
  copy_size <= BLOCK_SIZE * free_count (used_space st) ->
  copy_size <= BLOCK_SIZE * (MAX_FILE_BLOCKS - counter) ->
  copy_size <= BLOCK_SIZE * Z.of_nat fuel ->
  put_copy fuel st f idx copy_size offset counter = Ok (st1, CopyDone k) ->
  (forall p : nat, Z.of_nat p < k - counter ->
     block_at st1 idx (counter + Z.of_nat p) = free_indices st !! p) /\
  free_indices st1 = drop (Z.to_nat (k - counter)) (free_indices st).
Proof.
  induction fuel as [|fuel IH];
    intros st f idx copy_size offset counter st1 k Hwf Hidx Hc Hoff Hfree Hmax Hfuel Hrun.
  { rewrite put_copy_eq in Hrun.
    destruct (Z.gtb_spec copy_size 0); [unfold BLOCK_SIZE in *; lia|].
    injection Hrun as <- <-. rewrite Z.sub_diag. split; [intros; lia | done]. }
  destruct (Z_lt_le_dec 0 copy_size) as [Hpos|Hneg].
  2: { rewrite put_copy_eq in Hrun.
       destruct (Z.gtb_spec copy_size 0); [lia|].
       injection Hrun as <- <-. rewrite Z.sub_diag. split; [intros; lia | done]. }
  destruct (put_copy_step fuel st f idx copy_size offset counter Hwf Hc Hpos Hfree Hmax)
    as [Hbad Hgood].
  destruct (hf_ioerr f offset) eqn:Herr.
  { destruct (Hbad eq_refl) as (s & Hs). rewrite Hs in Hrun. done. }
  destruct (Hgood eq_refl) as (buf' & Hbl' & Hstep). rewrite Hstep in Hrun. clear Hbad Hgood.
  pose proof Hwf as Hwf'. apply wf_iff in Hwf' as (Hd & Hdw & Hfd & Hfw & Hu).
  destruct (get_free_block_found st) as [Hb0 Hus]; [unfold BLOCK_SIZE in *; lia|].
  pose proof (nth_z_bound _ _ _ Hus) as Hb0r.
  set (b0 := get_free_block st) in *.
  set (g := fun e => with_blocks e (upd_z (blocks e) counter b0)) in *.
  set (st2 := mkFS (alter g (Z.to_nat idx) (directory st))
                   (upd_z (file_data st) b0 buf')
                   (upd_z (used_space st) b0 SET)) in *.
  assert (wf st2) as Hwf2.
  { apply wf_mk.
    - by rewrite length_alter.
    - apply Forall_alter; [done|]. intros e _ He. apply with_blocks_wf; [done|].
      by rewrite length_upd_z.
    - by rewrite length_upd_z.
    - by apply Forall_upd_z.
    - by rewrite length_upd_z. }
  assert (free_count (used_space st2) = free_count (used_space st) - 1) as Hfc.
  { simpl. unfold upd_z. destruct (Z.ltb_spec b0 0); [lia|].
    apply free_count_insert; [by apply nth_z_Some in Hus as [_ ?] | done]. }
  assert (free_indices st2 = tl (free_indices st)) as Hfi.
  { unfold free_indices, st2. simpl used_space. unfold upd_z.
    destruct (Z.ltb_spec b0 0); [lia|].
    rewrite <- (Z.sub_0_r b0) at 1.
    apply free_indices_from_take_head; [|lia|lia|done].
    symmetry. apply free_block_from_head. }
  assert (hd (-1) (free_indices st) = b0) as Hhd
    by (symmetry; apply free_block_from_head).
  unfold MAX_FILE_BLOCKS in Hmax.
  assert (copy_size - BLOCK_SIZE <= BLOCK_SIZE * free_count (used_space st2)) as H1
    by (rewrite Hfc; lia).
  assert (copy_size - BLOCK_SIZE <= BLOCK_SIZE * (MAX_FILE_BLOCKS - (counter + 1))) as H2
    by (unfold MAX_FILE_BLOCKS; lia).
  destruct (IH st2 f idx (copy_size - BLOCK_SIZE) (offset + BLOCK_SIZE) (counter + 1)
               st1 k Hwf2 Hidx ltac:(lia) ltac:(lia) H1 H2 ltac:(lia) Hrun)
    as [IHb IHf].
  destruct (put_copy_spec fuel st2 f idx (copy_size - BLOCK_SIZE) (offset + BLOCK_SIZE)
              (counter + 1) Hwf2 Hidx ltac:(lia) ltac:(lia) H1 H2 ltac:(lia))
    as (s & r & Heq & _ & Hr).
  rewrite Hrun in Heq. injection Heq as <- <-.
  destruct Hr as [Hk (bs & Hlen & Hdir & _)].
  pose proof (nblocks_bounds (copy_size - BLOCK_SIZE)) as Hnb.
  assert (counter + 1 <= k) as Hck.
  { subst k. unfold nblocks. lia. }
  destruct (nth_z_in_range (directory st) idx) as [e He];
    [unfold DIRECTORY_SIZE in *; lia|].
  assert (length (blocks e) = 48%nat) as Hbe
    by (by destruct (wf_entry _ _ _ Hwf He)).
  assert (counter < 48) as Hc48 by (unfold BLOCK_SIZE in *; lia).
  assert (block_at st1 idx counter = Some b0) as Hat.
  { unfold block_at. rewrite Hdir. simpl directory.
    rewrite (nth_z_alter_eq _ _ _ (g e)); [|by apply nth_z_alter_eq].
    cbn [blocks with_blocks]. apply nth_z_Some. split; [lia|].
    unfold g. cbn [blocks with_blocks].
    rewrite lookup_app_l by (rewrite length_take, length_upd_z; lia).
    rewrite lookup_take_lt by lia.
    unfold upd_z. destruct (Z.ltb_spec counter 0); [lia|].
    apply list_lookup_insert_eq. lia. }
  split.
  - intros [|p] Hp.
    + rewrite Z.add_0_r, Hat.
      destruct (free_indices st) as [|x l] eqn:Hl; simpl in Hhd; [lia|].
      by subst x.
    + replace (counter + Z.of_nat (S p)) with (counter + 1 + Z.of_nat p) by lia.
      rewrite IHb by lia. rewrite Hfi.
      destruct (free_indices st); [simpl; by rewrite ?lookup_nil | done].
  - rewrite IHf, Hfi.
    replace (Z.to_nat (k - counter)) with (S (Z.to_nat (k - (counter + 1)))) by lia.
    destruct (free_indices st); [simpl; by rewrite ?drop_nil | done].
Qed.

(** A [put] that stores the file ran its copy loop to the end. *)
Lemma put_stored_inv st name host now st' past :
  wf st -> put st (Some name) host now = Ok (st', PutStored past) ->
  exists f st1 k e1,
    host name = Some f /\
    declared_size f <= MAX_FILE_SIZE /\
    declared_size f <= disk_availability st /\
    get_new_file_entry st <> -1 /\
    put_copy (Z.to_nat MAX_FILE_BLOCKS) st f (get_new_file_entry st)
             (declared_size f) 0 0 = Ok (st1, CopyDone k) /\
    nth_z (directory st1) (get_new_file_entry st) = Some e1 /\
    st' = mkFS (upd_z (directory st1) (get_new_file_entry st)
                      (fst (put_finish e1 k name (declared_size f) now)))
               (file_data st1) (used_space st1).
Proof.
  intros Hwf. unfold put.
  destruct (strlen name >? MAX_FILE_NAME); [done|].
  destruct (regexec_file_name name); [|done]. cbn [negb].
  destruct (host name) as [f|]; [|done]. fold (declared_size f).
  destruct (Z.gtb_spec (declared_size f) MAX_FILE_SIZE) as [|Hsz]; [done|].
  pose proof (disk_availability_bounds st Hwf) as Hda.
  destruct (cast_small _ Hda) as [_ ->].
  destruct (Z.gtb_spec (declared_size f) (disk_availability st)) as [|Hsp]; [done|].
  destruct (Z.eqb_spec (get_new_file_entry st) (-1)) as [|Hslot]; [done|].
  pose proof (declared_size_nonneg f) as Hnn.
  assert (cast_long (declared_size f) = declared_size f) as ->.
  { apply cast_small. unfold MAX_FILE_SIZE in *. lia. }
  destruct (put_copy _ _ _ _ _ _ _) as [[st1 [k|]]|t] eqn:Hcopy; [|done|done].
  destruct (nth_z (directory st1) (get_new_file_entry st)) as [e1|] eqn:He1; [|done].
  destruct (put_finish e1 k name (declared_size f) now) as [e' p] eqn:Hfin.
  intros [= <- <-]. exists f, st1, k, e1. by rewrite Hfin.
Qed.

(** X3.  Allocation is first-fit.  A [put] that stores a file of [n] blocks
    ([n] = size / 2048, rounded up) takes the [n] lowest-numbered free blocks:
    the block list of its entry is their numbers in increasing order,
    followed by -1 up to 48 entries; exactly these blocks stop being free,
    and [disk_availability] goes down by [n * BLOCK_SIZE]. *)
Theorem put_takes_lowest_free_blocks st name f host now st' past :
  wf st -> host name = Some f ->
  put st (Some name) host now = Ok (st', PutStored past) ->
  (Z.to_nat (nblocks (declared_size f)) <= length (free_indices st))%nat /\
  (exists e',
     nth_z (directory st') (get_new_file_entry st) = Some e' /\
     blocks e' = take (Z.to_nat (nblocks (declared_size f))) (free_indices st) ++
                 replicate (48 - Z.to_nat (nblocks (declared_size f))) NEGATIVE) /\
  free_indices st' = drop (Z.to_nat (nblocks (declared_size f))) (free_indices st) /\
  disk_availability st' =
    disk_availability st - BLOCK_SIZE * nblocks (declared_size f).
Proof.
  intros Hwf Hf Hput.
  destruct (put_stored_inv _ _ _ _ _ _ Hwf Hput)
    as (f' & st1 & k & e1 & Hf' & Hsz & Hsp & Hslot & Hcopy & He1 & ->).
  rewrite Hf in Hf'. injection Hf' as <-.
  pose proof (declared_size_nonneg f) as Hnn.
  pose proof (get_new_file_entry_range st Hwf Hslot) as Hrange.
  set (i := get_new_file_entry st) in *.
  assert (declared_size f <= BLOCK_SIZE * free_count (used_space st)) as H1
    by (rewrite <- disk_availability_count by done; lia).
  assert (declared_size f <= BLOCK_SIZE * (MAX_FILE_BLOCKS - 0)) as H2
    by (unfold MAX_FILE_SIZE, BLOCK_SIZE, MAX_FILE_BLOCKS in *; lia).
  assert (declared_size f <= BLOCK_SIZE * Z.of_nat (Z.to_nat MAX_FILE_BLOCKS)) as H3
    by (unfold MAX_FILE_SIZE, BLOCK_SIZE, MAX_FILE_BLOCKS in *; lia).
  destruct (put_copy_spec _ st f i (declared_size f) 0 0 Hwf Hrange
              ltac:(lia) ltac:(lia) H1 H2 H3) as (s & r & Heq & Hwf1 & Hr).
  rewrite Hcopy in Heq. injection Heq as <- <-. destruct Hr as [Hk _].
  rewrite Z.add_0_l in Hk.
  destruct (put_copy_first_fit _ st f i (declared_size f) 0 0 st1 k Hwf Hrange
              ltac:(lia) ltac:(lia) H1 H2 H3 Hcopy) as [Hblk Hfi].
  rewrite Z.sub_0_r in Hblk, Hfi. rewrite <- Hk.
  pose proof (nblocks_bounds _ Hnn) as Hnb. rewrite <- Hk in Hnb.
  assert (0 <= k <= 48) as Hk48
    by (unfold MAX_FILE_SIZE, BLOCK_SIZE in *; lia).
  pose proof (wf_entry _ _ _ Hwf1 He1) as [_ Hbl1].
  assert (forall p : nat, (p < Z.to_nat k)%nat ->
                          blocks e1 !! p = free_indices st !! p) as Hsame.
  { intros p Hp. specialize (Hblk p ltac:(lia)).
    unfold block_at in Hblk. rewrite He1, Z.add_0_l, nth_z_of_nat in Hblk. done. }
  assert (Z.to_nat k <= length (free_indices st))%nat as Hlen.
  { destruct (decide (k = 0)) as [->|Hk0]; [simpl; lia|].
    specialize (Hsame (Z.to_nat k - 1)%nat ltac:(lia)).
    destruct (lookup_lt_is_Some_2 (blocks e1) (Z.to_nat k - 1)) as [b Hb]; [lia|].
    rewrite Hb in Hsame. symmetry in Hsame. apply lookup_lt_Some in Hsame. lia. }
  assert (free_indices (mkFS (upd_z (directory st1) i
                                    (fst (put_finish e1 k name (declared_size f) now)))
                             (file_data st1) (used_space st1)) =
          drop (Z.to_nat k) (free_indices st)) as Hfi' by exact Hfi.
  split; [done|]. split; [|split; [done|]].
  - exists (fst (put_finish e1 k name (declared_size f) now)). split.
    + simpl directory. apply nth_z_upd_eq.
      apply wf_iff in Hwf1 as (Hd1 & _). unfold DIRECTORY_SIZE in *. lia.
    + unfold put_finish. destruct (memcpy _ _ _) as [fn pst]. cbn [fst blocks].
      rewrite fill_negative_spec by (unfold MAX_FILE_BLOCKS; lia). f_equal.
      apply list_eq. intros p. destruct (decide (p < Z.to_nat k)%nat) as [Hp|Hp].
      * rewrite !lookup_take_lt by lia. by apply Hsame.
      * rewrite !lookup_take_ge by lia. done.
  - assert (wf (mkFS (upd_z (directory st1) i
                            (fst (put_finish e1 k name (declared_size f) now)))
                     (file_data st1) (used_space st1))) as Hwf'.
    { pose proof (put_run st name host now Hwf) as Hrun. rewrite Hput in Hrun.
      destruct Hrun as [_ (f0 & bs & _ & Hpost)]. by destruct Hpost. }
    rewrite !disk_availability_count by done.
    rewrite <- !free_indices_from_length with (c := 0).
    fold (free_indices st).
    change (free_indices_from (used_space (mkFS _ (file_data st1) (used_space st1))) 0)
      with (free_indices st1).
    rewrite Hfi, length_drop. unfold BLOCK_SIZE. lia.
Qed.

Lemma put_takes_lowest_free_blocks_witness :
  (blocks <$> nth_z (directory one_file) 0) = Some (0 :: replicate 47 (-1)) /\
  disk_availability one_file = disk_availability init - 2048.
Proof.
  destruct (put_takes_lowest_free_blocks init "a"
              (mkHostFile [x01; x02] (fun _ => false)) (host_file "a" [x01; x02])
              0 one_file [])
    as (_ & (e' & He' & Hbl) & _ & Hda).
  - vm_compute. reflexivity.
  - reflexivity.
  - unfold one_file. apply outcome_fs_msg. vm_compute. reflexivity.
  - split.
    + assert (get_new_file_entry init = 0) as Hz by (vm_compute; reflexivity).
      rewrite Hz in He'. rewrite He'. simpl fmap. rewrite Hbl.
      vm_compute. reflexivity.
    + rewrite Hda. vm_compute. reflexivity.
Defined.

(** ** [put], [delete] and [get] in sequence *)

Lemma nth_z_ext {A} (l1 l2 : list A) :
  (forall b, nth_z l1 b = nth_z l2 b) -> l1 = l2.
Proof.
  intros H. apply list_eq. intros i. specialize (H (Z.of_nat i)).
  by rewrite !nth_z_of_nat in H.
Qed.

(** The slot found by [get_new_file_entry] depends on the [used] fields only. *)
Lemma new_file_entry_from_used dir1 : forall dir2 c,
  map used dir1 = map used dir2 ->
  new_file_entry_from dir1 c = new_file_entry_from dir2 c.
Proof.
  induction dir1 as [|e1 dir1 IH]; intros [|e2 dir2] c Hmap; simpl in *; try done.
  injection Hmap as -> Hmap. destruct (used e2 =? 0); [done | by apply IH].
Qed.

(** X4.  [put] then [del] gives the blocks back.  After a [put] that stored
    a file of at most 47 blocks under a name that no lower slot holds,
    [delete] of that name ends without message, and [used_space] — hence
    [disk_availability] — and the slot that the next [put] will take are
    what they were before the [put]. *)
Theorem put_then_delete_restores_pool st name f host now st' past :
  wf st -> host name = Some f ->
  (forall j e0, 0 <= j < get_new_file_entry st ->
                nth_z (directory st) j = Some e0 -> stored_name e0 <> name) ->
  put st (Some name) host now = Ok (st', PutStored past) ->
  declared_size f <= 47 * BLOCK_SIZE ->
  exists st'',
    delete st' (Some name) = Ok (st'', DelDone) /\
    used_space st'' = used_space st /\
    disk_availability st'' = disk_availability st /\
    get_new_file_entry st'' = get_new_file_entry st.
Proof.
  intros Hwf Hf Hfirst Hput Hsmall.
  pose proof (put_run st name host now Hwf) as Hrun. rewrite Hput in Hrun.
  destruct Hrun as [_ (f' & bs & Hf' & Hpost)].
  rewrite Hf in Hf'. injection Hf' as <-.
  destruct (put_post_entry _ _ _ _ _ _ Hwf Hpost) as (e & He & Hu & He' & Hname & Hoth).
  destruct Hpost as [_ Hsz _ Hslot Hcount (e0 & He0 & _ & Hdir) _ Htaken Hother _ Hwf'].
  rewrite He in He0. injection He0 as <-.
  pose proof (declared_size_nonneg f) as Hnn.
  pose proof (nblocks_bounds _ Hnn) as Hnb.
  assert (Forall (fun b => 0 <= b < TOTAL_BLOCKS) bs) as Hrange.
  { apply Forall_forall. intros b Hb. destruct (Htaken b Hb) as [H0 _].
    apply nth_z_bound in H0. apply wf_iff in Hwf as (_ & _ & _ & _ & Hu').
    unfold TOTAL_BLOCKS. lia. }
  set (E := stored_entry e name (declared_size f) now bs) in *.
  assert (owned (blocks E) = bs) as Hown.
  { unfold E, stored_entry. cbn [blocks]. apply owned_app_negative.
    eapply Forall_impl; [exact Hrange|]. simpl. lia. }
  destruct (delete_run st' name (get_new_file_entry st) E Hwf' He' Hname)
    as [Hok _].
  { intros j e1 Hj Hl. rewrite Hoth in Hl by lia. eauto. }
  { rewrite Hown. intros b Hb. rewrite Forall_forall in Hrange. by apply Hrange. }
  rewrite Hown in Hok.
  destruct Hok as (st'' & Hdel & Hwf'' & Hdir'' & Hin & Hout);
    [unfold BLOCK_SIZE in *; lia|].
  exists st''. split; [done|].
  assert (used_space st'' = used_space st) as Hus.
  { apply nth_z_ext. intros b. destruct (decide (b ∈ bs)) as [Hb|Hb].
    - destruct (Hin b Hb) as [-> _]. by destruct (Htaken b Hb) as [-> _].
    - destruct (Hout b Hb) as [-> _]. by destruct (Hother b Hb) as [-> _]. }
  split; [done|]. split.
  - unfold disk_availability. by rewrite Hus.
  - unfold get_new_file_entry. apply new_file_entry_from_used.
    rewrite Hdir'', Hdir, list_insert_insert_eq.
    pose proof (nth_z_bound _ _ _ He) as Hir.
    apply nth_z_Some in He as [_ He].
    apply list_eq. intros j. rewrite !list_lookup_fmap.
    destruct (decide (j = Z.to_nat (get_new_file_entry st))) as [->|Hj].
    + rewrite list_lookup_insert_eq by lia. rewrite He. simpl. by rewrite Hu.
    + by rewrite list_lookup_insert_ne.
Qed.

Lemma put_then_delete_restores_pool_witness :
  exists st'',
    delete one_file (Some "a"%string) = Ok (st'', DelDone) /\
    used_space st'' = used_space init.
Proof.
  destruct (put_then_delete_restores_pool init "a"
              (mkHostFile [x01; x02] (fun _ => false)) (host_file "a" [x01; x02])
              0 one_file [])
    as (st'' & Hdel & Hus & _).
  - vm_compute. reflexivity.
  - reflexivity.
  - intros j e0 Hj.
    assert (get_new_file_entry init = 0) as Hz by (vm_compute; reflexivity).
    rewrite Hz in Hj. lia.
  - unfold one_file. apply outcome_fs_msg. vm_compute. reflexivity.
  - vm_compute. discriminate.
  - exists st''. split; [exact Hdel | exact Hus].
Defined.

(** X5.  A deleted name is gone.  When one slot only holds the non-empty
    name (with a negative entry in its block list behind valid block
    numbers), [delete] of the name ends without message; afterwards [get]
    and a second [delete] of the name both report "File not found", and the
    second [delete] changes nothing: no block is freed twice. *)
Theorem delete_then_not_found st name index e arg2 :
  wf st -> name <> ""%string ->
  nth_z (directory st) index = Some e -> stored_name e = name ->
  (forall j e', j <> index -> nth_z (directory st) j = Some e' ->
                stored_name e' <> name) ->
  (forall b, b ∈ owned (blocks e) -> b < TOTAL_BLOCKS) ->
  (length (owned (blocks e)) < 48)%nat ->
  exists st',
    delete st (Some name) = Ok (st', DelDone) /\
    get st' (Some name) arg2 = Ok GetNotFound /\
    delete st' (Some name) = Ok (st', DelNotFound).
Proof.
  intros Hwf Hne He Hname Huniq Hown Hlt.
  destruct (delete_run st name index e Hwf He Hname) as [Hok _]; [|done|].
  { intros j e' Hj. apply Huniq. lia. }
  destruct (Hok Hlt) as (st' & Hdel & _ & Hdir & _).
  exists st'. split; [done|]. apply lookup_not_found.
  rewrite Hdir. apply Forall_lookup. intros j e' Hj.
  pose proof (nth_z_bound _ _ _ He) as Hir.
  destruct (decide (j = Z.to_nat index)) as [->|Hji].
  - rewrite list_lookup_insert_eq in Hj by lia. injection Hj as <-.
    rewrite stored_name_deleted; [congruence|].
    by destruct (wf_entry _ _ _ Hwf He).
  - rewrite list_lookup_insert_ne in Hj by done.
    apply (Huniq (Z.of_nat j)); [lia | by rewrite nth_z_of_nat].
Qed.

Lemma delete_then_not_found_witness :
  exists st',
    delete one_file (Some "a"%string) = Ok (st', DelDone) /\
    get st' (Some "a"%string) None = Ok GetNotFound /\
    delete st' (Some "a"%string) = Ok (st', DelNotFound).
Proof.
  apply (delete_then_not_found one_file "a" 0
           (stored_entry zero_inode "a" 2 0 [0]) None).
  - vm_compute. reflexivity.
  - discriminate.
  - vm_compute. reflexivity.
  - vm_compute. reflexivity.
  - intros j e' Hj He'.
    assert (Forall (fun x => stored_name x = ""%string) (drop 1 (directory one_file)))
      as Hrest.
    { apply Forall_forall. intros x Hx.
      assert (drop 1 (directory one_file) = replicate 127 zero_inode) as Heq
        by (vm_compute; reflexivity).
      rewrite Heq in Hx. apply elem_of_replicate in Hx as [-> _]. reflexivity. }
    apply nth_z_Some in He' as [Hj0 He'].
    assert (Z.to_nat j = S (Z.to_nat j - 1)) as Hs by lia.
    rewrite Hs in He'.
    rewrite Forall_forall in Hrest.
    rewrite (Hrest e'); [discriminate|].
    apply (list_elem_of_lookup_2 _ (Z.to_nat j - 1)).
    by rewrite lookup_drop.
  - intros b Hb. vm_compute in Hb.
    apply list_elem_of_singleton in Hb as ->. vm_compute. reflexivity.
  - vm_compute. lia.
Defined.

(** ** [get] stays inside the arrays *)

Lemma get_lookup_range files name : forall c idx,
  get_lookup files name c idx = idx \/
  exists (n : nat) e,
    get_lookup files name c idx = c + Z.of_nat n /\
    files !! n = Some e /\ stored_name e = name.
Proof.
  induction files as [|e files IH]; intros c idx; simpl; [by left|].
  destruct (name_matches e name) eqn:Hm.
  - right. destruct (IH (c + 1) c) as [->|(n & e' & -> & Hn & He')].
    + exists 0%nat, e. split; [lia|]. split; [done|]. by apply name_matches_iff.
    + exists (S n), e'. split; [lia | done].
  - destruct (IH (c + 1) idx) as [->|(n & e' & -> & Hn & He')]; [by left|].
    right. exists (S n), e'. split; [lia | done].
Qed.

(** The copy loop of [get] writes [copy_size] bytes when the block numbers it
    reads are valid. *)
Lemma get_copy_length st e fuel : forall copy_size counter out,
  wf st -> 0 <= counter ->
  copy_size <= BLOCK_SIZE * Z.of_nat fuel ->
  (forall p : nat, counter <= Z.of_nat p < counter + nblocks copy_size ->
     exists b, blocks e !! p = Some b /\ 0 <= b < TOTAL_BLOCKS) ->
  exists out',
    get_copy fuel st e copy_size counter out = Ok out' /\
    Z.of_nat (length out') = Z.of_nat (length out) + Z.max 0 copy_size.
Proof.
  induction fuel as [|fuel IH]; intros copy_size counter out Hwf Hc Hfuel Hblk;
    rewrite get_copy_eq; destruct (Z.gtb_spec copy_size 0) as [Hpos|Hneg];
    try (exists out; split; [done | lia]).
  { unfold BLOCK_SIZE in *. lia. }
  cbv zeta.
  pose proof (nblocks_pos copy_size Hpos) as Hnp.
  pose proof (nblocks_bounds (copy_size - BLOCK_SIZE)) as Hnb.
  assert (0 <= nblocks (copy_size - BLOCK_SIZE)) as Hn0 by (unfold nblocks; lia).
  destruct (Hblk (Z.to_nat counter) ltac:(lia)) as (b & Hb & Hbr).
  assert (nth_z (blocks e) counter = Some b) as -> by (apply nth_z_Some; split; [lia | done]).
  destruct (nth_z_in_range (file_data st) b) as [buf Hbuf].
  { apply wf_iff in Hwf as (_ & _ & Hfd & _). unfold TOTAL_BLOCKS in *. lia. }
  rewrite Hbuf. pose proof (wf_block_len _ _ _ Hwf Hbuf) as Hbl.
  destruct (IH (copy_size - BLOCK_SIZE) (counter + 1)
               (out ++ take (Z.to_nat (if copy_size <? BLOCK_SIZE then copy_size
                                       else BLOCK_SIZE)) buf))
    as (out' & Heq & Hlen); [done | lia | lia | |].
  { intros p Hp. apply Hblk. lia. }
  exists out'. split; [done|]. rewrite Hlen, length_app, length_take, Hbl.
  unfold BLOCK_SIZE in *. destruct (Z.ltb_spec copy_size 2048); lia.
Qed.

(** What [get] returns in a state whose entries are of the two kinds. *)
Lemma get_outcome st arg1 arg2 :
  readable st ->
  get st arg1 arg2 = Ok GetNameMissing /\ arg1 = None \/
  get st arg1 arg2 = Ok GetNotFound /\
    (exists name, arg1 = Some name /\
                  Forall (fun e => stored_name e <> name) (directory st)) \/
  exists name index e out,
    arg1 = Some name /\
    get st arg1 arg2 =
      Ok (GetWritten (match arg2 with None => name | Some n => n end) out) /\
    nth_z (directory st) index = Some e /\ stored_name e = name /\
    Z.of_nat (length out) = size e.
Proof.
  intros [Hwf Hok]. destruct arg1 as [name|]; [|by left]. right.
  destruct (first_match_or_none (directory st) name)
    as [Hnone|(n0 & e0 & Hn0 & He0 & _)].
  { left. split; [|eauto]. by apply lookup_not_found. }
  right. unfold get.
  destruct (get_lookup_range (directory st) name 0 (-1)) as [Hl|(n & e & Hl & Hn & He)].
  { (* a match exists, so the loop does not keep -1 *)
    exfalso. clear -Hl Hn0 He0.
    assert (forall files c idx (k : nat) x,
              files !! k = Some x -> stored_name x = name -> 0 <= c -> idx < c ->
              c <= get_lookup files name c idx) as Hge.
    { induction files as [|y files IH]; intros c idx k x Hk Hx Hc Hidx; [done|].
      simpl. destruct k as [|k]; simpl in Hk.
      - injection Hk as ->. apply name_matches_iff in Hx. rewrite Hx.
        destruct (get_lookup_range files name (c + 1) c) as [->|(m & _ & -> & _)]; lia.
      - specialize (IH (c + 1) (if name_matches y name then c else idx) k x Hk Hx).
        destruct (name_matches y name); lia. }
    specialize (Hge _ 0 (-1) _ _ Hn0 He0). lia. }
  rewrite Hl, Z.add_0_l.
  destruct (Z.ltb_spec (Z.of_nat n) 0); [lia|].
  rewrite nth_z_of_nat, Hn.
  rewrite Forall_forall in Hok.
  pose proof (Hok e (list_elem_of_lookup_2 _ _ _ Hn)) as Heok.
  assert (length (blocks e) = 48%nat) as Hbl.
  { eapply wf_entry; [exact Hwf|]. by rewrite nth_z_of_nat. }
  assert (0 <= size e <= MAX_FILE_SIZE) as Hsz.
  { destruct Heok as [(_ & -> & _)|(_ & _ & Hsz & _)]; [|done].
    unfold MAX_FILE_SIZE. lia. }
  assert (cast_long (size e) = size e) as ->.
  { apply cast_small. unfold MAX_FILE_SIZE in *. lia. }
  destruct (get_copy_length st e (S (Z.to_nat MAX_FILE_BLOCKS)) (size e) 0 [])
    as (out & Heq & Hlen); [done | lia | | |].
  { change (Z.to_nat MAX_FILE_BLOCKS) with 48%nat.
    unfold MAX_FILE_SIZE, BLOCK_SIZE in *. lia. }
  { intros p Hp. destruct Heok as [(_ & H0 & _)|(_ & _ & _ & Hvalid & _)].
    - rewrite H0, nblocks_nonpos in Hp; lia.
    - destruct (lookup_lt_is_Some_2 (blocks e) p) as [b Hb].
      { pose proof (nblocks_bounds (size e) ltac:(lia)).
        unfold MAX_FILE_SIZE, BLOCK_SIZE in *. lia. }
      exists b. split; [done|].
      rewrite Forall_forall in Hvalid. apply Hvalid.
      apply (list_elem_of_lookup_2 _ p). rewrite lookup_take_lt by lia. done. }
  exists name, (Z.of_nat n), e, out.
  rewrite Heq, nth_z_of_nat. simpl length in Hlen.
  split; [done|]. split; [done|]. split; [done|]. split; [done|]. lia.
Qed.

(** The lookup loop of [get] ends on a slot once one holds the name. *)
Lemma get_lookup_finds name : forall files c idx (k : nat) x,
  files !! k = Some x -> stored_name x = name -> 0 <= c -> idx < c ->
  c <= get_lookup files name c idx.
Proof.
  induction files as [|y files IH]; intros c idx k x Hk Hx Hc Hidx; [done|].
  simpl. destruct k as [|k]; simpl in Hk.
  - injection Hk as ->. apply name_matches_iff in Hx. rewrite Hx.
    destruct (get_lookup_range files name (c + 1) c) as [->|(m & _ & -> & _)]; lia.
  - specialize (IH (c + 1) (if name_matches y name then c else idx) k x Hk Hx).
    destruct (name_matches y name); lia.
Qed.

(** The copy loop of [get] on an entry of one of the two kinds. *)
Lemma get_copy_inside st e :
  readable st -> e ∈ directory st ->
  exists out,
    get_copy (S (Z.to_nat MAX_FILE_BLOCKS)) st e (cast_long (size e)) 0 [] = Ok out /\
    Z.of_nat (length out) = size e.
Proof.
  intros [Hwf Hok] Hin. rewrite Forall_forall in Hok.
  pose proof (Hok e Hin) as Heok.
  assert (length (blocks e) = 48%nat) as Hbl.
  { apply wf_iff in Hwf as (_ & Hdw & _). rewrite Forall_forall in Hdw.
    by apply wf_inode_iff, Hdw. }
  assert (0 <= size e <= MAX_FILE_SIZE) as Hsz.
  { destruct Heok as [(_ & -> & _)|(_ & _ & Hsz & _)]; [|done].
    unfold MAX_FILE_SIZE. lia. }
  assert (cast_long (size e) = size e) as ->.
  { apply cast_small. unfold MAX_FILE_SIZE in *. lia. }
  destruct (get_copy_length st e (S (Z.to_nat MAX_FILE_BLOCKS)) (size e) 0 [])
    as (out & Heq & Hlen); [done | lia | | |].
  { change (Z.to_nat MAX_FILE_BLOCKS) with 48%nat.
    unfold MAX_FILE_SIZE, BLOCK_SIZE in *. lia. }
  { intros p Hp. destruct Heok as [(_ & H0 & _)|(_ & _ & _ & Hvalid & _)].
    - rewrite H0, nblocks_nonpos in Hp; lia.
    - destruct (lookup_lt_is_Some_2 (blocks e) p) as [b Hb].
      { pose proof (nblocks_bounds (size e) ltac:(lia)).
        unfold MAX_FILE_SIZE, BLOCK_SIZE in *. lia. }
      exists b. split; [done|].
      rewrite Forall_forall in Hvalid. apply Hvalid.
      apply (list_elem_of_lookup_2 _ p). rewrite lookup_take_lt by lia. done. }
  exists out. split; [done|]. simpl length in Hlen. lia.
Qed.

(** X6.  The two loops of [get] in a state whose entries are of the two
    kinds of [entry_ok] and whose names all end inside [file_name].  The
    lookup loop keeps -1 exactly when no slot holds the name.  Otherwise it
    ends on a slot that holds the name, and the copy loop that follows reads
    only entries of that slot's block list and blocks of the pool, no index
    outside [blocks] or [file_data], and hands to [fwrite] exactly [size]
    bytes. *)
Theorem get_writes_size_bytes st name :
  readable st -> terminated st ->
  (get_lookup (directory st) name 0 (-1) = -1 /\
   Forall (fun e => stored_name e <> name) (directory st)) \/
  (exists index e out,
     get_lookup (directory st) name 0 (-1) = index /\
     nth_z (directory st) index = Some e /\ stored_name e = name /\
     get_copy (S (Z.to_nat MAX_FILE_BLOCKS)) st e (cast_long (size e)) 0 [] = Ok out /\
     Z.of_nat (length out) = size e).
Proof.
  intros Hr _.
  destruct (first_match_or_none (directory st) name)
    as [Hnone|(n0 & e0 & Hn0 & He0 & _)].
  { left. split; [|done]. apply get_lookup_none.
    eapply Forall_impl; [exact Hnone|]. intros e. apply name_matches_false. }
  right.
  destruct (get_lookup_range (directory st) name 0 (-1)) as [Hl|(n & e & Hl & Hn & He)].
  { pose proof (get_lookup_finds name _ 0 (-1) _ _ Hn0 He0). lia. }
  destruct (get_copy_inside st e Hr (list_elem_of_lookup_2 _ _ _ Hn))
    as (out & Hcopy & Hlen).
  exists (Z.of_nat n), e, out. rewrite Hl, nth_z_of_nat.
  split; [f_equal; lia|]. done.
Qed.

Lemma get_writes_size_bytes_witness :
  exists index e out,
    get_lookup (directory one_file) "a" 0 (-1) = index /\
    nth_z (directory one_file) index = Some e /\ stored_name e = "a"%string /\
    get_copy (S (Z.to_nat MAX_FILE_BLOCKS)) one_file e (cast_long (size e)) 0 [] =
      Ok out /\
    Z.of_nat (length out) = size e.
Proof.
  assert (directory one_file =
          stored_entry zero_inode "a" 2 0 [0] :: replicate 127 zero_inode) as Hdir
    by (vm_compute; reflexivity).
  assert (readable one_file) as Hr.
  { split; [vm_compute; reflexivity|]. rewrite Hdir.
    constructor.
    - right. split; [reflexivity|]. split; [vm_compute; discriminate|].
      split; [vm_compute; split; discriminate|].
      split; [|vm_compute; reflexivity].
      vm_compute. constructor; [split; [discriminate | reflexivity] | constructor].
    - apply Forall_forall. intros e He. apply elem_of_replicate in He as [-> _].
      left. split; [done|]. split; [done|]. reflexivity. }
  assert (terminated one_file) as Ht.
  { unfold terminated. rewrite Hdir. constructor.
    - apply (list_elem_of_lookup_2 _ 1%nat). vm_compute. reflexivity.
    - apply Forall_forall. intros e He. apply elem_of_replicate in He as [-> _].
      apply (list_elem_of_lookup_2 _ 0%nat). vm_compute. reflexivity. }
  destruct (get_writes_size_bytes one_file "a" Hr Ht) as [[H _]|H].
  - vm_compute in H. discriminate H.
  - exact H.
Defined.

(** The copy loop of [put] changes, in the directory, the block list of its
    slot only. *)
Lemma put_copy_directory fuel : forall st f idx copy_size offset counter st1 r,
  put_copy fuel st f idx copy_size offset counter = Ok (st1, r) ->
  exists bl,
    directory st1 = alter (fun e => with_blocks e (bl e)) (Z.to_nat idx) (directory st).
Proof.
  induction fuel as [|fuel IH]; intros st f idx copy_size offset counter st1 r;
    rewrite put_copy_eq; destruct (copy_size >? 0);
    try (intros [= <- <-]; exists blocks; symmetry; apply list_alter_id;
         intros e; apply with_blocks_id).
  cbv zeta. destruct (nth_z (file_data st) (get_free_block st)) as [buf|]; [|done].
  destruct (fread_block f offset buf) as [[buf' bytes] eof].
  destruct ((bytes =? 0) && negb eof).
  { intros [= <- <-]. exists blocks. symmetry. apply list_alter_id.
    intros e. apply with_blocks_id. }
  destruct ((counter <? 0) || (MAX_FILE_BLOCKS <=? counter)); [done|].
  intros Hrun. apply IH in Hrun as (bl & Hdir). simpl directory in Hdir.
  rewrite list_alter_alter_eq in Hdir.
  exists (fun e => bl (with_blocks e (upd_z (blocks e) counter (get_free_block st)))).
  rewrite Hdir. apply list_alter_ext; [|done]. intros e _. by destruct e.
Qed.

(** So does the clearing loop of [delete]; it keeps the declared shape. *)
Lemma delete_clear_directory fuel : forall st index counter block_num st1,
  wf st -> delete_clear fuel st index counter block_num = Ok st1 ->
  wf st1 /\
  exists bl,
    directory st1 = alter (fun e => with_blocks e (bl e)) (Z.to_nat index) (directory st).
Proof.
  induction fuel as [|fuel IH]; intros st index counter block_num st1 Hwf;
    rewrite delete_clear_eq; destruct (block_num >? -1);
    try discriminate;
    try (intros [= <-]; split; [done|]; exists blocks; symmetry;
         apply list_alter_id; intros e; apply with_blocks_id).
  destruct (nth_z (file_data st) block_num) as [buf|] eqn:Hbuf; [|done].
  cbv zeta.
  set (st2 := mkFS (alter (fun e => with_blocks e (upd_z (blocks e) counter UNSET))
                          (Z.to_nat index) (directory st))
                   (upd_z (file_data st) block_num (upd_z buf 0 x00))
                   (upd_z (used_space st) block_num UNSET)).
  destruct (block_at st2 index (counter + 1)) as [next|]; [|done].
  intros Hrun. apply IH in Hrun as (Hwf1 & bl & Hdir).
  - split; [done|]. simpl directory in Hdir. rewrite list_alter_alter_eq in Hdir.
    exists (fun e => bl (with_blocks e (upd_z (blocks e) counter UNSET))).
    rewrite Hdir. apply list_alter_ext; [|done]. intros e _. by destruct e.
  - pose proof Hwf as Hwf'. apply wf_iff in Hwf' as (Hd & Hdw & Hfd & Hfw & Hu).
    apply wf_mk.
    + by rewrite length_alter.
    + apply Forall_alter; [done|]. intros e0 _ He0. apply with_blocks_wf; [done|].
      by rewrite length_upd_z.
    + by rewrite length_upd_z.
    + apply Forall_upd_z; [done|]. rewrite length_upd_z.
      eapply wf_block_len; eauto.
    + by rewrite length_upd_z.
Qed.

Lemma entry_ok_unused e bl :
  entry_ok e -> used e = 0 -> entry_ok (with_blocks e bl).
Proof.
  intros [H|(Hu & _)] Hu0; [by left|]. rewrite Hu in Hu0. done.
Qed.

Lemma put_keeps_readable st arg1 host now st' m :
  readable st -> put st arg1 host now = Ok (st', m) -> readable st'.
Proof.
  intros [Hwf Hok] Hput.
  destruct arg1 as [name|]; [|by injection Hput as <- <-].
  pose proof (put_run st name host now Hwf) as Hrun. rewrite Hput in Hrun.
  destruct m; try done; try (by destruct Hrun as [-> _]).
  - (* read error *)
    destruct Hrun as (Hwf' & _). split; [done|].
    revert Hput. unfold put.
    destruct (strlen name >? MAX_FILE_NAME); [done|].
    destruct (negb (regexec_file_name name)); [done|].
    destruct (host name) as [f|]; [|done].
    destruct (_ >? MAX_FILE_SIZE); [done|].
    destruct (_ >? cast_ulong (disk_availability st)); [done|].
    destruct (Z.eqb_spec (get_new_file_entry st) (-1)) as [|Hslot]; [done|].
    destruct (put_copy _ _ _ _ _ _ _) as [[st1 [k|]]|t] eqn:Hcopy; [|  |done].
    { destruct (nth_z _ _); [destruct (put_finish _ _ _ _ _)|]; done. }
    intros [= <-].
    destruct (put_copy_directory _ _ _ _ _ _ _ _ _ Hcopy) as (bl & ->).
    destruct (get_new_file_entry_found st Hslot) as (e & He & Hu & _).
    apply nth_z_Some in He as [_ He].
    apply Forall_alter; [done|]. intros x Hx Hxok.
    rewrite He in Hx. injection Hx as <-. by apply entry_ok_unused.
  - (* stored *)
    destruct Hrun as [_ (f & bs & Hf & Hpost)].
    destruct Hpost as [Hre Hsz _ _ Hcount (e & He & Hu & Hdir) _ Htaken _ _ Hwf'].
    split; [done|]. rewrite Hdir. apply Forall_insert; [done|].
    pose proof (declared_size_nonneg f) as Hnn.
    right. split; [done|]. split.
    { rewrite stored_name_put; [|by destruct (wf_entry _ _ _ Hwf He) | done].
      intros ->. by apply regexec_length in Hre. }
    cbn [size blocks stored_entry]. split; [lia|].
    rewrite <- Hcount, Nat2Z.id, take_app_length, drop_app_length.
    split; [|done].
    apply Forall_forall. intros b Hb. destruct (Htaken b Hb) as [H0 _].
    apply nth_z_bound in H0. apply wf_iff in Hwf as (_ & _ & _ & _ & Hu').
    unfold TOTAL_BLOCKS. lia.
Qed.

Lemma delete_keeps_readable st arg1 st' m :
  readable st -> delete st arg1 = Ok (st', m) -> readable st'.
Proof.
  intros [Hwf Hok]. unfold delete. destruct arg1 as [name|]; [|done].
  destruct (_ <? 0); [by intros [= <- <-]|].
  destruct (block_at st _ 0) as [b0|]; [|done].
  destruct (delete_clear _ _ _ _ _) as [st1|t] eqn:Hclear; [|done].
  intros [= <- <-].
  destruct (delete_clear_directory _ _ _ _ _ _ Hwf Hclear) as (Hwf1 & bl & Hdir).
  split.
  - apply wf_iff in Hwf1 as (Hd1 & Hdw1 & Hfd1 & Hfw1 & Hu1).
    apply wf_mk; try done.
    + by rewrite length_alter.
    + apply Forall_alter; [done|]. intros e0 _ He0wf.
      apply wf_inode_iff in He0wf as [Ha Hb]. apply wf_inode_iff.
      unfold delete_finish. cbn [blocks file_name].
      by rewrite length_upd_z.
  - simpl directory. rewrite Hdir, list_alter_alter_eq.
    apply Forall_alter; [done|]. intros e He _. left.
    split; [done|]. split; [done|].
    unfold compose, delete_finish, stored_name. cbn [file_name with_blocks].
    assert (length (file_name e) = 255%nat) as Hfn.
    { apply wf_iff in Hwf as (_ & Hdw & _). rewrite Forall_forall in Hdw.
      apply wf_inode_iff, Hdw. eapply list_elem_of_lookup_2; eauto. }
    destruct (file_name e) as [|c l]; [done | reflexivity].
Qed.

Lemma readable_init : readable init.
Proof.
  split; [vm_compute; reflexivity|].
  apply Forall_forall. intros e He. apply elem_of_replicate in He as [-> _].
  left. split; [done|]. split; [done|]. reflexivity.
Qed.

Lemma run_keeps_readable ops : forall st st' msgs,
  readable st -> run st ops = Ok (st', msgs) -> readable st'.
Proof.
  induction ops as [|op ops IH]; intros st st' msgs Hr Hrun; simpl in Hrun.
  - by injection Hrun as <- <-.
  - destruct (step st op) as [[st1 m]|t] eqn:Hstep; [|done].
    destruct (run st1 ops) as [[st2 ms]|t] eqn:Hrest; [|done].
    injection Hrun as <- <-. apply (IH st1 st2 ms); [|done].
    destruct op as [arg1 host now|arg1]; simpl in Hstep.
    + destruct (put st arg1 host now) as [[s pm]|t] eqn:Hput; [|done].
      injection Hstep as <- <-. by apply (put_keeps_readable st arg1 host now s pm).
    + destruct (delete st arg1) as [[s dm]|t] eqn:Hdel; [|done].
      injection Hstep as <- <-. by apply (delete_keeps_readable st arg1 s dm).
Qed.

(** X7.  After any sequence of [put] and [del] commands from the empty file
    system that ran to its end — whatever the names, the host files and
    their read errors, the blocks of a failed [put] included — every entry
    of the directory is of one of the two kinds of [entry_ok]; so on
    whichever slot the lookup of [get] ends, its copy loop reads only
    entries of the block list and blocks of the pool, no index outside
    [blocks] or [file_data], and hands to [fwrite] exactly [size] bytes. *)
Theorem get_safe_after_any_run ops st' msgs index e :
  run init ops = Ok (st', msgs) ->
  nth_z (directory st') index = Some e ->
  readable st' /\
  exists out,
    get_copy (S (Z.to_nat MAX_FILE_BLOCKS)) st' e (cast_long (size e)) 0 [] = Ok out /\
    Z.of_nat (length out) = size e.
Proof.
  intros Hrun He.
  assert (readable st') as Hr by (eapply run_keeps_readable; [apply readable_init | done]).
  split; [done|]. apply get_copy_inside; [done|].
  apply nth_z_Some in He as [_ He]. eapply list_elem_of_lookup_2; eauto.
Qed.

Lemma get_safe_after_any_run_witness :
  exists e out,
    nth_z (directory (fs_of (run init error_ops))) 1 = Some e /\
    get_copy (S (Z.to_nat MAX_FILE_BLOCKS)) (fs_of (run init error_ops)) e
             (cast_long (size e)) 0 [] = Ok out /\
    Z.of_nat (length out) = size e.
Proof.
  assert (nth_z (directory (fs_of (run init error_ops))) 1 =
          Some (with_blocks zero_inode (1 :: replicate 47 0))) as He
    by (vm_compute; reflexivity).
  destruct (get_safe_after_any_run error_ops (fs_of (run init error_ops))
              [MPut (PutStored []); MPut PutReadError] 1 _
              ltac:(apply outcome_fs_msg; vm_compute; reflexivity) He)
    as (_ & out & Hout).
  exists (with_blocks zero_inode (1 :: replicate 47 0)), out.
  split; [exact He | exact Hout].
Defined.

(** ** The listing *)

Lemma list_from_app l1 l2 : list_from (l1 ++ l2) = list_from l1 ++ list_from l2.
Proof.
  induction l1 as [|e l1 IH]; simpl; [done|].
  destruct (used e =? SET); simpl; by rewrite IH.
Qed.

Lemma list_from_split dir (i : nat) e :
  dir !! i = Some e ->
  list_from dir = list_from (take i dir) ++ list_from [e] ++ list_from (drop (S i) dir).
Proof.
  intros Hi. rewrite <- !list_from_app. f_equal. simpl.
  symmetry. by apply take_drop_middle.
Qed.

Lemma list_from_insert dir (i : nat) e e' :
  dir !! i = Some e ->
  list_from (<[i := e']> dir) =
    list_from (take i dir) ++ list_from [e'] ++ list_from (drop (S i) dir).
Proof.
  intros Hi. pose proof (lookup_lt_Some _ _ _ Hi) as Hlt.
  rewrite (list_from_split (<[i := e']> dir) i e')
    by (by apply list_lookup_insert_eq).
  rewrite take_insert_ge by lia. rewrite drop_insert_lt by lia. done.
Qed.

Lemma elem_of_list_from dir line :
  line ∈ list_from dir <-> exists e, e ∈ dir /\ used e = SET /\ line = list_line e.
Proof.
  induction dir as [|x dir IH]; simpl.
  - split; [by intros ?%elem_of_nil | by intros (e & ?%elem_of_nil & _)].
  - destruct (Z.eqb_spec (used x) SET) as [Hx|Hx].
    + rewrite elem_of_cons, IH. split.
      * intros [->|(e & He & Hu & ->)]; [exists x | exists e];
          (split; [by constructor | done]).
      * intros (e & [->|He]%elem_of_cons & Hu & ->); [by left | right; eauto].
    + rewrite IH. split.
      * intros (e & He & Hu & ->). exists e. split; [by constructor | done].
      * intros (e & [->|He]%elem_of_cons & Hu & ->); [done | eauto].
Qed.

(** X8.  A stored file appears in the listing.  A [put] that stored a file
    adds one line — its size, the time of the call and its name — to the
    output of [list], at the place of the slot it took among the used slots;
    the other lines stay; and [list] does not report "No files found". *)
Theorem list_after_put st name f host now st' past :
  wf st -> host name = Some f ->
  put st (Some name) host now = Ok (st', PutStored past) ->
  let i := Z.to_nat (get_new_file_entry st) in
  list_from (directory st) =
    list_from (take i (directory st)) ++ list_from (drop (S i) (directory st)) /\
  list_from (directory st') =
    list_from (take i (directory st)) ++
    (declared_size f, now, name) :: list_from (drop (S i) (directory st)) /\
  list_cmd st' = ListLines (list_from (directory st')).
Proof.
  intros Hwf Hf Hput i.
  pose proof (put_run st name host now Hwf) as Hrun. rewrite Hput in Hrun.
  destruct Hrun as [_ (f' & bs & Hf' & Hpost)].
  rewrite Hf in Hf'. injection Hf' as <-.
  destruct (put_post_entry _ _ _ _ _ _ Hwf Hpost) as (e & He & Hu & _ & Hname & _).
  destruct Hpost as [_ _ _ _ _ (e0 & He0 & _ & Hdir) _ _ _ _ _].
  rewrite He in He0. injection He0 as <-.
  apply nth_z_Some in He as [_ He]. fold i in He, Hdir.
  assert (list_from (directory st') =
          list_from (take i (directory st)) ++
          (declared_size f, now, name) :: list_from (drop (S i) (directory st))) as Hl.
  { rewrite Hdir, (list_from_insert _ _ e) by done. simpl.
    change (SET =? SET) with true. cbv iota. unfold list_line at 1.
    cbn [size time_created stored_entry]. by rewrite Hname. }
  split; [|split; [done|]].
  - rewrite (list_from_split _ _ e He). simpl. rewrite Hu. done.
  - unfold list_cmd. rewrite Hl, length_app. simpl length.
    destruct (Z.ltb_spec (Z.of_nat (length (list_from (take i (directory st))) +
                                    S (length (list_from (drop (S i) (directory st))))))
                         1); [lia | done].
Qed.

Lemma list_after_put_witness :
  list_cmd one_file = ListLines [(2, 0, "a"%string)].
Proof.
  destruct (list_after_put init "a"
              (mkHostFile [x01; x02] (fun _ => false)) (host_file "a" [x01; x02])
              0 one_file [])
    as (_ & Hl & ->).
  - vm_compute. reflexivity.
  - reflexivity.
  - unfold one_file. apply outcome_fs_msg. vm_compute. reflexivity.
  - rewrite Hl. vm_compute. reflexivity.
Defined.

(** X9.  A deleted file leaves the listing.  When [delete] ends without
    message on the first slot that holds the name, and that slot was used,
    the output of [list] loses the line of that slot and keeps the others. *)
Theorem list_after_delete st name index e :
  wf st -> nth_z (directory st) index = Some e -> stored_name e = name ->
  (forall j e', 0 <= j < index -> nth_z (directory st) j = Some e' ->
                stored_name e' <> name) ->
  (forall b, b ∈ owned (blocks e) -> b < TOTAL_BLOCKS) ->
  (length (owned (blocks e)) < 48)%nat ->
  used e = SET ->
  exists st',
    delete st (Some name) = Ok (st', DelDone) /\
    list_from (directory st) =
      list_from (take (Z.to_nat index) (directory st)) ++
      (size e, time_created e, name) ::
      list_from (drop (S (Z.to_nat index)) (directory st)) /\
    list_from (directory st') =
      list_from (take (Z.to_nat index) (directory st)) ++
      list_from (drop (S (Z.to_nat index)) (directory st)).
Proof.
  intros Hwf He Hname Hfirst Hown Hlt Hu.
  destruct (delete_run st name index e Hwf He Hname Hfirst Hown) as [Hok _].
  destruct (Hok Hlt) as (st' & Hdel & _ & Hdir & _).
  apply nth_z_Some in He as [_ He].
  exists st'. split; [done|]. split.
  - rewrite (list_from_split _ _ e He). simpl. rewrite Hu.
    change (SET =? SET) with true. cbv iota. unfold list_line. by rewrite Hname.
  - rewrite Hdir, (list_from_insert _ _ e) by done. done.
Qed.

Lemma list_after_delete_witness :
  exists st',
    delete one_file (Some "a"%string) = Ok (st', DelDone) /\
    list_from (directory st') = [].
Proof.
  destruct (list_after_delete one_file "a" 0 (stored_entry zero_inode "a" 2 0 [0]))
    as (st' & Hdel & _ & Hl).
  - vm_compute. reflexivity.
  - vm_compute. reflexivity.
  - vm_compute. reflexivity.
  - intros j e0 Hj. lia.
  - intros b Hb. vm_compute in Hb.
    apply list_elem_of_singleton in Hb as ->. vm_compute. reflexivity.
  - vm_compute. lia.
  - reflexivity.
  - exists st'. split; [exact Hdel|]. rewrite Hl. vm_compute. reflexivity.
Defined.

(** X10.  [list] and [get] agree.  In a state whose entries are of the two
    kinds, [list] prints a line with a given non-empty name exactly when
    [get] of that name writes a file. *)
Theorem list_agrees_with_get st name arg2 :
  readable st -> name <> ""%string ->
  (exists sz t, (sz, t, name) ∈ list_from (directory st)) <->
  (exists cn out, get st (Some name) arg2 = Ok (GetWritten cn out)).
Proof.
  intros Hr Hne. pose proof Hr as [Hwf Hok]. rewrite Forall_forall in Hok.
  split.
  - intros (sz & t & (e & He & Hu & Hline)%elem_of_list_from).
    injection Hline as _ _ Hn.
    destruct (get_outcome st (Some name) arg2 Hr)
      as [[_ H]|[[_ (n & [= <-] & Hnone)]|(n & i & e' & out & [= <-] & Hget & _)]];
      [done| |eauto].
    rewrite Forall_forall in Hnone. by destruct (Hnone e He).
  - intros (cn & out & Hget).
    destruct (get_outcome st (Some name) arg2 Hr)
      as [[_ H]|[[H _]|(n & i & e & out' & [= <-] & _ & He & Hn & _)]];
      [done | congruence |].
    assert (e ∈ directory st) as Hin.
    { apply nth_z_Some in He as [_ He]. eapply list_elem_of_lookup_2; eauto. }
    destruct (Hok e Hin) as [(_ & _ & H0)|(Hu & _)]; [congruence|].
    exists (size e), (time_created e). apply elem_of_list_from.
    exists e. split; [done|]. split; [done|]. unfold list_line. by rewrite Hn.
Qed.

Lemma list_agrees_with_get_witness :
  (exists sz t, (sz, t, "b"%string) ∈ list_from (directory (fs_of (run init error_ops)))) <->
  (exists cn out,
     get (fs_of (run init error_ops)) (Some "b"%string) None = Ok (GetWritten cn out)).
Proof.
  apply list_agrees_with_get; [|discriminate].
  apply (run_keeps_readable error_ops init _ [MPut (PutStored []); MPut PutReadError]).
  - apply readable_init.
  - apply outcome_fs_msg. vm_compute. reflexivity.
Defined.

(** ** The command line *)

Lemma words_space s : words (String " " s) = words s.
Proof. reflexivity. Qed.

Lemma words_scan s : forall c,
  Ascii.eqb c " " = false ->
  words (String c s) =
    fst (scan_token (String c s)) :: words (snd (scan_token (String c s))).
Proof.
  induction s as [|d s IH]; intros c Hc.
  - simpl. by rewrite Hc.
  - change (words (String c (String d s))) with
      (if Ascii.eqb c " " then words (String d s)
       else if Ascii.eqb d " " then String c EmptyString :: words (String d s)
       else match words (String d s) with
            | w :: ws => String c w :: ws
            | [] => [String c EmptyString]
            end).
    change (scan_token (String c (String d s))) with
      (if Ascii.eqb c " " then (EmptyString, String d s)
       else let (token, saved) := scan_token (String d s) in (String c token, saved)).
    rewrite Hc. destruct (Ascii.eqb d " ") eqn:Hd.
    + apply Ascii.eqb_eq in Hd as ->. reflexivity.
    + rewrite (IH d Hd). by destruct (scan_token (String d s)).
Qed.

Lemma words_skip_delim s : words (skip_delim s) = words s.
Proof.
  induction s as [|c s IH]; [done|].
  simpl skip_delim. destruct (Ascii.eqb c " ") eqn:Hc; [|done].
  apply Ascii.eqb_eq in Hc as ->. by rewrite words_space.
Qed.

Lemma skip_delim_head s c rest :
  skip_delim s = String c rest -> Ascii.eqb c " " = false.
Proof.
  induction s as [|d s IH]; simpl; [done|].
  destruct (Ascii.eqb d " ") eqn:Hd; [done|]. by intros [= <- <-].
Qed.

(** [strtok] hands out the words one by one. *)
Lemma strtok_words s :
  match words s with
  | [] => strtok s = (None, EmptyString)
  | w :: ws => exists saved, strtok s = (Some w, saved) /\ words saved = ws
  end.
Proof.
  unfold strtok. rewrite <- (words_skip_delim s).
  destruct (skip_delim s) as [|c rest] eqn:Hs; [done|].
  pose proof (skip_delim_head _ _ _ Hs) as Hc.
  rewrite (words_scan rest c Hc).
  destruct (scan_token (String c rest)) as [token saved]. by exists saved.
Qed.

Lemma words_nonempty s : Forall (fun w => w <> EmptyString) (words s).
Proof.
  induction s as [|c s IH]; [constructor|].
  destruct (Ascii.eqb c " ") eqn:Hc.
  - apply Ascii.eqb_eq in Hc as ->. by rewrite words_space.
  - revert IH. change (words (String c s)) with
      (if Ascii.eqb c " " then words s
       else match s with
            | EmptyString => [String c EmptyString]
            | String d _ =>
                if Ascii.eqb d " " then String c EmptyString :: words s
                else match words s with
                     | w :: ws => String c w :: ws
                     | [] => [String c EmptyString]
                     end
            end).
    rewrite Hc. destruct s as [|d s']; [by repeat constructor|].
    destruct (Ascii.eqb d " "); [by constructor|].
    destruct (words (String d s')) as [|w ws]; [by repeat constructor|].
    intros H. apply Forall_cons in H as [_ H]. by constructor.
Qed.

Lemma words_no_space s :
  Forall (fun w => " "%char ∉ list_ascii_of_string w) (words s).
Proof.
  induction s as [|c s IH]; [constructor|].
  destruct (Ascii.eqb c " ") eqn:Hc.
  - apply Ascii.eqb_eq in Hc as ->. by rewrite words_space.
  - assert (" "%char ∉ list_ascii_of_string (String c EmptyString)) as Hone.
    { simpl. intros [Heq|[]%elem_of_nil]%elem_of_cons.
      by rewrite <- Heq, Ascii.eqb_refl in Hc. }
    revert IH. change (words (String c s)) with
      (if Ascii.eqb c " " then words s
       else match s with
            | EmptyString => [String c EmptyString]
            | String d _ =>
                if Ascii.eqb d " " then String c EmptyString :: words s
                else match words s with
                     | w :: ws => String c w :: ws
                     | [] => [String c EmptyString]
                     end
            end).
    rewrite Hc. destruct s as [|d s']; [by repeat constructor|].
    destruct (Ascii.eqb d " "); [by constructor|].
    destruct (words (String d s')) as [|w ws]; [by repeat constructor|].
    intros H. apply Forall_cons in H as [Hw H]. constructor; [|done].
    simpl. intros [Heq|Hin]%elem_of_cons; [|done].
    by rewrite <- Heq, Ascii.eqb_refl in Hc.
Qed.

Lemma words_nil s :
  words s = [] -> Forall (fun c => c = " "%char) (list_ascii_of_string s).
Proof.
  induction s as [|c s IH]; [constructor|].
  destruct (Ascii.eqb c " ") eqn:Hc.
  - apply Ascii.eqb_eq in Hc as ->. rewrite words_space. intros H.
    constructor; [done | by apply IH].
  - rewrite (words_scan s c Hc). done.
Qed.

Lemma is_empty_false s :
  is_empty s = false ->
  exists c, c ∈ list_ascii_of_string s /\ isspace c = false.
Proof.
  induction s as [|c s IH]; simpl; [done|].
  destruct (isspace c) eqn:Hc; simpl.
  - intros (c' & Hin & Hc')%IH. exists c'. split; [by constructor | done].
  - intros _. exists c. split; [by constructor | done].
Qed.

Lemma cut_newline_keeps s c :
  c ∈ list_ascii_of_string s -> c <> "010"%char ->
  c ∈ list_ascii_of_string (cut_newline s).
Proof.
  intros Hin Hc. induction s as [|d s IH]; [done|].
  destruct s as [|d' s'].
  - simpl in Hin. apply list_elem_of_singleton in Hin as <-.
    simpl. destruct (Ascii.eqb c "010") eqn:He.
    + by apply Ascii.eqb_eq in He.
    + simpl. by constructor.
  - change (cut_newline (String d (String d' s'))) with
      (String d (cut_newline (String d' s'))).
    simpl list_ascii_of_string in *.
    apply elem_of_cons in Hin as [->|Hin]; [by constructor|].
    constructor. by apply IH.
Qed.

(** A line that [main] does not leave out has a first word. *)
Lemma command_word s :
  (starts_with_newline s || is_empty s) = false ->
  exists w ws, words (cut_newline s) = w :: ws.
Proof.
  intros [_ He]%orb_false_iff.
  destruct (is_empty_false s He) as (c & Hin & Hc).
  destruct (words (cut_newline s)) as [|w ws] eqn:Hw; [|eauto].
  exfalso. apply words_nil in Hw. rewrite Forall_forall in Hw.
  assert (c <> "010"%char) as Hnl by (intros ->; done).
  rewrite (Hw c (cut_newline_keeps s c Hin Hnl)) in Hc. done.
Qed.

Lemma split_tokens_eq fuel token saved counter args :
  split_tokens fuel token saved counter args =
  match fuel with
  | O => Stopped SplitBound
  | S fuel' =>
      if bool_decide (token <> None) || (counter <? ARGS_SUPPORTED) then
        if (counter <? 0) || (Z.of_nat (length args) <=? counter)
        then Stopped (ArgsOverrun counter)
        else
          let args1 := upd_z args counter token in
          let (token1, saved1) := strtok saved in
          split_tokens fuel' token1 saved1 (counter + 1) args1
      else Done (counter, args)
  end.
Proof. by destruct fuel. Qed.

(** The first loop of [split_string], entered with the words [toks] still to
    be stored, [c] entries of [args] being written. *)
Lemma split_tokens_spec fuel : forall toks token saved (c : nat) args,
  token = head toks -> words saved = tail toks ->
  (c <= 3)%nat -> length args = 3%nat -> (4 - c <= fuel)%nat ->
  split_tokens fuel token saved (Z.of_nat c) args =
    if bool_decide (c + length toks <= 3)%nat
    then Done (3, take c args ++ (Some <$> toks) ++
                  replicate (3 - c - length toks) None)
    else Stopped (ArgsOverrun 3).
Proof.
  induction fuel as [|fuel IH]; intros toks token saved c args Htok Hsaved Hc Hlen Hfuel;
    [lia|].
  rewrite split_tokens_eq. unfold ARGS_SUPPORTED. rewrite Hlen.
  destruct (decide (c = 3%nat)) as [->|Hc3].
  - (* the array is full *)
    change (Z.of_nat 3) with 3. change (3 <? 3) with false.
    change ((3 <? 0) || (3 <=? 3)) with true. rewrite orb_false_r.
    destruct toks as [|t ts]; simpl in Htok; subst token.
    + rewrite bool_decide_eq_false_2 by (intros H; by apply H).
      rewrite bool_decide_eq_true_2 by (simpl; lia).
      simpl. rewrite firstn_all2 by lia. by rewrite app_nil_r.
    + rewrite bool_decide_eq_true_2 by done.
      rewrite bool_decide_eq_false_2 by (simpl; lia). done.
  - assert ((Z.of_nat c <? 3) = true) as -> by (apply Z.ltb_lt; lia).
    rewrite orb_true_r.
    assert (((Z.of_nat c <? 0) || (Z.of_nat 3 <=? Z.of_nat c)) = false) as ->.
    { apply orb_false_iff. split; [apply Z.ltb_ge | apply Z.leb_gt]; lia. }
    cbv zeta.
    assert (upd_z args (Z.of_nat c) token = <[c := token]> args) as ->.
    { unfold upd_z. destruct (Z.ltb_spec (Z.of_nat c) 0); [lia|]. by rewrite Nat2Z.id. }
    assert (take (S c) (<[c := token]> args) = take c args ++ [token]) as Htake.
    { rewrite (take_S_r _ _ token) by (apply list_lookup_insert_eq; lia).
      by rewrite take_insert_ge by lia. }
    pose proof (strtok_words saved) as Hnext. rewrite Hsaved in Hnext.
    replace (Z.of_nat c + 1) with (Z.of_nat (S c)) by lia.
    destruct toks as [|t ts]; simpl in Htok; subst token; simpl tail in *.
    + rewrite Hnext.
      rewrite (IH [] None EmptyString (S c) (<[c := None]> args));
        [|done|done|lia|by rewrite length_insert|lia].
      rewrite !bool_decide_eq_true_2 by (simpl; lia).
      rewrite Htake. simpl. rewrite <- app_assoc. simpl.
      replace (3 - c - 0)%nat with (S (3 - S c - 0))%nat by lia. done.
    + assert (exists token1 saved1,
                strtok saved = (token1, saved1) /\ token1 = head ts /\
                words saved1 = tail ts) as (token1 & saved1 & -> & Ht1 & Hs1).
      { destruct ts as [|t2 ts'].
        - exists None, EmptyString. by rewrite Hnext.
        - destruct Hnext as (saved1 & -> & Hs1). by exists (Some t2), saved1. }
      rewrite (IH ts token1 saved1 (S c) (<[c := Some t]> args));
        [|done|done|lia|by rewrite length_insert|lia].
      rewrite Htake. simpl length.
      destruct (decide (S c + length ts <= 3)%nat).
      * rewrite !bool_decide_eq_true_2 by lia.
        rewrite <- app_assoc. simpl.
        replace (3 - c - S (length ts))%nat with (3 - S c - length ts)%nat by lia. done.
      * rewrite !bool_decide_eq_false_2 by lia. done.
Qed.

Lemma fill_null_full args : fill_null args 3 (Z.to_nat ARGS_SUPPORTED) = args.
Proof. reflexivity. Qed.

(** [split_string] in terms of the words of the line. *)
Lemma split_string_spec s args :
  length args = 3%nat ->
  split_string s args =
    if bool_decide (length (words s) <= 3)%nat
    then Done ((Some <$> words s) ++ replicate (3 - length (words s)) None)
    else Stopped (ArgsOverrun 3).
Proof.
  intros Hlen. unfold split_string.
  pose proof (strtok_words s) as Hfirst.
  assert (exists token saved,
            strtok s = (token, saved) /\ token = head (words s) /\
            words saved = tail (words s)) as (token & saved & -> & Ht & Hs).
  { destruct (words s) as [|w ws].
    - exists None, EmptyString. by rewrite Hfirst.
    - destruct Hfirst as (saved & -> & Hs). by exists (Some w), saved. }
  rewrite (split_tokens_spec _ (words s) token saved 0 args Ht Hs) by lia.
  change (0 + length (words s))%nat with (length (words s)).
  destruct (bool_decide _); [|done].
  rewrite fill_null_full. cbn [take app]. by rewrite Nat.sub_0_r.
Qed.

Lemma words_joined s :
  flat_map list_ascii_of_string (words s) =
    List.filter (fun c => negb (Ascii.eqb c " ")) (list_ascii_of_string s).
Proof.
  induction s as [|c s IH]; [done|].
  destruct (Ascii.eqb c " ") eqn:Hc.
  - assert (c = " "%char) as -> by (by apply Ascii.eqb_eq).
    rewrite words_space, IH. reflexivity.
  - change (words (String c s)) with
      (if Ascii.eqb c " " then words s
       else match s with
            | EmptyString => [String c EmptyString]
            | String d _ =>
                if Ascii.eqb d " " then String c EmptyString :: words s
                else match words s with
                     | w :: ws => String c w :: ws
                     | [] => [String c EmptyString]
                     end
            end).
    cbn [list_ascii_of_string List.filter]. rewrite Hc. cbn [negb].
    rewrite <- IH. destruct s as [|d s']; [done|].
    destruct (Ascii.eqb d " "); [done|].
    by destruct (words (String d s')).
Qed.

(** X11.  [split_string] stores the words of the line.  The words are the
    runs of characters other than the space: none is empty, none holds a
    space, and joined they are the line without its spaces.  Whatever
    [args] held before, a line of up to three words leaves its words in
    [args], in their order, and [NULL] in the entries behind them; a line of
    more than three words makes the first loop write [args[3]], which is
    outside the array of [main]. *)
Theorem split_string_stores_words s args :
  length args = 3%nat ->
  Forall (fun w => w <> EmptyString /\ " "%char ∉ list_ascii_of_string w) (words s) /\
  flat_map list_ascii_of_string (words s) =
    List.filter (fun c => negb (Ascii.eqb c " ")) (list_ascii_of_string s) /\
  ((length (words s) <= 3)%nat ->
   split_string s args =
     Done ((Some <$> words s) ++ replicate (3 - length (words s)) None)) /\
  ((3 < length (words s))%nat -> split_string s args = Stopped (ArgsOverrun 3)).
Proof.
  intros Hlen. split; [|split; [apply words_joined|]].
  - pose proof (words_nonempty s) as H1. pose proof (words_no_space s) as H2.
    rewrite Forall_forall in H1, H2. apply Forall_forall. intros w Hw. eauto.
  - rewrite (split_string_spec s args Hlen). split; intros H.
    + by rewrite bool_decide_eq_true_2 by lia.
    + by rewrite bool_decide_eq_false_2 by lia.
Qed.

Lemma split_string_stores_words_witness :
  split_string "get  a b" [Some "put"%string; Some "x"%string; None] =
    Done [Some "get"%string; Some "a"%string; Some "b"%string] /\
  split_string "df" [Some "put"%string; Some "x"%string; None] =
    Done [Some "df"%string; None; None] /\
  split_string "get a b c" [None; None; None] = Stopped (ArgsOverrun 3).
Proof.
  split; [|split].
  - destruct (split_string_stores_words "get  a b"
                [Some "put"%string; Some "x"%string; None])
      as (_ & _ & H & _); [reflexivity|].
    rewrite H; [reflexivity | vm_compute; lia].
  - destruct (split_string_stores_words "df"
                [Some "put"%string; Some "x"%string; None])
      as (_ & _ & H & _); [reflexivity|].
    rewrite H; [reflexivity | vm_compute; lia].
  - destruct (split_string_stores_words "get a b c" [None; None; None])
      as (_ & _ & _ & H); [reflexivity|].
    apply H. vm_compute. lia.
Defined.

(** [execute_command] on an array of three entries. *)
Lemma execute_command_spec st cmd arg1 arg2 host now :
  execute_command st [Some cmd; arg1; arg2] host now =
    if String.eqb cmd "put" then
      match put st arg1 host now with
      | Ok (st', m) => Done (st', OutPut m)
      | Trapped t => Stopped (InCommand t)
      end
    else if String.eqb cmd "get" then
      match get st arg1 arg2 with
      | Ok m => Done (st, OutGet m)
      | Trapped t => Stopped (InCommand t)
      end
    else if String.eqb cmd "del" then
      match delete st arg1 with
      | Ok (st', m) => Done (st', OutDel m)
      | Trapped t => Stopped (InCommand t)
      end
    else if String.eqb cmd "list" then Done (st, OutList (list_cmd st))
    else if String.eqb cmd "df" then Done (st, OutDf (disk_availability st))
    else Done (st, OutUnknown cmd).
Proof. reflexivity. Qed.

(** One turn of [main] in terms of the words of the line. *)
Lemma main_step_spec st args l :
  length args = 3%nat ->
  main_step st args l =
    if starts_with_newline (buffer l) || is_empty (buffer l)
    then Done (st, args, None)
    else
      match words (cut_newline (buffer l)) with
      | [] => Stopped NullCommand
      | cmd :: rest =>
          if bool_decide (length rest <= 2)%nat then
            match execute_command st [Some cmd; rest !! 0%nat; rest !! 1%nat]
                                  (line_host l) (line_now l) with
            | Stopped t => Stopped t
            | Done (st', out) =>
                Done (st', [Some cmd; rest !! 0%nat; rest !! 1%nat], Some out)
            end
          else Stopped (ArgsOverrun 3)
      end.
Proof.
  intros Hlen. unfold main_step.
  destruct (starts_with_newline (buffer l) || is_empty (buffer l)); [done|].
  rewrite (split_string_spec _ args Hlen).
  destruct (words (cut_newline (buffer l))) as [|cmd [|a [|b [|c rest]]]]; reflexivity.
Qed.

(** X12.  The command word is never [NULL].  Whatever the line and whatever
    [shell_args] held, a turn of [main] never has [execute_command] compare
    a [NULL] pointer with the command names: a line that is not left out
    has a first word.  The only entry of [shell_args] outside the array that
    a turn touches is [shell_args[3]], and only for a line of more than
    three words. *)
Theorem command_word_never_null st args l :
  length args = 3%nat ->
  main_step st args l <> Stopped NullCommand /\
  (forall i, main_step st args l = Stopped (ArgsOverrun i) ->
             i = 3 /\ (3 < length (words (cut_newline (buffer l))))%nat) /\
  ((starts_with_newline (buffer l) || is_empty (buffer l)) = false ->
   exists cmd rest, words (cut_newline (buffer l)) = cmd :: rest /\
                    cmd <> EmptyString).
Proof.
  intros Hlen. rewrite (main_step_spec st args l Hlen).
  destruct (starts_with_newline (buffer l) || is_empty (buffer l)) eqn:Hblank.
  { split; [done|]. split; done. }
  destruct (command_word _ Hblank) as (cmd & rest & Hw).
  pose proof (words_nonempty (cut_newline (buffer l))) as Hne.
  rewrite Hw in *. apply Forall_cons in Hne as [Hcmd _].
  assert (forall t,
            match execute_command st [Some cmd; rest !! 0%nat; rest !! 1%nat]
                                  (line_host l) (line_now l) with
            | Stopped t => Stopped t
            | Done (st', out) =>
                Done (st', [Some cmd; rest !! 0%nat; rest !! 1%nat], Some out)
            end = Stopped t -> exists t0, t = InCommand t0) as Hexec.
  { intros t. rewrite execute_command_spec.
    destruct (String.eqb cmd "put").
    { destruct (put _ _ _ _) as [[? ?]|t0]; [done | intros [= <-]; eauto]. }
    destruct (String.eqb cmd "get").
    { destruct (get _ _ _) as [?|t0]; [done | intros [= <-]; eauto]. }
    destruct (String.eqb cmd "del").
    { destruct (delete _ _) as [[? ?]|t0]; [done | intros [= <-]; eauto]. }
    destruct (String.eqb cmd "list"); [done|].
    by destruct (String.eqb cmd "df"). }
  split; [|split].
  - destruct (bool_decide (length rest <= 2)%nat); [|done].
    intros H. by destruct (Hexec _ H).
  - intros i. destruct (decide (length rest <= 2)%nat).
    + rewrite bool_decide_eq_true_2 by done. intros H. by destruct (Hexec _ H).
    + rewrite bool_decide_eq_false_2 by done. intros [= <-]. simpl. split; [done | lia].
  - intros _. eauto.
Qed.

Lemma command_word_never_null_witness :
  main_step init [None; None; None] (mkLine ("  df " ++ nl) (fun _ => None) 0) <>
    Stopped NullCommand /\
  exists cmd rest, words (cut_newline ("  df " ++ nl)) = cmd :: rest /\
                   cmd <> EmptyString.
Proof.
  destruct (command_word_never_null init [None; None; None]
              (mkLine ("  df " ++ nl) (fun _ => None) 0)) as (H1 & _ & H2).
  - reflexivity.
  - split; [exact H1|]. apply H2. vm_compute. reflexivity.
Defined.

(** X13.  A command without a file name.  For a line whose only word is the
    command, [put] and [get] print their message for the missing name and
    change nothing, while [del] hands the [NULL] entry to [delete], whose
    lookup loop passes it to [strcmp]. *)
Theorem command_without_name st args l cmd :
  length args = 3%nat ->
  (starts_with_newline (buffer l) || is_empty (buffer l)) = false ->
  words (cut_newline (buffer l)) = [cmd] ->
  (cmd = "put"%string ->
   main_step st args l = Done (st, [Some cmd; None; None], Some (OutPut PutNameMissing))) /\
  (cmd = "get"%string ->
   main_step st args l = Done (st, [Some cmd; None; None], Some (OutGet GetNameMissing))) /\
  (cmd = "del"%string ->
   main_step st args l = Stopped (InCommand NullArgument)).
Proof.
  intros Hlen Hblank Hw. rewrite (main_step_spec st args l Hlen), Hblank, Hw.
  rewrite bool_decide_eq_true_2 by (simpl; lia).
  rewrite execute_command_spec. simpl lookup.
  split; [|split]; intros ->; reflexivity.
Qed.

Lemma command_without_name_witness :
  main_step one_file [None; None; None] (mkLine ("del" ++ nl) (fun _ => None) 0) =
    Stopped (InCommand NullArgument).
Proof.
  destruct (command_without_name one_file [None; None; None]
              (mkLine ("del" ++ nl) (fun _ => None) 0) "del") as (_ & _ & H).
  - reflexivity.
  - vm_compute. reflexivity.
  - vm_compute. reflexivity.
  - by apply H.
Defined.

(** ** Sessions *)

(** [delete] of a non-empty name in a state whose entries are of the two
    kinds: not found, done, or stopped behind the block list of a file of
    48 blocks. *)
Lemma delete_outcome st name :
  readable st -> name <> EmptyString ->
  delete st (Some name) = Ok (st, DelNotFound) \/
  (exists st', delete st (Some name) = Ok (st', DelDone)) \/
  delete st (Some name) = Trapped (OutOfBounds Blocks 48) /\
  exists index e,
    nth_z (directory st) index = Some e /\ stored_name e = name /\
    used e = SET /\ 47 * BLOCK_SIZE < size e.
Proof.
  intros [Hwf Hok] Hne.
  destruct (first_match_or_none (directory st) name)
    as [Hnone|(n & e & Hn & Hname & Hfirst)].
  { left. by apply (lookup_not_found st name None). }
  right.
  assert (nth_z (directory st) (Z.of_nat n) = Some e) as He
    by (by rewrite nth_z_of_nat).
  rewrite Forall_forall in Hok.
  destruct (Hok e (list_elem_of_lookup_2 _ _ _ Hn))
    as [(_ & _ & H0)|(Hu & _ & Hsz & Hvalid & Hrest)]; [congruence|].
  destruct (wf_entry _ _ _ Hwf He) as [_ Hbl].
  set (k := Z.to_nat (nblocks (size e))) in *.
  assert (k <= 48)%nat as Hk.
  { pose proof (nblocks_bounds (size e) ltac:(lia)) as Hnb.
    unfold MAX_FILE_SIZE, BLOCK_SIZE in *. subst k. lia. }
  assert (owned (blocks e) = take k (blocks e)) as Hown.
  { rewrite <- (take_drop k (blocks e)) at 1. rewrite Hrest.
    apply owned_app_negative. eapply Forall_impl; [exact Hvalid|]. simpl. lia. }
  assert (length (owned (blocks e)) = k) as Hlen
    by (rewrite Hown, length_take; lia).
  destruct (delete_run st name (Z.of_nat n) e Hwf He Hname) as [Hdone Htrap].
  { intros j e' Hj Hj'. apply (Hfirst (Z.to_nat j)); [lia|].
    apply nth_z_Some in Hj' as [_ Hj']. done. }
  { intros b Hb. rewrite Hown in Hb. rewrite Forall_forall in Hvalid.
    by apply Hvalid. }
  destruct (decide (k = 48%nat)) as [Hk48|Hk48].
  - right. split; [apply Htrap; lia|].
    exists (Z.of_nat n), e. split; [done|]. split; [done|]. split; [done|].
    subst k. unfold nblocks, BLOCK_SIZE in *.
    destruct (Z.max_spec 0 ((size e + (2048 - 1)) / 2048)) as [[_ Hm]|[_ Hm]];
      rewrite Hm in Hk48; [|lia].
    assert ((size e + (2048 - 1)) / 2048 = 48) as Hq by lia.
    pose proof (Z.mul_div_le (size e + (2048 - 1)) 2048 ltac:(lia)).
    pose proof (Z.mod_pos_bound (size e + (2048 - 1)) 2048 ltac:(lia)).
    pose proof (Z.div_mod (size e + (2048 - 1)) 2048 ltac:(lia)). lia.
  - left. destruct Hdone as (st' & Hdel & _); [lia|]. eauto.
Qed.

(** What a turn of [main] that ends does to the file system. *)
Lemma main_step_done st args l st' args' out :
  length args = 3%nat ->
  main_step st args l = Done (st', args', out) ->
  length args' = 3%nat /\
  (st' = st /\ (forall m, out <> Some (OutPut m)) \/
   (exists arg1 m, put st arg1 (line_host l) (line_now l) = Ok (st', m) /\
                   out = Some (OutPut m) /\
                   (forall name, arg1 = Some name ->
                                 name ∈ words (cut_newline (buffer l)))) \/
   (exists name m, name <> EmptyString /\ delete st (Some name) = Ok (st', m) /\
                   out = Some (OutDel m))).
Proof.
  intros Hlen. rewrite (main_step_spec st args l Hlen).
  destruct (starts_with_newline (buffer l) || is_empty (buffer l)).
  { intros [= <- <- <-]. split; [done|]. by left. }
  pose proof (words_nonempty (cut_newline (buffer l))) as Hne.
  destruct (words (cut_newline (buffer l))) as [|cmd rest]; [done|].
  destruct (bool_decide (length rest <= 2)%nat); [|done].
  rewrite execute_command_spec.
  destruct (String.eqb cmd "put").
  { destruct (put _ _ _ _) as [[s m]|t] eqn:Hput; [|done].
    intros [= <- <- <-]. split; [done|]. right. left.
    exists (rest !! 0%nat), m. split; [done|]. split; [done|].
    intros name Hname. right. eapply list_elem_of_lookup_2; eauto. }
  destruct (String.eqb cmd "get").
  { destruct (get _ _ _) as [m|t]; [|done].
    intros [= <- <- <-]. split; [done|]. by left. }
  destruct (String.eqb cmd "del").
  { destruct (rest !! 0%nat) as [name|] eqn:Hname; [|done].
    destruct (delete _ _) as [[s m]|t] eqn:Hdel; [|done].
    intros [= <- <- <-]. split; [done|]. right. right. exists name, m.
    split; [|done]. apply Forall_cons in Hne as [_ Hne].
    rewrite Forall_forall in Hne. apply Hne. eapply list_elem_of_lookup_2; eauto. }
  destruct (String.eqb cmd "list").
  { intros [= <- <- <-]. split; [done|]. by left. }
  destruct (String.eqb cmd "df"); intros [= <- <- <-]; (split; [done|]); by left.
Qed.

(** Why a turn of [main] can stop. *)
Lemma main_step_stopped st args l t :
  readable st -> length args = 3%nat ->
  main_step st args l = Stopped t ->
  t = ArgsOverrun 3 /\ (3 < length (words (cut_newline (buffer l))))%nat \/
  t = InCommand NullArgument /\ words (cut_newline (buffer l)) = ["del"%string] \/
  t = InCommand (OutOfBounds Blocks 48) /\
  exists name rest index e,
    words (cut_newline (buffer l)) = "del"%string :: name :: rest /\
    nth_z (directory st) index = Some e /\ stored_name e = name /\
    used e = SET /\ 47 * BLOCK_SIZE < size e.
Proof.
  intros Hr Hlen. rewrite (main_step_spec st args l Hlen).
  destruct (starts_with_newline (buffer l) || is_empty (buffer l)) eqn:Hblank; [done|].
  destruct (command_word _ Hblank) as (cmd & rest & Hw).
  pose proof (words_nonempty (cut_newline (buffer l))) as Hne.
  rewrite Hw in *.
  destruct (decide (length rest <= 2)%nat) as [Hrest|Hrest].
  2: { rewrite bool_decide_eq_false_2 by done. intros [= <-]. left.
       split; [done | simpl; lia]. }
  rewrite bool_decide_eq_true_2 by done.
  rewrite execute_command_spec.
  destruct (String.eqb cmd "put") eqn:Hput.
  { destruct (put_never_trapped st (rest !! 0%nat) (line_host l) (line_now l))
      as (s & m & ->); [by destruct Hr | done]. }
  destruct (String.eqb cmd "get") eqn:Hget.
  { destruct (get_outcome st (rest !! 0%nat) (rest !! 1%nat) Hr)
      as [[-> _]|[[-> _]|(? & ? & ? & ? & _ & -> & _)]]; done. }
  destruct (String.eqb cmd "del") eqn:Hdel.
  { apply String.eqb_eq in Hdel as ->.
    destruct rest as [|name rest]; simpl lookup.
    { intros [= <-]. right. by left. }
    assert (name <> EmptyString) as Hname.
    { apply Forall_cons in Hne as [_ Hne]. by apply Forall_cons in Hne as [Hne _]. }
    destruct (delete_outcome st name Hr Hname)
      as [->|[(s & ->)|(-> & index & e & He)]]; [done|done|].
    intros [= <-]. right. right. split; [done|]. by exists name, rest, index, e. }
  destruct (String.eqb cmd "list"); [done|].
  by destruct (String.eqb cmd "df").
Qed.

Lemma main_step_keeps_readable st args l st' args' out :
  readable st -> length args = 3%nat ->
  main_step st args l = Done (st', args', out) ->
  readable st' /\ length args' = 3%nat.
Proof.
  intros Hr Hlen Hstep.
  destruct (main_step_done st args l st' args' out Hlen Hstep)
    as (Hlen' & [[-> _]|[(arg1 & m & Hput & _)|(name & m & _ & Hdel & _)]]);
    (split; [|done]).
  - done.
  - by apply (put_keeps_readable st arg1 (line_host l) (line_now l) st' m).
  - by apply (delete_keeps_readable st (Some name) st' m).
Qed.

(** [put] of a name shorter than the array stores the terminator with it. *)
Lemma put_keeps_terminated st arg1 host now st' m :
  wf st -> terminated st -> put st arg1 host now = Ok (st', m) ->
  (forall name, arg1 = Some name -> strlen name <= 254) ->
  terminated st' /\ forall past, m = PutStored past -> past = [].
Proof.
  intros Hwf Ht Hput Hshort.
  destruct arg1 as [name|]; [|by injection Hput as <- <-].
  specialize (Hshort name eq_refl).
  pose proof (put_run st name host now Hwf) as Hrun. rewrite Hput in Hrun.
  destruct m; try done; try (by destruct Hrun as [-> _]).
  - (* read error *)
    split; [|done]. revert Hput. unfold put.
    destruct (strlen name >? MAX_FILE_NAME); [done|].
    destruct (negb (regexec_file_name name)); [done|].
    destruct (host name) as [f|]; [|done].
    destruct (_ >? MAX_FILE_SIZE); [done|].
    destruct (_ >? cast_ulong (disk_availability st)); [done|].
    destruct (Z.eqb_spec (get_new_file_entry st) (-1)) as [|Hslot]; [done|].
    destruct (put_copy _ _ _ _ _ _ _) as [[st1 [k|]]|t] eqn:Hcopy; [| |done].
    { destruct (nth_z _ _); [destruct (put_finish _ _ _ _ _)|]; done. }
    intros [= <-].
    destruct (put_copy_directory _ _ _ _ _ _ _ _ _ Hcopy) as (bl & Hdir).
    unfold terminated. rewrite Hdir. apply Forall_alter; [done|]. by intros x _.
  - (* stored *)
    destruct Hrun as [Hpast (f & bs & Hf & Hpost)].
    destruct Hpost as [Hre _ _ _ _ (e & He & _ & Hdir) _ _ _ _ _].
    pose proof (regexec_length _ Hre) as Hlen.
    pose proof (length_chars name) as Hch.
    pose proof (wf_entry _ _ _ Hwf He) as [Hfn _].
    split.
    + unfold terminated. rewrite Hdir. apply Forall_insert; [done|].
      unfold stored_entry. cbn [file_name]. unfold copied.
      rewrite (take_ge (list_ascii_of_string name ++ [NUL]))
        by (rewrite length_app; simpl; lia).
      rewrite take_ge by (rewrite length_app; simpl; lia).
      apply elem_of_app. left. apply elem_of_app. right. by left.
    + intros p [= <-]. rewrite Hpast. apply past_end_inside.
      unfold FILE_NAME_LEN. lia.
Qed.

(** [delete] writes a terminator at the start of the name. *)
Lemma delete_keeps_terminated st arg1 st' m :
  wf st -> terminated st -> delete st arg1 = Ok (st', m) -> terminated st'.
Proof.
  intros Hwf Ht. unfold delete. destruct arg1 as [name|]; [|done].
  destruct (_ <? 0); [by intros [= <- <-]|].
  destruct (block_at st _ 0) as [b0|]; [|done].
  destruct (delete_clear _ _ _ _ _) as [st1|t] eqn:Hclear; [|done].
  intros [= <- <-].
  destruct (delete_clear_directory _ _ _ _ _ _ Hwf Hclear) as (_ & bl & Hdir).
  unfold terminated. simpl directory. rewrite Hdir, list_alter_alter_eq.
  apply Forall_alter; [done|]. intros e He _.
  unfold compose, delete_finish. cbn [file_name with_blocks].
  assert (length (file_name e) = 255%nat) as Hfn.
  { apply wf_iff in Hwf as (_ & Hdw & _). rewrite Forall_forall in Hdw.
    apply wf_inode_iff, Hdw. eapply list_elem_of_lookup_2; eauto. }
  destruct (file_name e) as [|c r]; [done|]. by left.
Qed.

Lemma terminated_init : terminated init.
Proof.
  apply Forall_forall. intros e He. apply elem_of_replicate in He as [-> _].
  by left.
Qed.

Lemma main_step_keeps_names st args l st' args' out :
  wf st -> terminated st -> length args = 3%nat -> short_words l ->
  main_step st args l = Done (st', args', out) ->
  terminated st' /\ forall past, out = Some (OutPut (PutStored past)) -> past = [].
Proof.
  intros Hwf Ht Hlen Hshort Hstep.
  destruct (main_step_done st args l st' args' out Hlen Hstep)
    as (_ & [[-> Hout]|[(arg1 & m & Hput & -> & Hword)|(name & m & _ & Hdel & ->)]]).
  - split; [done|]. intros past H. by destruct (Hout _ H).
  - destruct (put_keeps_terminated st arg1 (line_host l) (line_now l) st' m)
      as [Ht' Hpast]; [done..| |].
    + intros name Hname. unfold short_words in Hshort.
      rewrite forallb_forall in Hshort.
      apply Z.leb_le, Hshort, list_elem_of_In, Hword, Hname.
    + split; [done|]. intros past [= ->]. by apply Hpast.
  - split; [|done]. by apply (delete_keeps_terminated st (Some name) st' m).
Qed.

Lemma main_loop_safe lines : forall st args,
  readable st -> terminated st -> length args = 3%nat ->
  Forall short_words lines ->
  match main_loop st args lines with
  | Done (st', outs) =>
      readable st' /\ terminated st' /\
      Forall (fun out => forall past, out = Some (OutPut (PutStored past)) ->
                                      past = []) outs
  | Stopped t =>
      exists l, l ∈ lines /\
        (t = ArgsOverrun 3 /\ (3 < length (words (cut_newline (buffer l))))%nat \/
         t = InCommand NullArgument /\
           words (cut_newline (buffer l)) = ["del"%string] \/
         t = InCommand (OutOfBounds Blocks 48) /\
           exists name rest,
             words (cut_newline (buffer l)) = "del"%string :: name :: rest)
  end.
Proof.
  induction lines as [|l lines IH]; intros st args Hr Ht Hlen Hshort; simpl.
  { split; [done|]. split; [done | constructor]. }
  apply Forall_cons in Hshort as [Hl Hshort].
  destruct (main_step st args l) as [[[st1 args1] out]|t] eqn:Hstep.
  - destruct (main_step_keeps_readable _ _ _ _ _ _ Hr Hlen Hstep) as [Hr1 Hlen1].
    destruct (main_step_keeps_names _ _ _ _ _ _ (proj1 Hr) Ht Hlen Hl Hstep)
      as [Ht1 Hout].
    specialize (IH st1 args1 Hr1 Ht1 Hlen1 Hshort).
    destruct (main_loop st1 args1 lines) as [[st' outs]|t].
    + destruct IH as (IH1 & IH2 & IH3). split; [done|]. split; [done|].
      by constructor.
    + destruct IH as (l' & Hl' & IH). exists l'. split; [by right | done].
  - exists l. split; [by left|].
    destruct (main_step_stopped st args l t Hr Hlen Hstep)
      as [H|[H|(H & name & rest & _ & _ & Hw & _)]]; [by left | by right; left |].
    right. right. split; [done|]. eauto.
Qed.

(** X14.  The arrays in a session.  From the empty file system, for lines
    whose words have at most 254 characters, whatever the host files and the
    clock.  As long as the session goes on, the directory holds entries of
    the two kinds of [entry_ok] only, every [file_name] holds its
    terminator, and no [put] has written outside [file_name].  The session
    ends at an access outside an array or at a [NULL] string only in three
    ways: a line of more than three words (write to [shell_args[3]]), a line
    [del] without a name ([strcmp] on [NULL]), and a line [del] with a name
    (read of [blocks[48]], behind the block list).  The statement is about
    arrays and strings; the streams of the host are taken to open. *)
Theorem session_stops_only_for args lines :
  length args = 3%nat -> Forall short_words lines ->
  match main args lines with
  | Done (st', outs) =>
      readable st' /\ terminated st' /\
      Forall (fun out => forall past, out = Some (OutPut (PutStored past)) ->
                                      past = []) outs
  | Stopped t =>
      exists l, l ∈ lines /\
        (t = ArgsOverrun 3 /\ (3 < length (words (cut_newline (buffer l))))%nat \/
         t = InCommand NullArgument /\
           words (cut_newline (buffer l)) = ["del"%string] \/
         t = InCommand (OutOfBounds Blocks 48) /\
           exists name rest,
             words (cut_newline (buffer l)) = "del"%string :: name :: rest)
  end.
Proof.
  intros Hlen Hshort.
  apply main_loop_safe; [apply readable_init | apply terminated_init | done..].
Qed.

Lemma session_stops_only_for_witness :
  exists st' outs,
    main [None; None; None] session_lines = Done (st', outs) /\
    readable st' /\ terminated st'.
Proof.
  assert (Forall short_words session_lines) as Hshort.
  { unfold session_lines.
    repeat (apply Forall_cons; split; [vm_compute; reflexivity|]). constructor. }
  pose proof (session_stops_only_for [None; None; None] session_lines eq_refl Hshort)
    as H.
  destruct (main [None; None; None] session_lines) as [[st' outs]|t] eqn:Hmain.
  - exists st', outs. split; [reflexivity|].
    destruct H as (H1 & H2 & _). split; [exact H1 | exact H2].
  - exfalso.
    assert (match main [None; None; None] session_lines with
            | Done _ => true | Stopped _ => false end = true) as Hd
      by (vm_compute; reflexivity).
    rewrite Hmain in Hd. discriminate Hd.
Defined.

Lemma main_loop_tidy lines : forall st args st' outs,
  tidy st -> length args = 3%nat ->
  main_loop st args lines = Done (st', outs) ->
  Some (OutPut PutReadError) ∉ outs -> tidy st'.
Proof.
  induction lines as [|l lines IH]; intros st args st' outs Ht Hlen; simpl.
  { by intros [= <- <-]. }
  destruct (main_step st args l) as [[[st1 args1] out]|t] eqn:Hstep; [|done].
  destruct (main_loop st1 args1 lines) as [[st2 outs2]|t] eqn:Hrest; [|done].
  intros [= <- <-] Hno. apply not_elem_of_cons in Hno as [Hout Hno].
  destruct (main_step_done st args l st1 args1 out Hlen Hstep)
    as (Hlen1 & Hcase).
  apply (IH st1 args1 st2 outs2); [|done..].
  destruct Hcase as [[-> _]|[(arg1 & m & Hput & -> & _)|(name & m & Hname & Hdel & _)]].
  - done.
  - apply (put_keeps_tidy st arg1 (line_host l) (line_now l) st1 m); [done..|].
    intros ->. done.
  - by apply (delete_keeps_tidy st name st1 m).
Qed.

(** X15.  The accounting along a session.  From the empty file system,
    whatever the lines typed: when the session went through all of them and
    no [put] reported a read error, every block in use is held exactly once
    by a used entry, every block held is in use, free and used bytes add up
    to the disk, and every unused slot has an empty name.  No condition on
    the names is needed: a word is never empty, so [del] cannot match the
    empty name of the unused slots. *)
Theorem session_keeps_accounting args lines st' outs :
  length args = 3%nat ->
  main args lines = Done (st', outs) ->
  Some (OutPut PutReadError) ∉ outs ->
  accounting st' /\
  Forall (fun e => used e = 0 -> stored_name e = EmptyString) (directory st').
Proof.
  intros Hlen Hmain Hno.
  destruct (main_loop_tidy lines init args st' outs tidy_init Hlen Hmain Hno)
    as (_ & Hacc & Hnames).
  done.
Qed.

Lemma session_keeps_accounting_witness :
  accounting (match main [None; None; None] session_lines with
              | Done (st', _) => st' | Stopped _ => init end).
Proof.
  destruct (main [None; None; None] session_lines) as [[st' outs]|t] eqn:Hmain.
  - apply (session_keeps_accounting [None; None; None] session_lines st' outs).
    + reflexivity.
    + exact Hmain.
    + assert (match main [None; None; None] session_lines with
              | Done (_, o) =>
                  forallb (fun x => match x with
                                    | Some (OutPut PutReadError) => false
                                    | _ => true end) o
              | Stopped _ => false end = true) as Hd by (vm_compute; reflexivity).
      rewrite Hmain in Hd. rewrite forallb_forall in Hd.
      intros Hin. apply list_elem_of_In in Hin. specialize (Hd _ Hin). discriminate Hd.
  - exfalso.
    assert (match main [None; None; None] session_lines with
            | Done _ => true | Stopped _ => false end = true) as Hd
      by (vm_compute; reflexivity).
    rewrite Hmain in Hd. discriminate Hd.
Defined.

Lemma main_loop_old_args lines : forall st args args',
  length args = 3%nat -> length args' = 3%nat ->
  main_loop st args lines = main_loop st args' lines.
Proof.
  induction lines as [|l lines IH]; intros st args args' Hlen Hlen'; simpl; [done|].
  rewrite (main_step_spec st args l Hlen), (main_step_spec st args' l Hlen').
  destruct (starts_with_newline (buffer l) || is_empty (buffer l)).
  { by rewrite (IH st args args'). }
  done.
Qed.

(** X16.  No word of an earlier line.  [shell_args] is not initialised
    when [main] starts and keeps its content from one turn to the next, but
    what a session prints and stores does not depend on it: every turn that
    runs a command has written all three entries before. *)
Theorem session_ignores_old_args args args' lines :
  length args = 3%nat -> length args' = 3%nat ->
  main args lines = main args' lines.
Proof. intros. by apply main_loop_old_args. Qed.

Lemma session_ignores_old_args_witness :
  main [Some "del"%string; Some "a"%string; Some "b"%string] session_lines =
  main [None; None; None] session_lines.
Proof.
  apply session_ignores_old_args; reflexivity.
Defined.
